(** * A shallow embedding of the to-do list controller [TodoApp] (script.js)

    The controller keeps an array of task objects, mirrors it into the
    browser's local storage as JSON under the key "todos", and re-renders a
    filtered view after each change.  This file embeds

    - JavaScript strings as sequences of UTF-16 code units, with
      [String.prototype.trim];
    - the JSON values that [JSON.parse] can return, with [JSON.stringify] and
      [JSON.parse] at the level of characters;
    - the controller's fields and the parts of the browser it talks to (the
      storage slot, the clock, [Math.random], [confirm], the two text inputs,
      notifications) as one record, threaded through a state-and-exception
      monad in which a thrown exception keeps the state changes made so far;
    - every method of the class that reads or writes [this.todos];
    - the keyboard handler and the events the listeners are bound to, as
      sessions of events.

    Modelling boundaries.
    - Numbers are kept as exact decimals (IEEE-754 rounding is not
      modelled); no task object built by the program holds a number.
    - Identifiers that are objects or arrays are compared by structure where
      JavaScript compares references; the program itself only creates string
      identifiers.
    - A parsed object keeps its keys in the order of the text; JavaScript
      moves keys that are array indices to the front.  The keys of a task
      are not array indices.
    - [localStorage.setItem] throws exactly when the value is longer than
      the quota of the world; [getItem] and [removeItem] do not throw.
    - The DOM nodes looked up in the constructor are taken to exist; of what
      is on screen, the world records the list of rendered tasks, the two
      counters and whether the empty state and the dialog are shown. *)

From Stdlib Require Import String Ascii.
From Stdlib Require Import List ZArith NArith Lia Bool.
Import ListNotations.

Set Warnings "-register-all".

(** ** JavaScript strings *)

Module Str.

(** A string is a sequence of UTF-16 code units (values below 65536). *)
Definition js_string := list N.

(** Transcription of an ASCII literal. *)
Definition str (s : string) : js_string :=
  map N_of_ascii (list_ascii_of_string s).

Fixpoint eqb (a b : js_string) : bool :=
  match a, b with
  | [], [] => true
  | x :: a', y :: b' => (x =? y)%N && eqb a' b'
  | _, _ => false
  end.

(** WhiteSpace and LineTerminator code points of ECMAScript, the ones
    [trim] strips. *)
Definition is_white_space (c : N) : bool :=
  ((9 <=? c) && (c <=? 13) || (c =? 32) || (c =? 160) || (c =? 5760)
   || (8192 <=? c) && (c <=? 8202) || (c =? 8232) || (c =? 8233)
   || (c =? 8239) || (c =? 8287) || (c =? 12288) || (c =? 65279))%N.

Fixpoint trimStart (s : js_string) : js_string :=
  match s with
  | c :: rest => if is_white_space c then trimStart rest else s
  | [] => []
  end.

Definition trimEnd (s : js_string) : js_string := rev (trimStart (rev s)).

(** [String.prototype.trim] *)
Definition trim (s : js_string) : js_string := trimEnd (trimStart s).

(** Decimal digits of a natural number, most significant first. *)
Fixpoint digits_from (radix : N) (fuel : nat) (n : N) (acc : list N) : list N :=
  match fuel with
  | O => acc
  | S fuel' =>
      if (n <? radix)%N then n :: acc
      else digits_from radix fuel' (n / radix)%N ((n mod radix)%N :: acc)
  end.

Definition digits (radix n : N) : list N :=
  digits_from radix (S (N.size_nat n)) n [].

(** Digit characters [0-9a-z], as [Number.prototype.toString] writes them. *)
Definition digit_char (d : N) : N := (if d <? 10 then 48 + d else 87 + d)%N.

Definition N_to_string (radix n : N) : js_string :=
  map digit_char (digits radix n).

(** [Number.prototype.toString(radix)] on an integer. *)
Definition Z_to_string (radix : N) (z : Z) : js_string :=
  match z with
  | Zneg p => 45%N :: N_to_string radix (Npos p)
  | _ => N_to_string radix (Z.to_N z)
  end.

(** [String.prototype.substr(start)] with a non-negative start. *)
Definition substr (start : nat) (s : js_string) : js_string := skipn start s.

End Str.

Import Str.

(** ** JSON values, [JSON.stringify] and [JSON.parse] *)

Module JSON.

(** The values [JSON.parse] can return.  A number [JNum m e] stands for
    the decimal [m * 10^e]. *)
Inductive jsval : Type :=
| JNull
| JBool (b : bool)
| JNum (m e : Z)
| JStr (s : js_string)
| JArr (elems : list jsval)
| JObj (props : list (js_string * jsval)).

(** An ordinary object: its own properties in creation order. *)
Definition js_object := list (js_string * jsval).

(** Property read [o.k]; [None] is [undefined]. *)
Fixpoint get (k : js_string) (o : js_object) : option jsval :=
  match o with
  | [] => None
  | (k', v) :: rest => if Str.eqb k k' then Some v else get k rest
  end.

(** Property write [o.k = v]: an existing property keeps its place, a new
    one is added last. *)
Fixpoint set (k : js_string) (v : jsval) (o : js_object) : js_object :=
  match o with
  | [] => [(k, v)]
  | (k', v') :: rest =>
      if Str.eqb k k' then (k', v) :: rest else (k', v') :: set k v rest
  end.

(** ToBoolean *)
Definition truthy (v : jsval) : bool :=
  match v with
  | JNull => false
  | JBool b => b
  | JNum m _ => negb (m =? 0)%Z
  | JStr s => match s with [] => false | _ => true end
  | JArr _ | JObj _ => true
  end.

Definition truthy_opt (v : option jsval) : bool :=
  match v with Some v => truthy v | None => false end.

Definition num_eqb (m1 e1 m2 e2 : Z) : bool :=
  let e := Z.min e1 e2 in
  (m1 * 10 ^ (e1 - e) =? m2 * 10 ^ (e2 - e))%Z.

(** [a === b] *)
Fixpoint strict_eq (a b : jsval) : bool :=
  match a, b with
  | JNull, JNull => true
  | JBool x, JBool y => Bool.eqb x y
  | JNum m1 e1, JNum m2 e2 => num_eqb m1 e1 m2 e2
  | JStr x, JStr y => Str.eqb x y
  | JArr xs, JArr ys =>
      (fix all2 (xs ys : list jsval) : bool :=
         match xs, ys with
         | [], [] => true
         | x :: xs', y :: ys' => strict_eq x y && all2 xs' ys'
         | _, _ => false
         end) xs ys
  | JObj xs, JObj ys =>
      (fix all2 (xs ys : list (js_string * jsval)) : bool :=
         match xs, ys with
         | [], [] => true
         | (k, x) :: xs', (k', y) :: ys' =>
             Str.eqb k k' && strict_eq x y && all2 xs' ys'
         | _, _ => false
         end) xs ys
  | _, _ => false
  end.

Definition strict_eq_opt (a : option jsval) (b : jsval) : bool :=
  match a with Some a => strict_eq a b | None => false end.

(** *** Number to string *)

Fixpoint strip_zeros (rev_digits : list N) (dropped : Z) : list N * Z :=
  match rev_digits with
  | d :: rest =>
      if (d =? 0)%N then strip_zeros rest (dropped + 1)%Z
      else (rev rev_digits, dropped)
  | [] => ([], dropped)
  end.

Definition digit_chars (ds : list N) : js_string := map digit_char ds.

(** Number::toString for the decimal [m * 10^e]. *)
Definition number_to_string (m e : Z) : js_string :=
  if (m =? 0)%Z then str "0"
  else
    let sign := if (m <? 0)%Z then str "-" else [] in
    let '(ds, tz) := strip_zeros (rev (digits 10 (Z.abs_N m))) 0%Z in
    let k := Z.of_nat (length ds) in
    let n := (k + e + tz)%Z in
    sign ++
    (if ((k <=? n) && (n <=? 21))%Z then
       digit_chars ds ++ repeat 48%N (Z.to_nat (n - k))
     else if ((0 <? n) && (n <=? 21))%Z then
       digit_chars (firstn (Z.to_nat n) ds) ++ str "." ++
       digit_chars (skipn (Z.to_nat n) ds)
     else if ((-6 <? n) && (n <=? 0))%Z then
       str "0." ++ repeat 48%N (Z.to_nat (- n)) ++ digit_chars ds
     else
       let ex := (if (n - 1 <? 0)%Z then str "-" else str "+") ++
                 N_to_string 10 (Z.abs_N (n - 1)) in
       match ds with
       | [d] => digit_chars [d] ++ str "e" ++ ex
       | d :: more => digit_chars [d] ++ str "." ++ digit_chars more ++ str "e" ++ ex
       | [] => []
       end).

Fixpoint join (sep : js_string) (parts : list js_string) : js_string :=
  match parts with
  | [] => []
  | p :: rest =>
      match rest with
      | [] => p
      | _ => p ++ sep ++ join sep rest
      end
  end.

(** ToString, as applied when a value is stored into an input's [value];
    [None] is [undefined]. *)
Fixpoint to_string (v : jsval) : js_string :=
  match v with
  | JNull => str "null"
  | JBool true => str "true"
  | JBool false => str "false"
  | JNum m e => number_to_string m e
  | JStr s => s
  | JArr l =>
      join (str ",")
           (map (fun x => match x with JNull => [] | _ => to_string x end) l)
  | JObj _ => str "[object Object]"
  end.

Definition to_string_opt (v : option jsval) : js_string :=
  match v with Some v => to_string v | None => str "undefined" end.

(** *** [JSON.stringify] *)

Definition is_high_surrogate (c : N) : bool := ((55296 <=? c) && (c <=? 56319))%N.
Definition is_low_surrogate (c : N) : bool := ((56320 <=? c) && (c <=? 57343))%N.

Definition hex4 (c : N) : js_string :=
  [digit_char (c / 4096); digit_char ((c / 256) mod 16);
   digit_char ((c / 16) mod 16); digit_char (c mod 16)]%N.

(** The six characters of a Unicode escape, with lower-case digits. *)
Definition unicode_escape (c : N) : js_string := 92%N :: 117%N :: hex4 c.

Definition escape_unit (c : N) : js_string :=
  (if c =? 8 then [92; 98]
   else if c =? 9 then [92; 116]
   else if c =? 10 then [92; 110]
   else if c =? 12 then [92; 102]
   else if c =? 13 then [92; 114]
   else if c =? 34 then [92; 34]
   else if c =? 92 then [92; 92]
   else if (c <? 32) || is_high_surrogate c || is_low_surrogate c
        then unicode_escape c
   else [c])%N.

(** The characters between the quotes of QuoteJSONString: a surrogate pair
    is copied, a lone surrogate is escaped. *)
Fixpoint quote_chars (s : js_string) : js_string :=
  match s with
  | [] => []
  | c :: rest =>
      if is_high_surrogate c then
        match rest with
        | d :: rest' =>
            if is_low_surrogate d then c :: d :: quote_chars rest'
            else unicode_escape c ++ quote_chars rest
        | [] => unicode_escape c
        end
      else escape_unit c ++ quote_chars rest
  end.

Definition quote (s : js_string) : js_string := 34%N :: quote_chars s ++ [34%N].

Fixpoint stringify (v : jsval) : js_string :=
  match v with
  | JNull => str "null"
  | JBool true => str "true"
  | JBool false => str "false"
  | JNum m e => number_to_string m e
  | JStr s => quote s
  | JArr l => 91%N :: join [44%N] (map stringify l) ++ [93%N]
  | JObj l =>
      123%N ::
      join [44%N]
           (map (fun kv : js_string * jsval =>
                   let (k, x) := kv in quote k ++ 58%N :: stringify x) l)
      ++ [125%N]
  end.

(** *** [JSON.parse] *)

Definition is_json_ws (c : N) : bool :=
  ((c =? 32) || (c =? 9) || (c =? 10) || (c =? 13))%N.

Fixpoint skip_ws (s : js_string) : js_string :=
  match s with
  | c :: rest => if is_json_ws c then skip_ws rest else s
  | [] => []
  end.

Definition hex_val (c : N) : option N :=
  (if (48 <=? c) && (c <=? 57) then Some (c - 48)
   else if (97 <=? c) && (c <=? 102) then Some (c - 87)
   else if (65 <=? c) && (c <=? 70) then Some (c - 55)
   else None)%N.

Definition unhex4 (h1 h2 h3 h4 : N) : option N :=
  match hex_val h1, hex_val h2, hex_val h3, hex_val h4 with
  | Some a, Some b, Some c, Some d => Some (((a * 16 + b) * 16 + c) * 16 + d)%N
  | _, _, _, _ => None
  end.

(** The character after a backslash, other than [u]. *)
Definition unescape (c : N) : option N :=
  (if (c =? 34) || (c =? 92) || (c =? 47) then Some c
   else if c =? 98 then Some 8
   else if c =? 102 then Some 12
   else if c =? 110 then Some 10
   else if c =? 114 then Some 13
   else if c =? 116 then Some 9
   else None)%N.

Definition cons_fst (c : N) (r : option (js_string * js_string)) :=
  match r with Some (cs, rest) => Some (c :: cs, rest) | None => None end.

(** A string literal after its opening quote: the decoded characters and
    the input after the closing quote. *)
Fixpoint parse_chars (s : js_string) : option (js_string * js_string) :=
  match s with
  | [] => None
  | c :: rest =>
      if (c =? 34)%N then Some ([], rest)
      else if (c =? 92)%N then
        match rest with
        | [] => None
        | e :: rest1 =>
            if (e =? 117)%N then
              match rest1 with
              | h1 :: h2 :: h3 :: h4 :: rest2 =>
                  match unhex4 h1 h2 h3 h4 with
                  | Some u => cons_fst u (parse_chars rest2)
                  | None => None
                  end
              | _ => None
              end
            else
              match unescape e with
              | Some u => cons_fst u (parse_chars rest1)
              | None => None
              end
        end
      else if (c <? 32)%N then None
      else cons_fst c (parse_chars rest)
  end.

Definition is_digit (c : N) : bool := ((48 <=? c) && (c <=? 57))%N.

(** A maximal run of digits, as digit values. *)
Fixpoint take_digits (s : js_string) : list N * js_string :=
  match s with
  | c :: rest =>
      if is_digit c then
        let (ds, rest') := take_digits rest in ((c - 48)%N :: ds, rest')
      else ([], s)
  | [] => ([], [])
  end.

Definition digits_value (ds : list N) : Z :=
  fold_left (fun acc d => (acc * 10 + Z.of_N d)%Z) ds 0%Z.

(** Optional exponent part of a number. *)
Definition parse_exponent (s : js_string) : option (Z * js_string) :=
  match s with
  | c :: rest =>
      if ((c =? 101) || (c =? 69))%N then
        let '(neg, rest1) :=
          match rest with
          | sg :: rest' =>
              if (sg =? 45)%N then (true, rest')
              else if (sg =? 43)%N then (false, rest')
              else (false, rest)
          | [] => (false, rest)
          end in
        match take_digits rest1 with
        | ([], _) => None
        | (ds, rest2) =>
            Some (if neg then (- digits_value ds)%Z else digits_value ds, rest2)
        end
      else Some (0%Z, s)
  | [] => Some (0%Z, s)
  end.

(** Optional fraction part: its digits. *)
Definition parse_fraction (s : js_string) : option (list N * js_string) :=
  match s with
  | c :: rest =>
      if (c =? 46)%N then
        match take_digits rest with
        | ([], _) => None
        | (ds, rest') => Some (ds, rest')
        end
      else Some ([], s)
  | [] => Some ([], s)
  end.

(** A number literal: mantissa, decimal exponent, rest of the input. *)
Definition parse_number (s : js_string) : option (Z * Z * js_string) :=
  let '(neg, s1) :=
    match s with
    | c :: rest => if (c =? 45)%N then (true, rest) else (false, s)
    | [] => (false, s)
    end in
  match take_digits s1 with
  | ([], _) => None
  | ((d :: more) as ints, s2) =>
      if (d =? 0)%N && negb (match more with [] => true | _ => false end) then None
      else
        match parse_fraction s2 with
        | None => None
        | Some (fr, s3) =>
            match parse_exponent s3 with
            | None => None
            | Some (ex, s4) =>
                let m := digits_value (ints ++ fr) in
                Some (if neg then (- m)%Z else m,
                      (ex - Z.of_nat (List.length fr))%Z, s4)
            end
        end
  end.

(** [expect lit s]: [s] without its prefix [lit]. *)
Fixpoint expect (lit s : js_string) : option js_string :=
  match lit, s with
  | [], _ => Some s
  | l :: lit', c :: s' => if (l =? c)%N then expect lit' s' else None
  | _ :: _, [] => None
  end.

Fixpoint parse_value (fuel : nat) (s : js_string) : option (jsval * js_string) :=
  match fuel with
  | O => None
  | S fuel' =>
      match skip_ws s with
      | [] => None
      | c :: rest =>
          if (c =? 123)%N then
            match skip_ws rest with
            | c' :: rest' =>
                if (c' =? 125)%N then Some (JObj [], rest')
                else
                  match parse_members fuel' rest [] with
                  | Some (o, r) => Some (JObj o, r)
                  | None => None
                  end
            | [] => None
            end
          else if (c =? 91)%N then
            match skip_ws rest with
            | c' :: rest' =>
                if (c' =? 93)%N then Some (JArr [], rest')
                else
                  match parse_elements fuel' rest with
                  | Some (l, r) => Some (JArr l, r)
                  | None => None
                  end
            | [] => None
            end
          else if (c =? 34)%N then
            match parse_chars rest with
            | Some (cs, r) => Some (JStr cs, r)
            | None => None
            end
          else if (c =? 116)%N then
            match expect (str "rue") rest with
            | Some r => Some (JBool true, r)
            | None => None
            end
          else if (c =? 102)%N then
            match expect (str "alse") rest with
            | Some r => Some (JBool false, r)
            | None => None
            end
          else if (c =? 110)%N then
            match expect (str "ull") rest with
            | Some r => Some (JNull, r)
            | None => None
            end
          else
            match parse_number (c :: rest) with
            | Some (m, e, r) => Some (JNum m e, r)
            | None => None
            end
      end
  end

(** The elements of a non-empty array, up to and including its bracket. *)
with parse_elements (fuel : nat) (s : js_string) : option (list jsval * js_string) :=
  match fuel with
  | O => None
  | S fuel' =>
      match parse_value fuel' s with
      | None => None
      | Some (v, rest) =>
          match skip_ws rest with
          | c :: rest' =>
              if (c =? 44)%N then
                match parse_elements fuel' rest' with
                | Some (vs, r) => Some (v :: vs, r)
                | None => None
                end
              else if (c =? 93)%N then Some ([v], rest')
              else None
          | [] => None
          end
      end
  end

(** The members of a non-empty object, up to and including its brace; a
    repeated key overwrites the earlier value. *)
with parse_members (fuel : nat) (s : js_string) (acc : js_object)
  : option (js_object * js_string) :=
  match fuel with
  | O => None
  | S fuel' =>
      match skip_ws s with
      | c :: rest =>
          if (c =? 34)%N then
            match parse_chars rest with
            | None => None
            | Some (k, rest1) =>
                match skip_ws rest1 with
                | c1 :: rest2 =>
                    if (c1 =? 58)%N then
                      match parse_value fuel' rest2 with
                      | None => None
                      | Some (v, rest3) =>
                          match skip_ws rest3 with
                          | c3 :: rest4 =>
                              if (c3 =? 44)%N then
                                parse_members fuel' rest4 (set k v acc)
                              else if (c3 =? 125)%N then
                                Some (set k v acc, rest4)
                              else None
                          | [] => None
                          end
                      end
                    else None
                | [] => None
                end
            end
          else None
      | [] => None
      end
  end.

(** [JSON.parse]; [None] is a thrown SyntaxError. *)
Definition parse (s : js_string) : option jsval :=
  match parse_value (2 * List.length s + 2) s with
  | Some (v, rest) =>
      match skip_ws rest with
      | [] => Some v
      | _ :: _ => None
      end
  | None => None
  end.

End JSON.

(** ** The controller and the browser around it *)

Import JSON.

Inductive ui_event : Type :=
| Notification (message type : js_string)
| ConsoleError (label : js_string).

(** The fields of the controller, the DOM state it reads and writes, and the
    browser services it calls. *)
Record World : Type := mkWorld {
  todos : list js_object;
  currentFilter : js_string;
  editingIndex : option Z;
  todoInput : js_string;
  editInput : js_string;
  rendered : list js_object;
  totalTasks : nat;
  completedTasks : nat;
  emptyStateShown : bool;
  modalShown : bool;
  effects : list ui_event;
  storage : option js_string;
  quota : N;
  clock : nat -> Z;
  clock_reads : nat;
  random36 : nat -> js_string;
  random_calls : nat;
  confirms : nat -> bool;
  confirm_calls : nat
}.

(** Field by field:
    - [todos]: [this.todos];
    - [currentFilter]: [this.currentFilter];
    - [editingIndex]: [this.editingIndex]; [None] is [null];
    - [todoInput]: [this.todoInput.value];
    - [editInput]: [this.editInput.value];
    - [rendered]: the tasks shown in the list element;
    - [totalTasks]: [this.totalTasks.textContent];
    - [completedTasks]: [this.completedTasks.textContent];
    - [emptyStateShown]: whether the empty-state block is displayed;
    - [modalShown]: whether the edit dialog is displayed;
    - [effects]: notifications and console errors, newest first;
    - [storage]: the slot of key [todos] in [localStorage];
    - [quota]: the longest value [setItem] accepts;
    - [clock]: successive readings of the clock, in milliseconds;
    - [clock_reads]: number of clock readings taken;
    - [random36]: successive [Math.random().toString(36)];
    - [random_calls]: number of calls of [Math.random];
    - [confirms]: successive answers to [confirm];
    - [confirm_calls]: number of calls of [confirm]. *)

Definition set_todos (x : list js_object) (w : World) : World :=
  {| todos := x; currentFilter := currentFilter w; editingIndex := editingIndex
     w; todoInput := todoInput w; editInput := editInput w; rendered :=
     rendered w; totalTasks := totalTasks w; completedTasks := completedTasks
     w; emptyStateShown := emptyStateShown w; modalShown := modalShown w;
     effects := effects w; storage := storage w; quota := quota w; clock :=
     clock w; clock_reads := clock_reads w; random36 := random36 w;
     random_calls := random_calls w; confirms := confirms w; confirm_calls :=
     confirm_calls w |}.

Definition set_currentFilter (x : js_string) (w : World) : World :=
  {| todos := todos w; currentFilter := x; editingIndex := editingIndex w;
     todoInput := todoInput w; editInput := editInput w; rendered := rendered
     w; totalTasks := totalTasks w; completedTasks := completedTasks w;
     emptyStateShown := emptyStateShown w; modalShown := modalShown w; effects
     := effects w; storage := storage w; quota := quota w; clock := clock w;
     clock_reads := clock_reads w; random36 := random36 w; random_calls :=
     random_calls w; confirms := confirms w; confirm_calls := confirm_calls w |}.

Definition set_editingIndex (x : option Z) (w : World) : World :=
  {| todos := todos w; currentFilter := currentFilter w; editingIndex := x;
     todoInput := todoInput w; editInput := editInput w; rendered := rendered
     w; totalTasks := totalTasks w; completedTasks := completedTasks w;
     emptyStateShown := emptyStateShown w; modalShown := modalShown w; effects
     := effects w; storage := storage w; quota := quota w; clock := clock w;
     clock_reads := clock_reads w; random36 := random36 w; random_calls :=
     random_calls w; confirms := confirms w; confirm_calls := confirm_calls w |}.

Definition set_todoInput (x : js_string) (w : World) : World :=
  {| todos := todos w; currentFilter := currentFilter w; editingIndex :=
     editingIndex w; todoInput := x; editInput := editInput w; rendered :=
     rendered w; totalTasks := totalTasks w; completedTasks := completedTasks
     w; emptyStateShown := emptyStateShown w; modalShown := modalShown w;
     effects := effects w; storage := storage w; quota := quota w; clock :=
     clock w; clock_reads := clock_reads w; random36 := random36 w;
     random_calls := random_calls w; confirms := confirms w; confirm_calls :=
     confirm_calls w |}.

Definition set_editInput (x : js_string) (w : World) : World :=
  {| todos := todos w; currentFilter := currentFilter w; editingIndex :=
     editingIndex w; todoInput := todoInput w; editInput := x; rendered :=
     rendered w; totalTasks := totalTasks w; completedTasks := completedTasks
     w; emptyStateShown := emptyStateShown w; modalShown := modalShown w;
     effects := effects w; storage := storage w; quota := quota w; clock :=
     clock w; clock_reads := clock_reads w; random36 := random36 w;
     random_calls := random_calls w; confirms := confirms w; confirm_calls :=
     confirm_calls w |}.

Definition set_rendered (x : list js_object) (w : World) : World :=
  {| todos := todos w; currentFilter := currentFilter w; editingIndex :=
     editingIndex w; todoInput := todoInput w; editInput := editInput w;
     rendered := x; totalTasks := totalTasks w; completedTasks :=
     completedTasks w; emptyStateShown := emptyStateShown w; modalShown :=
     modalShown w; effects := effects w; storage := storage w; quota := quota
     w; clock := clock w; clock_reads := clock_reads w; random36 := random36 w;
     random_calls := random_calls w; confirms := confirms w; confirm_calls :=
     confirm_calls w |}.

Definition set_totalTasks (x : nat) (w : World) : World :=
  {| todos := todos w; currentFilter := currentFilter w; editingIndex :=
     editingIndex w; todoInput := todoInput w; editInput := editInput w;
     rendered := rendered w; totalTasks := x; completedTasks := completedTasks
     w; emptyStateShown := emptyStateShown w; modalShown := modalShown w;
     effects := effects w; storage := storage w; quota := quota w; clock :=
     clock w; clock_reads := clock_reads w; random36 := random36 w;
     random_calls := random_calls w; confirms := confirms w; confirm_calls :=
     confirm_calls w |}.

Definition set_completedTasks (x : nat) (w : World) : World :=
  {| todos := todos w; currentFilter := currentFilter w; editingIndex :=
     editingIndex w; todoInput := todoInput w; editInput := editInput w;
     rendered := rendered w; totalTasks := totalTasks w; completedTasks := x;
     emptyStateShown := emptyStateShown w; modalShown := modalShown w; effects
     := effects w; storage := storage w; quota := quota w; clock := clock w;
     clock_reads := clock_reads w; random36 := random36 w; random_calls :=
     random_calls w; confirms := confirms w; confirm_calls := confirm_calls w |}.

Definition set_emptyStateShown (x : bool) (w : World) : World :=
  {| todos := todos w; currentFilter := currentFilter w; editingIndex :=
     editingIndex w; todoInput := todoInput w; editInput := editInput w;
     rendered := rendered w; totalTasks := totalTasks w; completedTasks :=
     completedTasks w; emptyStateShown := x; modalShown := modalShown w;
     effects := effects w; storage := storage w; quota := quota w; clock :=
     clock w; clock_reads := clock_reads w; random36 := random36 w;
     random_calls := random_calls w; confirms := confirms w; confirm_calls :=
     confirm_calls w |}.

Definition set_modalShown (x : bool) (w : World) : World :=
  {| todos := todos w; currentFilter := currentFilter w; editingIndex :=
     editingIndex w; todoInput := todoInput w; editInput := editInput w;
     rendered := rendered w; totalTasks := totalTasks w; completedTasks :=
     completedTasks w; emptyStateShown := emptyStateShown w; modalShown := x;
     effects := effects w; storage := storage w; quota := quota w; clock :=
     clock w; clock_reads := clock_reads w; random36 := random36 w;
     random_calls := random_calls w; confirms := confirms w; confirm_calls :=
     confirm_calls w |}.

Definition set_effects (x : list ui_event) (w : World) : World :=
  {| todos := todos w; currentFilter := currentFilter w; editingIndex :=
     editingIndex w; todoInput := todoInput w; editInput := editInput w;
     rendered := rendered w; totalTasks := totalTasks w; completedTasks :=
     completedTasks w; emptyStateShown := emptyStateShown w; modalShown :=
     modalShown w; effects := x; storage := storage w; quota := quota w; clock
     := clock w; clock_reads := clock_reads w; random36 := random36 w;
     random_calls := random_calls w; confirms := confirms w; confirm_calls :=
     confirm_calls w |}.

Definition set_storage (x : option js_string) (w : World) : World :=
  {| todos := todos w; currentFilter := currentFilter w; editingIndex :=
     editingIndex w; todoInput := todoInput w; editInput := editInput w;
     rendered := rendered w; totalTasks := totalTasks w; completedTasks :=
     completedTasks w; emptyStateShown := emptyStateShown w; modalShown :=
     modalShown w; effects := effects w; storage := x; quota := quota w; clock
     := clock w; clock_reads := clock_reads w; random36 := random36 w;
     random_calls := random_calls w; confirms := confirms w; confirm_calls :=
     confirm_calls w |}.

Definition set_quota (x : N) (w : World) : World :=
  {| todos := todos w; currentFilter := currentFilter w; editingIndex :=
     editingIndex w; todoInput := todoInput w; editInput := editInput w;
     rendered := rendered w; totalTasks := totalTasks w; completedTasks :=
     completedTasks w; emptyStateShown := emptyStateShown w; modalShown :=
     modalShown w; effects := effects w; storage := storage w; quota := x;
     clock := clock w; clock_reads := clock_reads w; random36 := random36 w;
     random_calls := random_calls w; confirms := confirms w; confirm_calls :=
     confirm_calls w |}.

Definition set_clock (x : nat -> Z) (w : World) : World :=
  {| todos := todos w; currentFilter := currentFilter w; editingIndex :=
     editingIndex w; todoInput := todoInput w; editInput := editInput w;
     rendered := rendered w; totalTasks := totalTasks w; completedTasks :=
     completedTasks w; emptyStateShown := emptyStateShown w; modalShown :=
     modalShown w; effects := effects w; storage := storage w; quota := quota
     w; clock := x; clock_reads := clock_reads w; random36 := random36 w;
     random_calls := random_calls w; confirms := confirms w; confirm_calls :=
     confirm_calls w |}.

Definition set_clock_reads (x : nat) (w : World) : World :=
  {| todos := todos w; currentFilter := currentFilter w; editingIndex :=
     editingIndex w; todoInput := todoInput w; editInput := editInput w;
     rendered := rendered w; totalTasks := totalTasks w; completedTasks :=
     completedTasks w; emptyStateShown := emptyStateShown w; modalShown :=
     modalShown w; effects := effects w; storage := storage w; quota := quota
     w; clock := clock w; clock_reads := x; random36 := random36 w;
     random_calls := random_calls w; confirms := confirms w; confirm_calls :=
     confirm_calls w |}.

Definition set_random36 (x : nat -> js_string) (w : World) : World :=
  {| todos := todos w; currentFilter := currentFilter w; editingIndex :=
     editingIndex w; todoInput := todoInput w; editInput := editInput w;
     rendered := rendered w; totalTasks := totalTasks w; completedTasks :=
     completedTasks w; emptyStateShown := emptyStateShown w; modalShown :=
     modalShown w; effects := effects w; storage := storage w; quota := quota
     w; clock := clock w; clock_reads := clock_reads w; random36 := x;
     random_calls := random_calls w; confirms := confirms w; confirm_calls :=
     confirm_calls w |}.

Definition set_random_calls (x : nat) (w : World) : World :=
  {| todos := todos w; currentFilter := currentFilter w; editingIndex :=
     editingIndex w; todoInput := todoInput w; editInput := editInput w;
     rendered := rendered w; totalTasks := totalTasks w; completedTasks :=
     completedTasks w; emptyStateShown := emptyStateShown w; modalShown :=
     modalShown w; effects := effects w; storage := storage w; quota := quota
     w; clock := clock w; clock_reads := clock_reads w; random36 := random36 w;
     random_calls := x; confirms := confirms w; confirm_calls := confirm_calls
     w |}.

Definition set_confirms (x : nat -> bool) (w : World) : World :=
  {| todos := todos w; currentFilter := currentFilter w; editingIndex :=
     editingIndex w; todoInput := todoInput w; editInput := editInput w;
     rendered := rendered w; totalTasks := totalTasks w; completedTasks :=
     completedTasks w; emptyStateShown := emptyStateShown w; modalShown :=
     modalShown w; effects := effects w; storage := storage w; quota := quota
     w; clock := clock w; clock_reads := clock_reads w; random36 := random36 w;
     random_calls := random_calls w; confirms := x; confirm_calls :=
     confirm_calls w |}.

Definition set_confirm_calls (x : nat) (w : World) : World :=
  {| todos := todos w; currentFilter := currentFilter w; editingIndex :=
     editingIndex w; todoInput := todoInput w; editInput := editInput w;
     rendered := rendered w; totalTasks := totalTasks w; completedTasks :=
     completedTasks w; emptyStateShown := emptyStateShown w; modalShown :=
     modalShown w; effects := effects w; storage := storage w; quota := quota
     w; clock := clock w; clock_reads := clock_reads w; random36 := random36 w;
     random_calls := random_calls w; confirms := confirms w; confirm_calls := x |}.

(** ** Statements with exceptions *)

Inductive js_error : Type :=
| Error (message : js_string)
| TypeError
| SyntaxError
| QuotaExceededError.

Inductive completion (A : Type) : Type :=
| Normal (a : A)
| Throw (e : js_error).

Arguments Normal {A} a.
Arguments Throw {A} e.

(** A statement runs in a world, completes normally or throws, and leaves
    the world as it made it up to that point. *)
Definition M (A : Type) : Type := World -> completion A * World.

Definition ret {A} (a : A) : M A := fun w => (Normal a, w).

Definition bind {A B} (m : M A) (k : A -> M B) : M B :=
  fun w =>
    match m w with
    | (Normal a, w') => k a w'
    | (Throw e, w') => (Throw e, w')
    end.

Definition throw {A} (e : js_error) : M A := fun w => (Throw e, w).

(** [try { m } catch (e) { h e }] *)
Definition try_catch {A} (m : M A) (h : js_error -> M A) : M A :=
  fun w =>
    match m w with
    | (Normal a, w') => (Normal a, w')
    | (Throw e, w') => h e w'
    end.

Definition gets {A} (f : World -> A) : M A := fun w => (Normal (f w), w).

Definition modify (f : World -> World) : M unit := fun w => (Normal tt, f w).

Definition exec {A} (m : M A) (w : World) : World := snd (m w).

Definition outcome {A} (m : M A) (w : World) : completion A := fst (m w).

Declare Scope js_scope.
Delimit Scope js_scope with js.
Notation "x <- m ;; k" := (bind m (fun x => k))
  (at level 61, m at next level, right associativity) : js_scope.
Notation "m ;; k" := (bind m (fun _ => k))
  (at level 61, right associativity) : js_scope.
Open Scope js_scope.

(** ** Browser services *)

(** One reading of the clock. *)
Definition read_clock : M Z :=
  fun w => (Normal (clock w (clock_reads w)), set_clock_reads (S (clock_reads w)) w).

(** [Date.now()] *)
Definition Date_now : M Z := read_clock.

Definition pad (width : nat) (n : Z) : js_string :=
  let ds := N_to_string 10 (Z.to_N n) in
  repeat 48%N (width - List.length ds) ++ ds.

(** Year, month and day of a day number counted from 1970-01-01. *)
Definition civil_from_days (days : Z) : Z * Z * Z :=
  let z := (days + 719468)%Z in
  let era := (z / 146097)%Z in
  let doe := (z mod 146097)%Z in
  let yoe := ((doe - doe / 1460 + doe / 36524 - doe / 146096) / 365)%Z in
  let doy := (doe - (365 * yoe + yoe / 4 - yoe / 100))%Z in
  let mp := ((5 * doy + 2) / 153)%Z in
  let d := (doy - (153 * mp + 2) / 5 + 1)%Z in
  let m := if (mp <? 10)%Z then (mp + 3)%Z else (mp - 9)%Z in
  let y := (yoe + era * 400 + (if (m <=? 2)%Z then 1 else 0))%Z in
  (y, m, d).

(** [Date.prototype.toISOString] of the instant [ms] milliseconds after the
    epoch. *)
Definition toISOString (ms : Z) : js_string :=
  let '(y, m, d) := civil_from_days (ms / 86400000) in
  let t := (ms mod 86400000)%Z in
  (if ((0 <=? y) && (y <=? 9999))%Z then pad 4 y
   else (if (y <? 0)%Z then str "-" else str "+") ++ pad 6 (Z.abs y))
  ++ str "-" ++ pad 2 m ++ str "-" ++ pad 2 d ++ str "T"
  ++ pad 2 (t / 3600000) ++ str ":" ++ pad 2 ((t / 60000) mod 60) ++ str ":"
  ++ pad 2 ((t / 1000) mod 60) ++ str "." ++ pad 3 (t mod 1000) ++ str "Z".

(** [new Date().toISOString()] *)
Definition new_Date_toISOString : M js_string :=
  now <- read_clock ;; ret (toISOString now).

(** [Math.random().toString(36)] *)
Definition Math_random_toString36 : M js_string :=
  fun w => (Normal (random36 w (random_calls w)),
            set_random_calls (S (random_calls w)) w).

(** [confirm(message)]; the message does not reach the state. *)
Definition confirm : M bool :=
  fun w => (Normal (confirms w (confirm_calls w)),
            set_confirm_calls (S (confirm_calls w)) w).

(** [localStorage.getItem("todos")]; [None] is [null]. *)
Definition localStorage_getItem : M (option js_string) := gets storage.

(** [localStorage.setItem("todos", value)] *)
Definition localStorage_setItem (value : js_string) : M unit :=
  fun w =>
    if (N.of_nat (List.length value) <=? quota w)%N
    then (Normal tt, set_storage (Some value) w)
    else (Throw QuotaExceededError, w).

(** [localStorage.removeItem("todos")] *)
Definition localStorage_removeItem : M unit := modify (set_storage None).

Definition console_error (label : js_string) : M unit :=
  modify (fun w => set_effects (ConsoleError label :: effects w) w).

(** ** Arrays of task objects *)

(** [Array.prototype.find], returning the place of the element found: the
    object it denotes is the one at that index of the array. *)
Fixpoint Array_find {A} (p : A -> bool) (l : list A) : option nat :=
  match l with
  | [] => None
  | x :: rest =>
      if p x then Some O
      else match Array_find p rest with Some i => Some (S i) | None => None end
  end.

(** In-place change of the object at index [i]. *)
Fixpoint update_nth {A} (i : nat) (f : A -> A) (l : list A) : list A :=
  match l, i with
  | [], _ => []
  | x :: rest, O => f x :: rest
  | x :: rest, S i' => x :: update_nth i' f rest
  end.

(** [t.id === id] *)
Definition has_id (id : jsval) (t : js_object) : bool :=
  strict_eq_opt (get (str "id") t) id.

(** [t.completed], as a condition *)
Definition is_completed (t : js_object) : bool :=
  truthy_opt (get (str "completed") t).

(** Read of property [k] of the object at index [i] of [this.todos]. *)
Definition read (i : nat) (k : js_string) : M (option jsval) :=
  gets (fun w => match nth_error (todos w) i with
                 | Some o => get k o
                 | None => None
                 end).

(** Write of property [k] of the object at index [i] of [this.todos]. *)
Definition assign (i : nat) (k : js_string) (v : jsval) : M unit :=
  modify (fun w => set_todos (update_nth i (JSON.set k v) (todos w)) w).

(** ** The methods of [TodoApp] *)

Definition showNotification (message type : js_string) : M unit :=
  modify (fun w => set_effects (Notification message type :: effects w) w).

Definition generateId : M js_string :=
  now <- Date_now ;;
  r <- Math_random_toString36 ;;
  ret (Z_to_string 36 now ++ substr 2 r).

Definition getFilteredTodos : M (list js_object) :=
  f <- gets currentFilter ;;
  if Str.eqb f (str "active") then
    gets (fun w => filter (fun t => negb (is_completed t)) (todos w))
  else if Str.eqb f (str "completed") then
    gets (fun w => filter is_completed (todos w))
  else gets todos.

Definition showEmptyState : M unit :=
  hasTodos <- gets (fun w => (0 <? List.length (todos w))%nat) ;;
  filtered <- getFilteredTodos ;;
  let hasFilteredTodos := (0 <? List.length filtered)%nat in
  if negb hasTodos then modify (set_emptyStateShown true)
  else if negb hasFilteredTodos then modify (set_emptyStateShown true)
  else modify (set_emptyStateShown false).

Definition renderTodos : M unit :=
  modify (set_rendered []) ;;
  filteredTodos <- getFilteredTodos ;;
  if (List.length filteredTodos =? 0)%nat then showEmptyState
  else modify (set_rendered filteredTodos).

Definition updateStats : M unit :=
  total <- gets (fun w => List.length (todos w)) ;;
  completed <- gets (fun w => List.length (filter is_completed (todos w))) ;;
  modify (set_totalTasks total) ;;
  modify (set_completedTasks completed).

Definition showModal : M unit := modify (set_modalShown true).

Definition closeModal : M unit :=
  modify (set_modalShown false) ;;
  modify (set_editingIndex None) ;;
  modify (set_editInput []).

Definition saveTodos : M unit :=
  try_catch
    (ts <- gets todos ;;
     localStorage_setItem (stringify (JArr (map JObj ts))))
    (fun _ =>
       console_error (str "Error saving to localStorage:") ;;
       throw (Error (str "Failed to save todos to localStorage"))).

(** [typeof v] *)
Definition typeof (v : jsval) : js_string :=
  match v with
  | JNull | JArr _ | JObj _ => str "object"
  | JBool _ => str "boolean"
  | JNum _ _ => str "number"
  | JStr _ => str "string"
  end.

(** [v.k] for [k] one of [id], [text]: only a plain object has it. *)
Definition prop (k : js_string) (v : jsval) : option jsval :=
  match v with JObj o => get k o | _ => None end.

(** The callback of the filter in [loadTodos]. *)
Definition is_valid_todo (todo : jsval) : bool :=
  truthy todo
  && Str.eqb (typeof todo) (str "object")
  && truthy_opt (prop (str "id") todo)
  && truthy_opt (prop (str "text") todo)
  && match prop (str "text") todo with
     | Some (JStr text) => (0 <? List.length (trim text))%nat
     | _ => false
     end.

(** The objects among the values that pass the filter (all of them are). *)
Definition valid_todos (l : list jsval) : list js_object :=
  flat_map (fun v => match v with JObj o => [o] | _ => [] end)
           (filter is_valid_todo l).

Definition loadTodos : M unit :=
  try_catch
    (stored <- localStorage_getItem ;;
     match stored with
     | Some ((_ :: _) as payload) =>
         match parse payload with
         | None => throw SyntaxError
         | Some (JArr l) => modify (set_todos (valid_todos l))
         | Some _ => throw TypeError
         end
     | _ => ret tt
     end)
    (fun _ =>
       console_error (str "Error loading from localStorage:") ;;
       localStorage_removeItem ;;
       modify (set_todos []) ;;
       throw (Error (str "Failed to load todos from localStorage"))).

Definition initializeApp : M unit :=
  try_catch
    (loadTodos ;; renderTodos ;; updateStats ;; showEmptyState)
    (fun _ =>
       console_error (str "Error initializing app:") ;;
       showNotification (str "Error loading todos. Please refresh the page.")
                        (str "error")).

(** [new TodoApp()] *)
Definition constructor : M unit :=
  modify (set_todos []) ;;
  modify (set_currentFilter (str "all")) ;;
  modify (set_editingIndex None) ;;
  initializeApp.

(** The object literal of [handleAddTodo]. *)
Definition new_todo (id text createdAt updatedAt : js_string) : js_object :=
  [ (str "id", JStr id);
    (str "text", JStr text);
    (str "completed", JBool false);
    (str "createdAt", JStr createdAt);
    (str "updatedAt", JStr updatedAt) ].

(** The [try] block of [handleAddTodo]. *)
Definition handleAddTodo_try (text : js_string) : M unit :=
  id <- generateId ;;
  createdAt <- new_Date_toISOString ;;
  updatedAt <- new_Date_toISOString ;;
  let todo := new_todo id text createdAt updatedAt in
  modify (fun w => set_todos (todo :: todos w) w) ;;
  saveTodos ;;
  renderTodos ;;
  updateStats ;;
  showEmptyState ;;
  modify (set_todoInput []) ;;
  showNotification (str "Task added successfully!") (str "success").

Definition handleAddTodo_catch (error : js_error) : M unit :=
  console_error (str "Error adding todo:") ;;
  showNotification (str "Error adding task. Please try again.") (str "error").

Definition handleAddTodo : M unit :=
  text <- gets (fun w => trim (todoInput w)) ;;
  match text with
  | [] => ret tt
  | _ :: _ => try_catch (handleAddTodo_try text) handleAddTodo_catch
  end.

Definition handleFilterChange (filter : js_string) : M unit :=
  current <- gets currentFilter ;;
  if Str.eqb filter current then ret tt
  else modify (set_currentFilter filter) ;; renderTodos.

(** The [try] block of [toggleTodo]. *)
Definition toggleTodo_try (id : jsval) : M unit :=
  found <- gets (fun w => Array_find (has_id id) (todos w)) ;;
  match found with
  | Some todo =>
      completed <- read todo (str "completed") ;;
      assign todo (str "completed") (JBool (negb (truthy_opt completed))) ;;
      now <- new_Date_toISOString ;;
      assign todo (str "updatedAt") (JStr now) ;;
      saveTodos ;;
      renderTodos ;;
      updateStats ;;
      completed' <- read todo (str "completed") ;;
      showNotification
        (if truthy_opt completed' then str "Task marked as completed!"
         else str "Task marked as active!")
        (str "success")
  | None => ret tt
  end.

Definition toggleTodo_catch (error : js_error) : M unit :=
  console_error (str "Error toggling todo:") ;;
  showNotification (str "Error updating task. Please try again.") (str "error").

Definition toggleTodo (id : jsval) : M unit :=
  try_catch (toggleTodo_try id) toggleTodo_catch.

(** What the [value] setter of an input stores: [null] becomes the empty
    string, anything else its ToString. *)
Definition dom_string (v : option jsval) : js_string :=
  match v with Some JNull => [] | _ => to_string_opt v end.

Definition editTodo (id : jsval) : M unit :=
  try_catch
    (found <- gets (fun w => Array_find (has_id id) (todos w)) ;;
     match found with
     | Some todo =>
         modify (set_editingIndex (Some (Z.of_nat todo))) ;;
         text <- read todo (str "text") ;;
         modify (set_editInput (dom_string text)) ;;
         showModal
     | None => ret tt
     end)
    (fun _ =>
       console_error (str "Error editing todo:") ;;
       showNotification (str "Error editing task. Please try again.")
                        (str "error")).

(** The [try] block of [saveEdit]. *)
Definition saveEdit_try : M unit :=
  newText <- gets (fun w => trim (editInput w)) ;;
  match newText with
  | [] => ret tt
  | _ :: _ =>
      editingIndex <- gets editingIndex ;;
      match editingIndex with
      | Some index =>
          if (0 <=? index)%Z then
            target <- gets (fun w => nth_error (todos w) (Z.to_nat index)) ;;
            match target with
            | None => throw TypeError
            | Some _ =>
                assign (Z.to_nat index) (str "text") (JStr newText) ;;
                now <- new_Date_toISOString ;;
                assign (Z.to_nat index) (str "updatedAt") (JStr now) ;;
                saveTodos ;;
                renderTodos ;;
                closeModal ;;
                showNotification (str "Task updated successfully!") (str "success")
            end
          else ret tt
      | None => ret tt
      end
  end.

Definition saveEdit_catch (error : js_error) : M unit :=
  console_error (str "Error saving edit:") ;;
  showNotification (str "Error updating task. Please try again.") (str "error").

Definition saveEdit : M unit := try_catch saveEdit_try saveEdit_catch.

(** The [try] block of [deleteTodo]. *)
Definition deleteTodo_try (id : jsval) : M unit :=
  found <- gets (fun w => Array_find (has_id id) (todos w)) ;;
  match found with
  | Some _ =>
      yes <- confirm ;;
      if yes then
        modify (fun w => set_todos (filter (fun t => negb (has_id id t)) (todos w)) w) ;;
        saveTodos ;;
        renderTodos ;;
        updateStats ;;
        showEmptyState ;;
        showNotification (str "Task deleted successfully!") (str "success")
      else ret tt
  | None => ret tt
  end.

Definition deleteTodo_catch (error : js_error) : M unit :=
  console_error (str "Error deleting todo:") ;;
  showNotification (str "Error deleting task. Please try again.") (str "error").

Definition deleteTodo (id : jsval) : M unit :=
  try_catch (deleteTodo_try id) deleteTodo_catch.

(** The text of the notification after [n] completed tasks were cleared. *)
Definition cleared_message (n : nat) : js_string :=
  N_to_string 10 (N.of_nat n) ++ str " completed task(s) cleared!".

(** The [try] block of [clearCompleted]. *)
Definition clearCompleted_try : M unit :=
  completedCount <- gets (fun w => List.length (filter is_completed (todos w))) ;;
  if (completedCount =? 0)%nat then
    showNotification (str "No completed tasks to clear.") (str "info")
  else
    yes <- confirm ;;
    if yes then
      modify (fun w => set_todos (filter (fun t => negb (is_completed t)) (todos w)) w) ;;
      saveTodos ;;
      renderTodos ;;
      updateStats ;;
      showEmptyState ;;
      showNotification (cleared_message completedCount) (str "success")
    else ret tt.

Definition clearCompleted_catch (error : js_error) : M unit :=
  console_error (str "Error clearing completed todos:") ;;
  showNotification (str "Error clearing completed tasks. Please try again.")
                   (str "error").

Definition clearCompleted : M unit :=
  try_catch clearCompleted_try clearCompleted_catch.

(** ** The operations of the task store, as the user drives them *)

(** Typing [text] into the input and submitting the form. *)
Definition add (text : js_string) : M unit :=
  modify (set_todoInput text) ;; handleAddTodo.

(** Opening the edit dialog on the task [id], replacing the text of its
    input by [newText] and saving. *)
Definition edit (id : jsval) (newText : js_string) : M unit :=
  editTodo id ;; modify (set_editInput newText) ;; saveEdit.

(** ** Tasks as the data model has them *)

Record Task : Type := mkTask {
  task_id : js_string;
  task_text : js_string;
  task_completed : bool;
  task_createdAt : js_string;
  task_updatedAt : js_string
}.

(** The object that carries a task. *)
Definition task_object (t : Task) : js_object :=
  [ (str "id", JStr (task_id t));
    (str "text", JStr (task_text t));
    (str "completed", JBool (task_completed t));
    (str "createdAt", JStr (task_createdAt t));
    (str "updatedAt", JStr (task_updatedAt t)) ].

(** The invariants of a task: a truthy id and a text that is not blank. *)
Definition task_valid (t : Task) : bool :=
  match task_id t with [] => false | _ => true end
  && (0 <? List.length (trim (task_text t)))%nat.

(** The collection as [saveTodos] serializes it. *)
Definition serialize (ts : list js_object) : js_string :=
  stringify (JArr (map JObj ts)).

(** ** What the methods leave behind *)

(** The world with what is on screen blanked: everything the store
    operations depend on. *)
Definition model (w : World) : World :=
  set_rendered [] (set_totalTasks 0 (set_completedTasks 0
    (set_emptyStateShown false (set_modalShown false w)))).

(** A statement that always completes normally and only redraws. *)
Definition redraws (m : M unit) : Prop :=
  forall w, exists w', m w = (Normal tt, w') /\ model w' = model w.

(** The storage has room for the collection as it stands. *)
Definition write_fits (w : World) : Prop :=
  (N.of_nat (List.length (serialize (todos w))) <= quota w)%N.

Definition save_failed (w : World) : World :=
  set_effects (ConsoleError (str "Error saving to localStorage:") :: effects w) w.

Definition persistence_error : js_error :=
  Error (str "Failed to save todos to localStorage").

(** The task that [handleAddTodo] builds in world [w] from the trimmed
    text. *)
Definition added_todo (text : js_string) (w : World) : js_object :=
  new_todo
    (Z_to_string 36 (clock w (clock_reads w)) ++ substr 2 (random36 w (random_calls w)))
    text
    (toISOString (clock w (S (clock_reads w))))
    (toISOString (clock w (S (S (clock_reads w))))).

(** The same task, as the data model has it. *)
Definition added_task (text : js_string) (w : World) : Task :=
  {| task_id := Z_to_string 36 (clock w (clock_reads w))
                ++ substr 2 (random36 w (random_calls w));
     task_text := text;
     task_completed := false;
     task_createdAt := toISOString (clock w (S (clock_reads w)));
     task_updatedAt := toISOString (clock w (S (S (clock_reads w)))) |}.

(** The world once the task is in the array, before saving. *)
Definition add_mutated (text : js_string) (w : World) : World :=
  set_todos (added_todo text w :: todos w)
    (set_clock_reads (S (S (S (clock_reads w))))
       (set_random_calls (S (random_calls w)) w)).

(** The world after a successful add, up to what is on screen. *)
Definition add_done (text : js_string) (w : World) : World :=
  let w1 := add_mutated text w in
  set_effects
    (Notification (str "Task added successfully!") (str "success") :: effects w)
    (set_todoInput [] (set_storage (Some (serialize (todos w1))) w1)).

(** [this.todos[i].k], as a condition. *)
Definition flag_at (i : nat) (k : js_string) (w : World) : bool :=
  truthy_opt (match nth_error (todos w) i with
              | Some o => get k o
              | None => None
              end).

(** The world once the task at index [i] is toggled, before saving. *)
Definition toggle_mutated (i : nat) (w : World) : World :=
  set_todos
    (update_nth i
       (JSON.set (str "updatedAt") (JStr (toISOString (clock w (clock_reads w)))))
       (update_nth i
          (JSON.set (str "completed") (JBool (negb (flag_at i (str "completed") w))))
          (todos w)))
    (set_clock_reads (S (clock_reads w)) w).

Definition toggle_notify (i : nat) (w : World) : World :=
  set_effects
    (Notification
       (if flag_at i (str "completed") w then str "Task marked as completed!"
        else str "Task marked as active!")
       (str "success") :: effects w) w.

(** The world after a successful toggle, up to what is on screen. *)
Definition toggle_done (i : nat) (w : World) : World :=
  let w1 := toggle_mutated i w in
  toggle_notify i (set_storage (Some (serialize (todos w1))) w1).

(** The world once the task at index [i] carries the new text, before
    saving. *)
Definition edit_mutated (newText : js_string) (i : nat) (w : World) : World :=
  set_todos
    (update_nth i
       (JSON.set (str "updatedAt") (JStr (toISOString (clock w (clock_reads w)))))
       (update_nth i (JSON.set (str "text") (JStr newText)) (todos w)))
    (set_clock_reads (S (clock_reads w)) w).

(** The world after a successful edit, up to what is on screen. *)
Definition edit_done (newText : js_string) (i : nat) (w : World) : World :=
  let w1 := edit_mutated newText i w in
  set_effects
    (Notification (str "Task updated successfully!") (str "success") :: effects w)
    (set_editInput [] (set_editingIndex None
       (set_storage (Some (serialize (todos w1))) w1))).

(** The world once the tasks with identifier [id] are filtered out, before
    saving. *)
Definition delete_mutated (id : jsval) (w : World) : World :=
  set_todos (filter (fun t => negb (has_id id t)) (todos w))
    (set_confirm_calls (S (confirm_calls w)) w).

(** The world after a confirmed delete, up to what is on screen. *)
Definition delete_done (id : jsval) (w : World) : World :=
  let w1 := delete_mutated id w in
  set_effects
    (Notification (str "Task deleted successfully!") (str "success") :: effects w)
    (set_storage (Some (serialize (todos w1))) w1).

Definition completed_count (w : World) : nat :=
  List.length (filter is_completed (todos w)).

(** The world once the completed tasks are filtered out, before saving. *)
Definition clear_mutated (w : World) : World :=
  set_todos (filter (fun t => negb (is_completed t)) (todos w))
    (set_confirm_calls (S (confirm_calls w)) w).

(** The world after a confirmed clear, up to what is on screen. *)
Definition clear_done (w : World) : World :=
  let w1 := clear_mutated w in
  set_effects
    (Notification (cleared_message (completed_count w)) (str "success") :: effects w)
    (set_storage (Some (serialize (todos w1))) w1).

Definition nothing_to_clear (w : World) : World :=
  set_effects
    (Notification (str "No completed tasks to clear.") (str "info") :: effects w) w.

(** What a [catch] block leaves: the error on the console and a
    notification of type [error]. *)
Definition reported (label message : js_string) (w : World) : World :=
  set_effects
    (Notification message (str "error") :: ConsoleError label :: effects w) w.

(** How a method that reached [saveTodos] ends: either the write went
    through and the method ran to its end, or [saveTodos] threw and the
    [catch] block reported it. *)
Definition ends (mutated done : World) (label message : js_string) (w' : World)
  : Prop :=
  (write_fits mutated /\ model w' = model done)
  \/ (~ write_fits mutated /\ w' = reported label message (save_failed mutated)).

Fixpoint starts_with (p s : js_string) : bool :=
  match p, s with
  | [], _ => true
  | x :: p', y :: s' => (x =? y)%N && starts_with p' s'
  | _ :: _, [] => false
  end.

(** The change [toggleTodo] makes to the task it found. *)
Definition toggled (now : js_string) (t : js_object) : js_object :=
  JSON.set (str "updatedAt") (JStr now)
    (JSON.set (str "completed") (JBool (negb (is_completed t))) t).

(** The change [saveEdit] makes to the task at [editingIndex]. *)
Definition edited (now newText : js_string) (t : js_object) : js_object :=
  JSON.set (str "updatedAt") (JStr now) (JSON.set (str "text") (JStr newText) t).

Definition load_error : js_error :=
  Error (str "Failed to load todos from localStorage").

(** The world after [loadTodos] has caught an error. *)
Definition load_failed (w : World) : World :=
  set_todos []
    (set_storage None
       (set_effects (ConsoleError (str "Error loading from localStorage:")
                     :: effects w) w)).

(** The world after [initializeApp] has caught the error of [loadTodos]. *)
Definition load_reported (w : World) : World :=
  reported (str "Error initializing app:")
           (str "Error loading todos. Please refresh the page.") (load_failed w).

(** The collection consists of tasks as the data model has them, each
    meeting its invariants. *)
Definition task_store (w : World) : Prop :=
  exists ts, todos w = map task_object ts /\ forallb task_valid ts = true.

(** ** The characters of a serialized task *)

(** The characters of a task object, followed by [rest]. *)
Definition task_chars (t : Task) (rest : js_string) : js_string :=
  123%N :: quote (str "id") ++ 58%N :: quote (task_id t) ++ 44%N ::
  quote (str "text") ++ 58%N :: quote (task_text t) ++ 44%N ::
  quote (str "completed") ++ 58%N :: stringify (JBool (task_completed t)) ++ 44%N ::
  quote (str "createdAt") ++ 58%N :: quote (task_createdAt t) ++ 44%N ::
  quote (str "updatedAt") ++ 58%N :: quote (task_updatedAt t) ++ 125%N :: rest.

(** The elements of a non-empty array of tasks and its closing bracket. *)
Fixpoint tasks_chars (t : Task) (ts : list Task) (rest : js_string) : js_string :=
  match ts with
  | [] => task_chars t (93%N :: rest)
  | t' :: ts' => task_chars t (44%N :: tasks_chars t' ts' rest)
  end.

(** ** Example worlds *)

(** A browser with an empty storage, an ample quota, a clock that advances
    by one millisecond per reading and a user who confirms every prompt. *)
Definition fresh_browser : World :=
  {| todos := []; currentFilter := str "all"; editingIndex := None;
     todoInput := []; editInput := [];
     rendered := []; totalTasks := 0; completedTasks := 0;
     emptyStateShown := true; modalShown := false; effects := [];
     storage := None; quota := 5000000;
     clock := fun n => (1700000000000 + Z.of_nat n)%Z; clock_reads := 0;
     random36 := fun _ => str "0.4fzyo82mvyr"; random_calls := 0;
     confirms := fun _ => true; confirm_calls := 0 |}.

Definition milk : Task :=
  {| task_id := str "loyw3v284fzyo82mvyr"; task_text := str "Buy milk";
     task_completed := false;
     task_createdAt := str "2023-11-14T22:13:20.001Z";
     task_updatedAt := str "2023-11-14T22:13:20.002Z" |}.

Definition bread : Task :=
  {| task_id := str "loyw3v2b4fzyo82mvyr"; task_text := str "Buy bread";
     task_completed := true;
     task_createdAt := str "2023-11-14T22:13:20.004Z";
     task_updatedAt := str "2023-11-14T22:13:20.009Z" |}.

(** A session with two tasks, the second one completed. *)
Definition two_tasks : World :=
  set_todos [task_object milk; task_object bread] fresh_browser.

(** A second submission in the millisecond of the first, with the same
    random number; the clock ticks before the second date is taken. *)
Definition same_instant : World :=
  {| todos :=
       [new_todo (str "loyw3v28abc") (str "Buy milk")
                 (str "2023-11-14T22:13:20.000Z") (str "2023-11-14T22:13:20.000Z")];
     currentFilter := str "all"; editingIndex := None;
     todoInput := str "Buy eggs"; editInput := [];
     rendered := []; totalTasks := 1; completedTasks := 0;
     emptyStateShown := false; modalShown := false; effects := [];
     storage := None; quota := 5000000;
     clock := fun n => if (n <=? 1)%nat then 1700000000000%Z else 1700000000001%Z;
     clock_reads := 0;
     random36 := fun _ => str "0.abc"; random_calls := 0;
     confirms := fun _ => true; confirm_calls := 0 |}.

(** The session with two tasks, saved, and a user who declines every
    prompt. *)
Definition declining_user : World :=
  set_confirms (fun _ => false)
    (set_storage (Some (serialize (todos two_tasks))) two_tasks).

(** A saved session in which two tasks carry the same identifier. *)
Definition twin_ids : World :=
  let ts := [task_object milk;
             task_object {| task_id := task_id milk; task_text := str "Buy eggs";
                            task_completed := false;
                            task_createdAt := task_createdAt bread;
                            task_updatedAt := task_updatedAt bread |}] in
  set_storage (Some (serialize ts)) (set_todos ts fresh_browser).

(** A session with two tasks, texts typed into both inputs, the edit dialog
    open on the first task, and a storage that accepts nothing. *)
Definition full_storage : World :=
  set_quota 0
    (set_editingIndex (Some 0%Z)
       (set_editInput (str "Buy oat milk")
          (set_todoInput (str "Buy eggs") two_tasks))).

(** ** Four claims as the specification words them *)

(** The claim as the specification words it: the identifier of the new task
    is carried by no stored task, its two dates are equal, and the
    collection is in the storage afterwards. *)
Definition add_as_specified (w : World) : Prop :=
  forall c cs, trim (todoInput w) = c :: cs ->
  exists task,
    todos (exec handleAddTodo w) = task_object task :: todos w
    /\ (forall t, In t (todos w) -> has_id (JStr (task_id task)) t = false)
    /\ task_completed task = false
    /\ task_createdAt task = task_updatedAt task
    /\ storage (exec handleAddTodo w)
       = Some (serialize (todos (exec handleAddTodo w))).

(** The claim as the specification words it: an absent identifier leaves
    the collection as it was, a present one takes exactly one task out and
    is carried by no task afterwards, and in both cases the collection is in
    the storage afterwards. *)
Definition delete_as_specified (w : World) (id : jsval) : Prop :=
  let w' := exec (deleteTodo id) w in
  (Array_find (has_id id) (todos w) = None -> todos w' = todos w)
  /\ (forall i, Array_find (has_id id) (todos w) = Some i ->
                S (List.length (todos w')) = List.length (todos w)
                /\ Array_find (has_id id) (todos w') = None)
  /\ storage w' = Some (serialize (todos w')).

(** The claim as the specification words it: afterwards the collection is
    the tasks that were not completed, in order, and an immediate second
    call finds nothing to clear. *)
Definition clear_as_specified (w : World) : Prop :=
  let w' := exec clearCompleted w in
  todos w' = filter (fun t => negb (is_completed t)) (todos w)
  /\ completed_count w' = 0%nat.

(** The claim as the specification words it: whenever the stored payload
    does not parse, [loadTodos] throws, empties the slot and the
    collection. *)
Definition load_as_specified (w : World) : Prop :=
  forall payload,
    storage w = Some payload -> parse payload = None ->
    outcome loadTodos w = Throw load_error
    /\ storage (exec loadTodos w) = None
    /\ todos (exec loadTodos w) = [].

(** * The screen, the dialog and sessions *)

(** ** What is on screen *)

(** The tasks [getFilteredTodos] returns in world [w]. *)
Definition filtered (w : World) : list js_object :=
  if Str.eqb (currentFilter w) (str "active") then
    filter (fun t => negb (is_completed t)) (todos w)
  else if Str.eqb (currentFilter w) (str "completed") then
    filter is_completed (todos w)
  else todos w.

(** Whether [showEmptyState] displays the empty-state block. *)
Definition empty_state (w : World) : bool :=
  negb (0 <? List.length (todos w))%nat || negb (0 <? List.length (filtered w))%nat.

(** The world as [renderTodos] leaves it. *)
Definition rendered_world (w : World) : World :=
  if (List.length (filtered w) =? 0)%nat
  then set_emptyStateShown (empty_state w) (set_rendered [] w)
  else set_rendered (filtered w) w.

(** The world as [updateStats] leaves it. *)
Definition counted_world (w : World) : World :=
  set_completedTasks (completed_count w) (set_totalTasks (List.length (todos w)) w).

(** The world as [showEmptyState] leaves it. *)
Definition empty_state_world (w : World) : World :=
  set_emptyStateShown (empty_state w) w.

(** The screen shows the store: the list holds the filtered tasks, the
    counters the sizes, and the empty-state block is displayed exactly when
    there is nothing to list. *)
Definition up_to_date (w : World) : Prop :=
  rendered w = filtered w
  /\ totalTasks w = List.length (todos w)
  /\ completedTasks w = completed_count w
  /\ emptyStateShown w = empty_state w.

(** The world after [renderTodos], [updateStats] and [showEmptyState] in
    a row. *)
Definition shown (w : World) : World :=
  empty_state_world (counted_world (rendered_world w)).

(** The world with one more notification. *)
Definition notified (message type : js_string) (w : World) : World :=
  set_effects (Notification message type :: effects w) w.

(** The storage after a write of the collection as it stands. *)
Definition saved (w : World) : World :=
  set_storage (Some (serialize (todos w))) w.

(** *** The methods when the write goes through *)

Definition add_shown (text : js_string) (w : World) : World :=
  notified (str "Task added successfully!") (str "success")
    (set_todoInput [] (shown (saved (add_mutated text w)))).

Definition toggle_shown (i : nat) (w : World) : World :=
  toggle_notify i (counted_world (rendered_world (saved (toggle_mutated i w)))).

Definition edit_shown (newText : js_string) (i : nat) (w : World) : World :=
  notified (str "Task updated successfully!") (str "success")
    (set_editInput [] (set_editingIndex None (set_modalShown false
       (rendered_world (saved (edit_mutated newText i w)))))).

Definition delete_shown (id : jsval) (w : World) : World :=
  notified (str "Task deleted successfully!") (str "success")
    (shown (saved (delete_mutated id w))).

Definition clear_shown (w : World) : World :=
  notified (cleared_message (completed_count w)) (str "success")
    (shown (saved (clear_mutated w))).

(** ** The screen after a method *)

(** The session with two tasks, the edit dialog open on the first one with
    a new text typed in. *)
Definition editing_first : World :=
  set_modalShown true
    (set_editingIndex (Some 0%Z) (set_editInput (str " Buy oat milk ") two_tasks)).

(** ** Changing the filter *)

(** A session with one active task, seen through the filter [completed]:
    nothing is listed and the empty-state block is displayed. *)
Definition nothing_completed : World :=
  set_currentFilter (str "completed") (set_todos [task_object milk] fresh_browser).

(** ** A write that fails *)

(** The world a failed add leaves. *)
Definition add_failed (text : js_string) (w : World) : World :=
  reported (str "Error adding todo:") (str "Error adding task. Please try again.")
    (save_failed (add_mutated text w)).

(** ** Loading, entry by entry *)

(** A payload with a number, a null, an array, an entry without text, an
    entry with a blank text, and two good entries, the first with a number
    for an identifier and a field of its own. *)
Definition mixed_payload : js_string :=
  str "[1,null,[],{'id':'a'},{'id':'b','text':'  '},{'id':7,'text':'x','n':1},{'id':'c','text':'y'}]".

(** Double quotes for the single ones of [mixed_payload]. *)
Definition requote (s : js_string) : js_string :=
  map (fun c => if (c =? 39)%N then 34%N else c) s.

(** ** Starting up *)

(** [handleKeyboardShortcuts(e)], from [e.ctrlKey], [e.metaKey] and
    [e.key].  Dispatching the [submit] event runs the listener that
    [bindEvents] put on the form, [handleAddTodo]. *)
Definition handleKeyboardShortcuts (ctrlKey metaKey : bool) (key : js_string)
  : M unit :=
  if ctrlKey || metaKey then
    if Str.eqb key (str "Enter") then handleAddTodo
    else if Str.eqb key (str "Escape") then closeModal
    else ret tt
  else ret tt.

(** The fields as the constructor initialises them. *)
Definition initial_fields (w : World) : World :=
  set_editingIndex None (set_currentFilter (str "all") (set_todos [] w)).

(** ** The edit dialog *)

(** [this.todos[i].text] *)
Definition text_at (i : nat) (w : World) : option jsval :=
  match nth_error (todos w) i with
  | Some o => get (str "text") o
  | None => None
  end.

(** The world [editTodo] leaves when it found the task at index [i]. *)
Definition edit_opened (i : nat) (w : World) : World :=
  set_modalShown true
    (set_editInput (dom_string (text_at i w))
       (set_editingIndex (Some (Z.of_nat i)) w)).

(** The world a failed [saveEdit] leaves. *)
Definition edit_failed (newText : js_string) (i : nat) (w : World) : World :=
  reported (str "Error saving edit:") (str "Error updating task. Please try again.")
    (save_failed (edit_mutated newText i w)).

(** The dialog opened on the first of two tasks, a third task added with
    the keyboard, and the edit saved. *)
Definition added_during_edit : World :=
  exec saveEdit
    (set_editInput (str "Buy oat milk")
       (exec (handleKeyboardShortcuts true false (str "Enter"))
          (exec (editTodo (JStr (task_id milk)))
             (set_todoInput (str "Buy eggs") two_tasks)))).

(** ** Sessions *)

(** What the user can do to the page: the events that [bindEvents] and
    [createTodoElement] listen to, and typing into the two inputs. *)
Inductive event : Type :=
| TypeTask (text : js_string)
| Submit
| FilterClick (filter : js_string)
| CheckboxChange (id : jsval)
| EditClick (id : jsval)
| TypeEdit (text : js_string)
| SaveClick
| CancelClick
| DeleteClick (id : jsval)
| ClearClick
| KeyDown (ctrlKey metaKey : bool) (key : js_string).

(** The listener of each event. *)
Definition listener (e : event) : M unit :=
  match e with
  | TypeTask text => modify (set_todoInput text)
  | Submit => handleAddTodo
  | FilterClick filter => handleFilterChange filter
  | CheckboxChange id => toggleTodo id
  | EditClick id => editTodo id
  | TypeEdit text => modify (set_editInput text)
  | SaveClick => saveEdit
  | CancelClick => closeModal
  | DeleteClick id => deleteTodo id
  | ClearClick => clearCompleted
  | KeyDown ctrlKey metaKey key => handleKeyboardShortcuts ctrlKey metaKey key
  end.

(** The events of a session, one after the other. *)
Fixpoint session (es : list event) : M unit :=
  match es with
  | [] => ret tt
  | e :: es' => listener e ;; session es'
  end.

(** The ways a listener changes the collection. *)
Inductive step_todos (w : World) : list js_object -> Prop :=
| step_same : step_todos w (todos w)
| step_added c cs :
    trim (todoInput w) = c :: cs ->
    step_todos w (added_todo (c :: cs) w :: todos w)
| step_toggled i now b :
    step_todos w
      (update_nth i (JSON.set (str "updatedAt") (JStr now))
         (update_nth i (JSON.set (str "completed") (JBool b)) (todos w)))
| step_edited i now c cs :
    trim (c :: cs) = c :: cs ->
    step_todos w (update_nth i (edited now (c :: cs)) (todos w))
| step_filtered q : step_todos w (filter q (todos w)).

(** Every task has a truthy [id] and a [text] that is a string and not
    blank. *)
Definition valid_store (w : World) : Prop :=
  forallb (fun o => is_valid_todo (JObj o)) (todos w) = true.

(** A session on the two tasks: an add, a toggle, an edit with the
    keyboard in between, a delete and a clear. *)
Definition busy_session : list event :=
  [ TypeTask (str "Buy eggs"); Submit;
    CheckboxChange (JStr (task_id milk));
    EditClick (JStr (task_id bread)); TypeEdit (str " Buy rye bread ");
    KeyDown true false (str "Enter"); SaveClick;
    FilterClick (str "active");
    DeleteClick (JStr (task_id milk)); ClearClick ].

(** The session with two tasks, some clock readings later. *)
Definition later : World := set_clock_reads 20 two_tasks.

(** ** Identifiers *)

(** The number that a sequence of digits denotes, most significant first. *)
Definition radix_value (radix : N) (ds : list N) : N :=
  fold_left (fun a d => a * radix + d)%N ds 0%N.

(** The clock readings whose base-36 form has eight digits: the instants
    from 1972-06-25 to 2059-05-25. *)
Definition eight_digits (t : Z) : Prop := (36 ^ 7 <= t < 36 ^ 8)%Z.

(** ** What a reload brings back *)

(** The two tasks in a storage that has just room for them. *)
Definition tight_storage : World :=
  set_quota (N.of_nat (List.length (serialize (todos two_tasks))))
    (set_storage (Some (serialize (todos two_tasks))) later).

(** ** Notifications *)

(** The types of the notifications among the effects. *)
Definition notification_types (l : list ui_event) : list js_string :=
  flat_map (fun e => match e with
                     | Notification _ type => [type]
                     | ConsoleError _ => []
                     end) l.

Definition getNotificationIcon (type : js_string) : js_string :=
  if Str.eqb type (str "success") then str "check-circle"
  else if Str.eqb type (str "error") then str "exclamation-circle"
  else if Str.eqb type (str "warning") then str "exclamation-triangle"
  else str "info-circle".

Definition getNotificationColor (type : js_string) : js_string :=
  if Str.eqb type (str "success") then str "#28a745"
  else if Str.eqb type (str "error") then str "#dc3545"
  else if Str.eqb type (str "warning") then str "#ffc107"
  else str "#17a2b8".

(** The types the methods pass to [showNotification]. *)
Definition used_type (type : js_string) : bool :=
  Str.eqb type (str "success") || Str.eqb type (str "error")
  || Str.eqb type (str "info").

(** At most [n] notifications, each of a type in use. *)
Definition notifies (n : nat) (new : list ui_event) : Prop :=
  (List.length (notification_types new) <= n)%nat
  /\ forallb used_type (notification_types new) = true.

(** What a method adds to the effects. *)
Definition adds_effects (n : nat) (w w' : World) : Prop :=
  exists new, effects w' = new ++ effects w /\ notifies n new.

(** * Properties *)

(** ** Strings *)

Lemma string_eqb_eq a b : Str.eqb a b = true <-> a = b.
Proof.
  revert b. induction a as [|x a IH]; intros [|y b]; simpl;
    try (split; [discriminate|discriminate]); [tauto|].
  rewrite andb_true_iff, N.eqb_eq, IH. split.
  - intros [-> ->]. reflexivity.
  - intros H. injection H as -> ->. auto.
Qed.

Lemma string_eqb_refl a : Str.eqb a a = true.
Proof. now apply string_eqb_eq. Qed.

Lemma string_eqb_neq a b : Str.eqb a b = false <-> a <> b.
Proof.
  rewrite <- string_eqb_eq. destruct (Str.eqb a b); split; congruence.
Qed.

(** ** Objects and arrays *)

Lemma get_set_same k v o : get k (JSON.set k v o) = Some v.
Proof.
  induction o as [|[k' v'] o IH]; simpl.
  - now rewrite string_eqb_refl.
  - destruct (Str.eqb k k') eqn:E; simpl; rewrite E; auto.
Qed.

Lemma get_set_other k k' v o : k <> k' -> get k' (JSON.set k v o) = get k' o.
Proof.
  intros Hne. induction o as [|[k0 v0] o IH]; simpl.
  - destruct (Str.eqb k' k) eqn:E; auto.
    apply string_eqb_eq in E. congruence.
  - destruct (Str.eqb k k0) eqn:E; simpl.
    + apply string_eqb_eq in E. subst k0.
      destruct (Str.eqb k' k) eqn:E'; auto.
      apply string_eqb_eq in E'. congruence.
    + now rewrite IH.
Qed.

Lemma Array_find_Some {A} (p : A -> bool) l i :
  Array_find p l = Some i ->
  exists x, nth_error l i = Some x /\ p x = true
            /\ forall j y, (j < i)%nat -> nth_error l j = Some y -> p y = false.
Proof.
  revert i. induction l as [|a l IH]; simpl; intros i H; [discriminate|].
  destruct (p a) eqn:Ea.
  - injection H as <-. exists a. repeat split; auto. intros j y Hj. lia.
  - destruct (Array_find p l) as [i'|] eqn:Ef; [|discriminate].
    injection H as <-. destruct (IH i' eq_refl) as (x & Hx & Hp & Hlt).
    exists x. repeat split; auto.
    intros [|j] y Hj; simpl; intros Hy.
    + injection Hy as Hy. congruence.
    + apply (Hlt j); auto. lia.
Qed.

Lemma Array_find_None {A} (p : A -> bool) l :
  Array_find p l = None <-> forall x, In x l -> p x = false.
Proof.
  induction l as [|a l IH]; simpl.
  - split; [intros _ x []|auto].
  - destruct (p a) eqn:Ea.
    + split; [discriminate|]. intros H.
      specialize (H a (or_introl eq_refl)). congruence.
    + destruct (Array_find p l) as [i|].
      * split; [discriminate|]. intros H.
        assert (Some i = None) by (apply IH; intros x Hx; apply H; now right).
        discriminate.
      * split; auto. intros _ x [<-|Hx]; auto. now apply IH.
Qed.

Lemma Array_find_filter_out {A} (p : A -> bool) l :
  Array_find p (filter (fun x => negb (p x)) l) = None.
Proof.
  apply Array_find_None. intros x Hx. apply filter_In in Hx.
  destruct Hx as [_ Hx]. now destruct (p x).
Qed.

Lemma length_update_nth {A} i (f : A -> A) l :
  List.length (update_nth i f l) = List.length l.
Proof.
  revert i. induction l as [|a l IH]; intros [|i]; simpl; auto.
Qed.

Lemma nth_error_update_nth_same {A} i (f : A -> A) l :
  nth_error (update_nth i f l) i = option_map f (nth_error l i).
Proof.
  revert i. induction l as [|a l IH]; intros [|i]; simpl; auto.
Qed.

Lemma nth_error_update_nth_other {A} i j (f : A -> A) l :
  i <> j -> nth_error (update_nth i f l) j = nth_error l j.
Proof.
  revert i j. induction l as [|a l IH]; intros [|i] [|j] H; simpl; auto.
  congruence.
Qed.

Lemma update_nth_compose {A} i (f g : A -> A) l :
  update_nth i g (update_nth i f l) = update_nth i (fun x => g (f x)) l.
Proof.
  revert i. induction l as [|a l IH]; intros [|i]; simpl; auto.
  now rewrite IH.
Qed.


Lemma map_update_nth_invariant {A B} (h : A -> B) i (f : A -> A) l :
  (forall x, h (f x) = h x) -> map h (update_nth i f l) = map h l.
Proof.
  intros Hf. revert i. induction l as [|a l IH]; intros [|i]; simpl; auto.
  - now rewrite Hf.
  - now rewrite IH.
Qed.


Lemma filter_filter_negb {A} (p : A -> bool) l :
  filter p (filter (fun x => negb (p x)) l) = [].
Proof.
  induction l as [|a l IH]; simpl; auto.
  destruct (p a) eqn:E; simpl; auto. now rewrite E.
Qed.

Lemma filter_length_split {A} (p : A -> bool) l :
  (List.length (filter p l) + List.length (filter (fun x => negb (p x)) l)
   = List.length l)%nat.
Proof.
  induction l as [|a l IH]; simpl; auto.
  destruct (p a); simpl; lia.
Qed.

(** ** The view functions leave the model alone *)

Ltac unfold_monad :=
  unfold exec, outcome, try_catch, bind, ret, throw, gets, modify.

Ltac split_ifs :=
  repeat match goal with
         | |- context [if ?c then _ else _] => destruct c
         end.

Lemma showEmptyState_redraws : redraws showEmptyState.
Proof.
  intros w. unfold showEmptyState, getFilteredTodos. unfold_monad.
  cbn. split_ifs; eexists; split; reflexivity.
Qed.

Lemma renderTodos_redraws : redraws renderTodos.
Proof.
  intros w. unfold renderTodos, showEmptyState, getFilteredTodos. unfold_monad.
  cbn. split_ifs; eexists; split; reflexivity.
Qed.

Lemma updateStats_redraws : redraws updateStats.
Proof.
  intros w. unfold updateStats. unfold_monad. cbn. eexists; split; reflexivity.
Qed.

Lemma showModal_redraws : redraws showModal.
Proof. intros w. eexists; split; reflexivity. Qed.

Lemma redraws_seq m1 m2 : redraws m1 -> redraws m2 -> redraws (m1 ;; m2).
Proof.
  intros H1 H2 w. unfold bind.
  destruct (H1 w) as (w1 & E1 & M1). rewrite E1.
  destruct (H2 w1) as (w2 & E2 & M2). exists w2. split; congruence.
Qed.

(** Running a redraw in the middle of a sequence. *)
Lemma bind_redraws {B} m (k : unit -> M B) w :
  redraws m -> exists w', bind m k w = k tt w' /\ model w' = model w.
Proof.
  intros H. destruct (H w) as (w' & E & Hm). exists w'. unfold bind.
  rewrite E. auto.
Qed.

Section ModelFields.
Variables w1 w2 : World.
Hypothesis same : model w1 = model w2.

Lemma model_todos : todos w1 = todos w2.
Proof. change (todos (model w1) = todos (model w2)). now rewrite same. Qed.

Lemma model_storage : storage w1 = storage w2.
Proof. change (storage (model w1) = storage (model w2)). now rewrite same. Qed.

Lemma model_effects : effects w1 = effects w2.
Proof. change (effects (model w1) = effects (model w2)). now rewrite same. Qed.

Lemma model_editingIndex : editingIndex w1 = editingIndex w2.
Proof. change (editingIndex (model w1) = editingIndex (model w2)). now rewrite same. Qed.

Lemma model_todoInput : todoInput w1 = todoInput w2.
Proof. change (todoInput (model w1) = todoInput (model w2)). now rewrite same. Qed.

Lemma model_editInput : editInput w1 = editInput w2.
Proof. change (editInput (model w1) = editInput (model w2)). now rewrite same. Qed.

Lemma model_currentFilter : currentFilter w1 = currentFilter w2.
Proof. change (currentFilter (model w1) = currentFilter (model w2)). now rewrite same. Qed.

Lemma model_clock_reads : clock_reads w1 = clock_reads w2.
Proof. change (clock_reads (model w1) = clock_reads (model w2)). now rewrite same. Qed.

Lemma model_clock : clock w1 = clock w2.
Proof. change (clock (model w1) = clock (model w2)). now rewrite same. Qed.

Lemma model_confirm_calls : confirm_calls w1 = confirm_calls w2.
Proof. change (confirm_calls (model w1) = confirm_calls (model w2)). now rewrite same. Qed.

(** Changing a field of the model on both sides. *)
Lemma model_congr (f : World -> World) :
  (forall w, model (f w) = f (model w)) -> model (f w1) = model (f w2).
Proof. intros Hf. now rewrite !Hf, same. Qed.
End ModelFields.

(** ** Saving *)

Lemma saveTodos_fits w :
  write_fits w ->
  saveTodos w = (Normal tt, set_storage (Some (serialize (todos w))) w).
Proof.
  unfold write_fits, saveTodos, localStorage_setItem, serialize. unfold_monad.
  intros H. apply N.leb_le in H. now rewrite H.
Qed.

Lemma saveTodos_fails w :
  ~ write_fits w -> saveTodos w = (Throw persistence_error, save_failed w).
Proof.
  unfold write_fits, saveTodos, localStorage_setItem, serialize, console_error.
  unfold_monad. intros H. apply N.leb_nle in H. now rewrite H.
Qed.

(** ** Running the methods *)

Ltac unfold_services :=
  unfold generateId, Date_now, new_Date_toISOString, read_clock,
    Math_random_toString36, confirm, showNotification, console_error,
    closeModal, read, assign.

(** Symbolic execution of one call of [saveTodos] or of a redraw. *)
Ltac step_redraw f H :=
  match goal with
  | |- context [f ?x] =>
      let w' := fresh "w" in
      let E := fresh "E" in
      let Hm := fresh "Hm" in
      destruct (H x) as (w' & E & Hm); rewrite E; clear E; cbv beta iota zeta
  end.

Ltac redraw_steps :=
  repeat first
    [ step_redraw renderTodos renderTodos_redraws
    | step_redraw updateStats updateStats_redraws
    | step_redraw showEmptyState showEmptyState_redraws
    | step_redraw showModal showModal_redraws ].

Ltac save_fits H :=
  match goal with
  | |- context [saveTodos ?x] => rewrite (saveTodos_fits x H); cbv beta iota zeta
  end.

Ltac save_fails H :=
  match goal with
  | |- context [saveTodos ?x] => rewrite (saveTodos_fails x H); cbv beta iota zeta
  end.

(** Closes [model w' = model w0] from the equations between models that
    the redraws left in the context. *)
Ltac model_chain :=
  repeat (etransitivity; [eassumption|]); reflexivity.

(** *** [handleAddTodo] *)

Lemma handleAddTodo_try_fits text w :
  write_fits (add_mutated text w) ->
  exists w', handleAddTodo_try text w = (Normal tt, w')
             /\ model w' = model (add_done text w).
Proof.
  intros Hfit. unfold handleAddTodo_try. unfold_services. unfold_monad.
  cbv beta iota zeta.
  save_fits Hfit. redraw_steps.
  eexists; split; [reflexivity|].
  assert (Hm' : model w2 = model (set_storage (Some (serialize (todos (add_mutated text w))))
                                    (add_mutated text w))) by model_chain.
  apply (model_congr _ _ Hm'
           (fun w => set_effects (Notification (str "Task added successfully!")
                                    (str "success") :: effects w)
                       (set_todoInput [] w))).
  reflexivity.
Qed.

Lemma handleAddTodo_try_fails text w :
  ~ write_fits (add_mutated text w) ->
  handleAddTodo_try text w = (Throw persistence_error, save_failed (add_mutated text w)).
Proof.
  intros Hfit. unfold handleAddTodo_try. unfold_services. unfold_monad.
  cbv beta iota zeta.
  save_fails Hfit. reflexivity.
Qed.

(** *** [toggleTodo] *)

Lemma toggleTodo_try_absent id w :
  Array_find (has_id id) (todos w) = None -> toggleTodo_try id w = (Normal tt, w).
Proof.
  intros H. unfold toggleTodo_try. unfold_monad. cbv beta iota zeta.
  now rewrite H.
Qed.

Lemma toggleTodo_try_fits id i w :
  Array_find (has_id id) (todos w) = Some i ->
  write_fits (toggle_mutated i w) ->
  exists w', toggleTodo_try id w = (Normal tt, w')
             /\ model w' = model (toggle_done i w).
Proof.
  intros Hfind Hfit. unfold toggleTodo_try. unfold_services. unfold_monad.
  cbv beta iota zeta. rewrite Hfind. cbv beta iota zeta.
  save_fits Hfit. redraw_steps.
  eexists; split; [reflexivity|].
  assert (Hm' : model w1 = model (set_storage (Some (serialize (todos (toggle_mutated i w))))
                                    (toggle_mutated i w))) by model_chain.
  apply (model_congr _ _ Hm' (toggle_notify i)). reflexivity.
Qed.

Lemma toggleTodo_try_fails id i w :
  Array_find (has_id id) (todos w) = Some i ->
  ~ write_fits (toggle_mutated i w) ->
  toggleTodo_try id w = (Throw persistence_error, save_failed (toggle_mutated i w)).
Proof.
  intros Hfind Hfit. unfold toggleTodo_try. unfold_services. unfold_monad.
  cbv beta iota zeta. rewrite Hfind. cbv beta iota zeta.
  save_fails Hfit. reflexivity.
Qed.

(** *** [saveEdit] *)

Lemma saveEdit_try_blank w : trim (editInput w) = [] -> saveEdit_try w = (Normal tt, w).
Proof.
  intros H. unfold saveEdit_try. unfold_monad. cbv beta iota zeta. now rewrite H.
Qed.

Section SaveEdit.
Variables (w : World) (c : N) (cs : js_string) (index : Z) (t : js_object).
Hypothesis text_ok : trim (editInput w) = c :: cs.
Hypothesis editing : editingIndex w = Some index.
Hypothesis index_ok : (0 <= index)%Z.
Hypothesis in_range : nth_error (todos w) (Z.to_nat index) = Some t.

Let w1 := edit_mutated (c :: cs) (Z.to_nat index) w.

Lemma saveEdit_try_fits :
  write_fits w1 ->
  exists w', saveEdit_try w = (Normal tt, w')
             /\ model w' = model (edit_done (c :: cs) (Z.to_nat index) w).
Proof.
  intros Hfit. unfold saveEdit_try. unfold_services. unfold_monad.
  cbv beta iota zeta. rewrite text_ok, editing.
  apply Z.leb_le in index_ok. rewrite index_ok, in_range. cbv beta iota zeta.
  save_fits Hfit. redraw_steps.
  eexists; split; [reflexivity|].
  assert (Hm' : model w0 = model (set_storage (Some (serialize (todos w1))) w1))
    by model_chain.
  apply (model_congr _ _ Hm'
           (fun w => set_effects
                       (Notification (str "Task updated successfully!")
                          (str "success") :: effects w)
                       (set_editInput [] (set_editingIndex None w)))).
  reflexivity.
Qed.

Lemma saveEdit_try_fails :
  ~ write_fits w1 ->
  saveEdit_try w = (Throw persistence_error, save_failed w1).
Proof.
  intros Hfit. unfold saveEdit_try. unfold_services. unfold_monad.
  cbv beta iota zeta. rewrite text_ok, editing.
  apply Z.leb_le in index_ok. rewrite index_ok, in_range. cbv beta iota zeta.
  save_fails Hfit. reflexivity.
Qed.
End SaveEdit.

(** *** [deleteTodo] *)

Lemma deleteTodo_try_absent id w :
  Array_find (has_id id) (todos w) = None -> deleteTodo_try id w = (Normal tt, w).
Proof.
  intros H. unfold deleteTodo_try. unfold_monad. cbv beta iota zeta.
  now rewrite H.
Qed.

Lemma deleteTodo_try_declined id i w :
  Array_find (has_id id) (todos w) = Some i ->
  confirms w (confirm_calls w) = false ->
  deleteTodo_try id w = (Normal tt, set_confirm_calls (S (confirm_calls w)) w).
Proof.
  intros H Hc. unfold deleteTodo_try. unfold_services. unfold_monad.
  cbv beta iota zeta. now rewrite H, Hc.
Qed.

Lemma deleteTodo_try_fits id i w :
  Array_find (has_id id) (todos w) = Some i ->
  confirms w (confirm_calls w) = true ->
  write_fits (delete_mutated id w) ->
  exists w', deleteTodo_try id w = (Normal tt, w')
             /\ model w' = model (delete_done id w).
Proof.
  intros H Hc Hfit. unfold deleteTodo_try. unfold_services. unfold_monad.
  cbv beta iota zeta. rewrite H, Hc. cbv beta iota zeta.
  save_fits Hfit. redraw_steps.
  eexists; split; [reflexivity|].
  assert (Hm' : model w2 = model (set_storage (Some (serialize (todos (delete_mutated id w))))
                                    (delete_mutated id w))) by model_chain.
  apply (model_congr _ _ Hm'
           (fun w => set_effects
                       (Notification (str "Task deleted successfully!")
                          (str "success") :: effects w) w)).
  reflexivity.
Qed.

Lemma deleteTodo_try_fails id i w :
  Array_find (has_id id) (todos w) = Some i ->
  confirms w (confirm_calls w) = true ->
  ~ write_fits (delete_mutated id w) ->
  deleteTodo_try id w = (Throw persistence_error, save_failed (delete_mutated id w)).
Proof.
  intros H Hc Hfit. unfold deleteTodo_try. unfold_services. unfold_monad.
  cbv beta iota zeta. rewrite H, Hc. cbv beta iota zeta.
  save_fails Hfit. reflexivity.
Qed.

(** *** [clearCompleted] *)

Lemma clearCompleted_try_none w :
  completed_count w = O -> clearCompleted_try w = (Normal tt, nothing_to_clear w).
Proof.
  unfold completed_count. intros H. unfold clearCompleted_try. unfold_services.
  unfold_monad. cbv beta iota zeta. now rewrite H.
Qed.

Lemma clearCompleted_try_declined w :
  completed_count w <> O ->
  confirms w (confirm_calls w) = false ->
  clearCompleted_try w = (Normal tt, set_confirm_calls (S (confirm_calls w)) w).
Proof.
  unfold completed_count. intros H Hc. unfold clearCompleted_try.
  unfold_services. unfold_monad. cbv beta iota zeta.
  apply Nat.eqb_neq in H. now rewrite H, Hc.
Qed.

Lemma clearCompleted_try_fits w :
  completed_count w <> O ->
  confirms w (confirm_calls w) = true ->
  write_fits (clear_mutated w) ->
  exists w', clearCompleted_try w = (Normal tt, w')
             /\ model w' = model (clear_done w).
Proof.
  unfold completed_count. intros H Hc Hfit. unfold clearCompleted_try.
  unfold_services. unfold_monad. cbv beta iota zeta.
  apply Nat.eqb_neq in H. rewrite H, Hc. cbv beta iota zeta.
  save_fits Hfit. redraw_steps.
  eexists; split; [reflexivity|].
  assert (Hm' : model w2 = model (set_storage (Some (serialize (todos (clear_mutated w))))
                                    (clear_mutated w))) by model_chain.
  apply (model_congr _ _ Hm'
           (fun w' => set_effects
                        (Notification (cleared_message (completed_count w))
                           (str "success") :: effects w') w')).
  reflexivity.
Qed.

Lemma clearCompleted_try_fails w :
  completed_count w <> O ->
  confirms w (confirm_calls w) = true ->
  ~ write_fits (clear_mutated w) ->
  clearCompleted_try w = (Throw persistence_error, save_failed (clear_mutated w)).
Proof.
  unfold completed_count. intros H Hc Hfit. unfold clearCompleted_try.
  unfold_services. unfold_monad. cbv beta iota zeta.
  apply Nat.eqb_neq in H. rewrite H, Hc. cbv beta iota zeta.
  save_fails Hfit. reflexivity.
Qed.

(** ** [JSON.parse] undoes [JSON.stringify] on task collections *)

Lemma hex_val_digit_char d : (d < 16)%N -> hex_val (digit_char d) = Some d.
Proof.
  intros H. unfold hex_val, digit_char.
  destruct (N.ltb_spec d 10) as [Hd|Hd].
  - replace ((48 <=? 48 + d) && (48 + d <=? 57))%N with true.
    + f_equal. lia.
    + symmetry. apply andb_true_iff. split; apply N.leb_le; lia.
  - replace ((48 <=? 87 + d) && (87 + d <=? 57))%N with false.
    + replace ((97 <=? 87 + d) && (87 + d <=? 102))%N with true.
      * f_equal. lia.
      * symmetry. apply andb_true_iff. split; apply N.leb_le; lia.
    + symmetry. apply andb_false_iff. right. apply N.leb_gt. lia.
Qed.

Lemma unhex4_hex4 c :
  (c < 65536)%N ->
  unhex4 (digit_char (c / 4096)) (digit_char ((c / 256) mod 16))
         (digit_char ((c / 16) mod 16)) (digit_char (c mod 16)) = Some c.
Proof.
  intros H. unfold unhex4.
  assert (H1 : (c / 4096 < 16)%N) by (apply N.Div0.div_lt_upper_bound; lia).
  assert (H2 : ((c / 256) mod 16 < 16)%N) by (apply N.mod_lt; lia).
  assert (H3 : ((c / 16) mod 16 < 16)%N) by (apply N.mod_lt; lia).
  assert (H4 : (c mod 16 < 16)%N) by (apply N.mod_lt; lia).
  rewrite !hex_val_digit_char by assumption. f_equal.
  pose proof (N.div_mod c 16). pose proof (N.div_mod (c / 16) 16).
  pose proof (N.div_mod (c / 256) 16).
  assert (E1 : (c / 16 / 16 = c / 256)%N) by (rewrite N.Div0.div_div; reflexivity).
  assert (E2 : (c / 256 / 16 = c / 4096)%N) by (rewrite N.Div0.div_div; reflexivity).
  assert (E3 : ((c / 4096) mod 16 = c / 4096)%N) by (apply N.mod_small; lia).
  lia.
Qed.

Lemma parse_chars_unicode_escape c s :
  (c < 65536)%N ->
  parse_chars (unicode_escape c ++ s) = cons_fst c (parse_chars s).
Proof.
  intros H. unfold unicode_escape, hex4. cbn [app parse_chars].
  change (92 =? 34)%N with false. change (92 =? 92)%N with true.
  change (117 =? 117)%N with true. cbv iota.
  now rewrite unhex4_hex4.
Qed.

Lemma surrogate_bound c :
  is_high_surrogate c || is_low_surrogate c = true -> (c < 65536)%N.
Proof.
  unfold is_high_surrogate, is_low_surrogate.
  rewrite orb_true_iff, !andb_true_iff, !N.leb_le. lia.
Qed.

Lemma parse_chars_literal c s :
  (c =? 34)%N = false -> (c =? 92)%N = false -> (c <? 32)%N = false ->
  parse_chars (c :: s) = cons_fst c (parse_chars s).
Proof. intros H1 H2 H3. cbn [parse_chars]. now rewrite H1, H2, H3. Qed.

Lemma parse_chars_escape_unit c s :
  parse_chars (escape_unit c ++ s) = cons_fst c (parse_chars s).
Proof.
  unfold escape_unit.
  destruct (c =? 8)%N eqn:E8; [apply N.eqb_eq in E8; subst; reflexivity|].
  destruct (c =? 9)%N eqn:E9; [apply N.eqb_eq in E9; subst; reflexivity|].
  destruct (c =? 10)%N eqn:E10; [apply N.eqb_eq in E10; subst; reflexivity|].
  destruct (c =? 12)%N eqn:E12; [apply N.eqb_eq in E12; subst; reflexivity|].
  destruct (c =? 13)%N eqn:E13; [apply N.eqb_eq in E13; subst; reflexivity|].
  destruct (c =? 34)%N eqn:E34; [apply N.eqb_eq in E34; subst; reflexivity|].
  destruct (c =? 92)%N eqn:E92; [apply N.eqb_eq in E92; subst; reflexivity|].
  destruct (c <? 32)%N eqn:E32; cbn [orb].
  - apply parse_chars_unicode_escape. apply N.ltb_lt in E32. lia.
  - destruct (is_high_surrogate c || is_low_surrogate c) eqn:Es.
    + apply parse_chars_unicode_escape. now apply surrogate_bound.
    + now apply parse_chars_literal.
Qed.

Lemma surrogate_literal c :
  is_high_surrogate c || is_low_surrogate c = true ->
  (c =? 34)%N = false /\ (c =? 92)%N = false /\ (c <? 32)%N = false.
Proof.
  unfold is_high_surrogate, is_low_surrogate.
  rewrite orb_true_iff, !andb_true_iff, !N.leb_le.
  intros H. repeat split; first [apply N.eqb_neq | apply N.ltb_ge]; lia.
Qed.

Lemma parse_chars_quote_chars_bounded n s rest :
  (List.length s <= n)%nat ->
  parse_chars (quote_chars s ++ 34%N :: rest) = Some (s, rest).
Proof.
  revert s. induction n as [|n IH]; intros [|c s] Hn; simpl in Hn; try lia;
    try reflexivity.
  cbn [quote_chars].
  destruct (is_high_surrogate c) eqn:Eh.
  - destruct s as [|d s'].
    + rewrite parse_chars_unicode_escape; [reflexivity|].
      apply surrogate_bound. now rewrite Eh.
    + destruct (is_low_surrogate d) eqn:El.
      * cbn [app].
        destruct (surrogate_literal c) as (A1 & A2 & A3); [now rewrite Eh|].
        destruct (surrogate_literal d) as (B1 & B2 & B3);
          [rewrite El; apply orb_true_r|].
        rewrite (parse_chars_literal c _ A1 A2 A3), (parse_chars_literal d _ B1 B2 B3).
        rewrite IH by (simpl in Hn; lia). reflexivity.
      * rewrite <- app_assoc, parse_chars_unicode_escape
          by (apply surrogate_bound; now rewrite Eh).
        rewrite IH by lia. reflexivity.
  - rewrite <- app_assoc, parse_chars_escape_unit. rewrite IH by lia. reflexivity.
Qed.

(** A quoted string reads back as the string it quotes. *)
Lemma parse_chars_quote_chars s rest :
  parse_chars (quote_chars s ++ 34%N :: rest) = Some (s, rest).
Proof. now apply (parse_chars_quote_chars_bounded (List.length s)). Qed.

Lemma quote_app s rest : quote s ++ rest = 34%N :: quote_chars s ++ 34%N :: rest.
Proof. unfold quote. cbn [app]. now rewrite <- app_assoc. Qed.

Lemma parse_value_quote f s rest :
  parse_value (S f) (quote s ++ rest) = Some (JStr s, rest).
Proof. rewrite quote_app. cbn. now rewrite parse_chars_quote_chars. Qed.

Lemma parse_value_bool f b rest :
  parse_value (S f) (stringify (JBool b) ++ rest) = Some (JBool b, rest).
Proof. destruct b; reflexivity. Qed.

(** One member followed by a comma. *)
Lemma parse_members_more f k body v rest acc :
  parse_value f body = Some (v, 44%N :: rest) ->
  parse_members (S f) (quote k ++ 58%N :: body) acc
  = parse_members f rest (JSON.set k v acc).
Proof.
  intros H. rewrite quote_app. cbn. rewrite parse_chars_quote_chars. cbn.
  rewrite H. reflexivity.
Qed.

(** The last member, followed by the closing brace. *)
Lemma parse_members_last f k body v rest acc :
  parse_value f body = Some (v, 125%N :: rest) ->
  parse_members (S f) (quote k ++ 58%N :: body) acc
  = Some (JSON.set k v acc, rest).
Proof.
  intros H. rewrite quote_app. cbn. rewrite parse_chars_quote_chars. cbn.
  rewrite H. reflexivity.
Qed.

Lemma parse_value_object f k s :
  parse_value (S f) (123%N :: quote k ++ s)
  = match parse_members f (quote k ++ s) [] with
    | Some (o, r) => Some (JObj o, r)
    | None => None
    end.
Proof. rewrite quote_app. reflexivity. Qed.

Lemma parse_elements_more f s v rest :
  parse_value f s = Some (v, 44%N :: rest) ->
  parse_elements (S f) s
  = match parse_elements f rest with
    | Some (vs, r) => Some (v :: vs, r)
    | None => None
    end.
Proof. intros H. cbn. rewrite H. reflexivity. Qed.

Lemma parse_elements_last f s v rest :
  parse_value f s = Some (v, 93%N :: rest) ->
  parse_elements (S f) s = Some ([v], rest).
Proof. intros H. cbn. rewrite H. reflexivity. Qed.

Lemma stringify_task t rest :
  stringify (JObj (task_object t)) ++ rest = task_chars t rest.
Proof.
  unfold task_chars, task_object. cbn [stringify map join].
  cbn [app]. repeat rewrite <- app_assoc. cbn [app].
  repeat (f_equal; repeat rewrite <- app_assoc; cbn [app]).
Qed.

Lemma parse_value_task n t rest :
  (8 <= n)%nat ->
  parse_value n (stringify (JObj (task_object t)) ++ rest)
  = Some (JObj (task_object t), rest).
Proof.
  intros Hn. replace n with (S (S (S (S (S (S (S (n - 7)))))))) by lia.
  rewrite stringify_task. unfold task_chars.
  rewrite parse_value_object.
  erewrite parse_members_more by apply parse_value_quote.
  erewrite parse_members_more by apply parse_value_quote.
  erewrite parse_members_more by apply parse_value_bool.
  erewrite parse_members_more by apply parse_value_quote.
  replace (n - 7)%nat with (S (n - 8)) by lia.
  erewrite parse_members_last by apply parse_value_quote.
  reflexivity.
Qed.

Lemma join_tasks t ts rest :
  join [44%N] (map stringify (map JObj (map task_object (t :: ts)))) ++ 93%N :: rest
  = tasks_chars t ts rest.
Proof.
  revert t. induction ts as [|t' ts IH]; intros t.
  - cbn [map join tasks_chars]. apply stringify_task.
  - change (join [44%N] (map stringify (map JObj (map task_object (t :: t' :: ts)))))
      with (stringify (JObj (task_object t)) ++ [44%N]
            ++ join [44%N] (map stringify (map JObj (map task_object (t' :: ts))))).
    rewrite <- !app_assoc. rewrite stringify_task. cbn [app tasks_chars].
    now rewrite IH.
Qed.

Lemma serialize_tasks t ts :
  serialize (map task_object (t :: ts)) = 91%N :: tasks_chars t ts [].
Proof.
  unfold serialize. cbn [stringify]. f_equal. apply join_tasks.
Qed.

Lemma parse_elements_tasks ts : forall t n rest,
  (List.length ts + 9 <= n)%nat ->
  parse_elements n (tasks_chars t ts rest)
  = Some (map JObj (map task_object (t :: ts)), rest).
Proof.
  induction ts as [|t' ts IH]; intros t n rest Hn;
    (destruct n as [|n]; [simpl in Hn; lia|]); cbn [tasks_chars].
  - erewrite parse_elements_last; [reflexivity|].
    rewrite <- stringify_task. apply parse_value_task. simpl in Hn. lia.
  - erewrite parse_elements_more;
      [|rewrite <- stringify_task; apply parse_value_task; simpl in Hn; lia].
    rewrite IH by (simpl in Hn; lia). reflexivity.
Qed.

Lemma length_task_chars t rest :
  (List.length rest + 4 <= List.length (task_chars t rest))%nat.
Proof.
  unfold task_chars.
  repeat (progress (cbn [List.length]; rewrite ?length_app)). lia.
Qed.

Lemma length_tasks_chars t ts rest :
  (List.length ts + 4 <= List.length (tasks_chars t ts rest))%nat.
Proof.
  revert t. induction ts as [|t' ts IH]; intros t; cbn [tasks_chars].
  - pose proof (length_task_chars t (93%N :: rest)). simpl in *. lia.
  - pose proof (length_task_chars t (44%N :: tasks_chars t' ts rest)).
    specialize (IH t'). simpl in *. lia.
Qed.

(** Parsing the serialized collection gives the collection back. *)
Lemma parse_serialize_tasks ts :
  parse (serialize (map task_object ts)) = Some (JArr (map JObj (map task_object ts))).
Proof.
  destruct ts as [|t ts]; [reflexivity|].
  rewrite serialize_tasks. unfold parse.
  pose proof (length_tasks_chars t ts []) as Hlen.
  set (n := (2 * List.length (91%N :: tasks_chars t ts []) + 2)%nat).
  assert (Hn : (List.length ts + 10 <= n)%nat) by (subst n; simpl; lia).
  destruct n as [|n]; [lia|].
  assert (E : parse_value (S n) (91%N :: tasks_chars t ts [])
              = match parse_elements n (tasks_chars t ts []) with
                | Some (l, r) => Some (JArr l, r)
                | None => None
                end).
  { destruct ts; reflexivity. }
  rewrite E, parse_elements_tasks by lia. reflexivity.
Qed.

(** The filter of [loadTodos] keeps the object of a task exactly when the
    task meets its invariants. *)
Lemma is_valid_todo_task t : is_valid_todo (JObj (task_object t)) = task_valid t.
Proof.
  unfold is_valid_todo, task_valid, task_object. cbn.
  destruct (task_id t); cbn; [reflexivity|].
  destruct (trim (task_text t)) eqn:E.
  - destruct (task_text t); cbn; rewrite ?andb_false_r; reflexivity.
  - destruct (task_text t); [discriminate E|]. reflexivity.
Qed.

Lemma valid_todos_tasks ts :
  forallb task_valid ts = true ->
  valid_todos (map JObj (map task_object ts)) = map task_object ts.
Proof.
  unfold valid_todos. induction ts as [|t ts IH]; [reflexivity|].
  cbn [forallb map filter]. rewrite andb_true_iff. intros [Ht Hts].
  rewrite is_valid_todo_task, Ht. cbn [flat_map app]. now rewrite IH.
Qed.

(** ** The methods as a whole *)

Lemma write_fits_dec w : write_fits w \/ ~ write_fits w.
Proof. unfold write_fits. lia. Qed.

Lemma handleAddTodo_blank w : trim (todoInput w) = [] -> handleAddTodo w = (Normal tt, w).
Proof.
  intros H. unfold handleAddTodo. unfold_monad. cbv beta iota zeta. now rewrite H.
Qed.

Lemma handleAddTodo_run w c cs :
  trim (todoInput w) = c :: cs ->
  exists w', handleAddTodo w = (Normal tt, w')
             /\ ends (add_mutated (c :: cs) w) (add_done (c :: cs) w)
                  (str "Error adding todo:")
                  (str "Error adding task. Please try again.") w'.
Proof.
  intros H. unfold handleAddTodo, ends.
  unfold bind at 1. unfold gets at 1. cbv beta iota zeta. rewrite H.
  unfold try_catch.
  destruct (write_fits_dec (add_mutated (c :: cs) w)) as [Hf|Hf].
  - destruct (@handleAddTodo_try_fits (c :: cs) w Hf) as (w' & E & Hm).
    rewrite E. exists w'. auto.
  - rewrite (@handleAddTodo_try_fails (c :: cs) w Hf).
    eexists; split; [reflexivity|]. right. split; [assumption|reflexivity].
Qed.

Lemma toggleTodo_absent id w :
  Array_find (has_id id) (todos w) = None -> toggleTodo id w = (Normal tt, w).
Proof.
  intros H. unfold toggleTodo, try_catch. now rewrite toggleTodo_try_absent.
Qed.

Lemma toggleTodo_run id i w :
  Array_find (has_id id) (todos w) = Some i ->
  exists w', toggleTodo id w = (Normal tt, w')
             /\ ends (toggle_mutated i w) (toggle_done i w)
                  (str "Error toggling todo:")
                  (str "Error updating task. Please try again.") w'.
Proof.
  intros H. unfold toggleTodo, ends, try_catch.
  destruct (write_fits_dec (toggle_mutated i w)) as [Hf|Hf].
  - destruct (@toggleTodo_try_fits id i w H Hf) as (w' & E & Hm).
    rewrite E. exists w'. auto.
  - rewrite (@toggleTodo_try_fails id i w H Hf).
    eexists; split; [reflexivity|]. right. split; [assumption|reflexivity].
Qed.

Lemma saveEdit_blank w : trim (editInput w) = [] -> saveEdit w = (Normal tt, w).
Proof.
  intros H. unfold saveEdit, try_catch. now rewrite saveEdit_try_blank.
Qed.

(** [saveEdit] with no index to edit. *)
Lemma saveEdit_no_index w :
  match editingIndex w with Some index => (index < 0)%Z | None => True end ->
  saveEdit w = (Normal tt, w).
Proof.
  intros H. unfold saveEdit, saveEdit_try. unfold_monad. cbv beta iota zeta.
  destruct (trim (editInput w)); [reflexivity|].
  destruct (editingIndex w) as [index|]; [|reflexivity].
  apply Z.leb_gt in H. now rewrite H.
Qed.

(** [saveEdit] with an index past the end of the array: the property write
    throws, the [catch] block reports it. *)
Lemma saveEdit_out_of_range w c cs index :
  trim (editInput w) = c :: cs ->
  editingIndex w = Some index -> (0 <= index)%Z ->
  nth_error (todos w) (Z.to_nat index) = None ->
  saveEdit w = (Normal tt, reported (str "Error saving edit:")
                             (str "Error updating task. Please try again.") w).
Proof.
  intros Ht He Hi Hn. unfold saveEdit, saveEdit_try. unfold_services.
  unfold_monad. cbv beta iota zeta. apply Z.leb_le in Hi.
  now rewrite Ht, He, Hi, Hn.
Qed.

Lemma saveEdit_run w c cs index t :
  trim (editInput w) = c :: cs ->
  editingIndex w = Some index -> (0 <= index)%Z ->
  nth_error (todos w) (Z.to_nat index) = Some t ->
  exists w', saveEdit w = (Normal tt, w')
             /\ ends (edit_mutated (c :: cs) (Z.to_nat index) w)
                  (edit_done (c :: cs) (Z.to_nat index) w)
                  (str "Error saving edit:")
                  (str "Error updating task. Please try again.") w'.
Proof.
  intros Ht He Hi Hn. unfold saveEdit, ends, try_catch.
  destruct (write_fits_dec (edit_mutated (c :: cs) (Z.to_nat index) w)) as [Hf|Hf].
  - destruct (@saveEdit_try_fits w c cs index t Ht He Hi Hn Hf) as (w' & E & Hm).
    rewrite E. exists w'. auto.
  - rewrite (@saveEdit_try_fails w c cs index t Ht He Hi Hn Hf).
    eexists; split; [reflexivity|]. right. split; [assumption|reflexivity].
Qed.

Lemma deleteTodo_absent id w :
  Array_find (has_id id) (todos w) = None -> deleteTodo id w = (Normal tt, w).
Proof.
  intros H. unfold deleteTodo, try_catch. now rewrite deleteTodo_try_absent.
Qed.

Lemma deleteTodo_declined id i w :
  Array_find (has_id id) (todos w) = Some i ->
  confirms w (confirm_calls w) = false ->
  deleteTodo id w = (Normal tt, set_confirm_calls (S (confirm_calls w)) w).
Proof.
  intros H Hc. unfold deleteTodo, try_catch.
  now rewrite (@deleteTodo_try_declined id i w H Hc).
Qed.

Lemma deleteTodo_run id i w :
  Array_find (has_id id) (todos w) = Some i ->
  confirms w (confirm_calls w) = true ->
  exists w', deleteTodo id w = (Normal tt, w')
             /\ ends (delete_mutated id w) (delete_done id w)
                  (str "Error deleting todo:")
                  (str "Error deleting task. Please try again.") w'.
Proof.
  intros H Hc. unfold deleteTodo, ends, try_catch.
  destruct (write_fits_dec (delete_mutated id w)) as [Hf|Hf].
  - destruct (@deleteTodo_try_fits id i w H Hc Hf) as (w' & E & Hm).
    rewrite E. exists w'. auto.
  - rewrite (@deleteTodo_try_fails id i w H Hc Hf).
    eexists; split; [reflexivity|]. right. split; [assumption|reflexivity].
Qed.

Lemma clearCompleted_none w :
  completed_count w = O -> clearCompleted w = (Normal tt, nothing_to_clear w).
Proof.
  intros H. unfold clearCompleted, try_catch. now rewrite clearCompleted_try_none.
Qed.

Lemma clearCompleted_declined w :
  completed_count w <> O ->
  confirms w (confirm_calls w) = false ->
  clearCompleted w = (Normal tt, set_confirm_calls (S (confirm_calls w)) w).
Proof.
  intros H Hc. unfold clearCompleted, try_catch.
  now rewrite (@clearCompleted_try_declined w H Hc).
Qed.

Lemma clearCompleted_run w :
  completed_count w <> O ->
  confirms w (confirm_calls w) = true ->
  exists w', clearCompleted w = (Normal tt, w')
             /\ ends (clear_mutated w) (clear_done w)
                  (str "Error clearing completed todos:")
                  (str "Error clearing completed tasks. Please try again.") w'.
Proof.
  intros H Hc. unfold clearCompleted, ends, try_catch.
  destruct (write_fits_dec (clear_mutated w)) as [Hf|Hf].
  - destruct (@clearCompleted_try_fits w H Hc Hf) as (w' & E & Hm).
    rewrite E. exists w'. auto.
  - rewrite (@clearCompleted_try_fails w H Hc Hf).
    eexists; split; [reflexivity|]. right. split; [assumption|reflexivity].
Qed.

(** Whichever way a method ends, a field that neither the redraws nor the
    [catch] block touch is as the mutation left it. *)
Lemma ends_field {A} (f : World -> A) mutated done label message w' :
  (forall w, f (model w) = f w) ->
  (forall w l m, f (reported l m (save_failed w)) = f w) ->
  f done = f mutated ->
  ends mutated done label message w' -> f w' = f mutated.
Proof.
  intros Hmodel Hcatch Hd [[_ Hm]|[_ ->]]; [|apply Hcatch].
  rewrite <- (Hmodel w'), Hm, Hmodel. exact Hd.
Qed.

Lemma ends_todos mutated done label message w' :
  todos done = todos mutated ->
  ends mutated done label message w' -> todos w' = todos mutated.
Proof. intros Hd. now apply ends_field. Qed.

Lemma exec_eq {A} (m : M A) w r w' : m w = (r, w') -> exec m w = w'.
Proof. unfold exec. now intros ->. Qed.

Lemma outcome_eq {A} (m : M A) w r w' : m w = (r, w') -> outcome m w = r.
Proof. unfold outcome. now intros ->. Qed.

Lemma added_todo_task text w : added_todo text w = task_object (added_task text w).
Proof. reflexivity. Qed.

(** What [handleAddTodo] leaves in the array, whether or not the write went
    through. *)
Lemma handleAddTodo_adds w c cs :
  trim (todoInput w) = c :: cs ->
  outcome handleAddTodo w = Normal tt
  /\ todos (exec handleAddTodo w) = added_todo (c :: cs) w :: todos w
  /\ (write_fits (add_mutated (c :: cs) w) ->
      storage (exec handleAddTodo w)
      = Some (serialize (added_todo (c :: cs) w :: todos w))).
Proof.
  intros Ht. destruct (handleAddTodo_run w c cs Ht) as (w1 & E & Hend).
  rewrite (exec_eq _ _ _ _ E), (outcome_eq _ _ _ _ E).
  split; [reflexivity|]. split.
  - apply (ends_field todos) in Hend; [exact Hend|reflexivity..].
  - intros Hfit. destruct Hend as [[_ Hm]|[Hno _]]; [|contradiction].
    rewrite (model_storage _ _ Hm). reflexivity.
Qed.

Lemma add_adds w text c cs :
  trim text = c :: cs ->
  outcome (add text) w = Normal tt
  /\ todos (exec (add text) w) = added_todo (c :: cs) w :: todos w.
Proof.
  intros Ht.
  destruct (handleAddTodo_adds (set_todoInput text w) c cs Ht) as (Ho & Hs & _).
  split; [exact Ho|exact Hs].
Qed.

(** ** Empty input *)

(** C8.  When the text is empty or only white space, [handleAddTodo] and
    [saveEdit] return at once: the world afterwards is the world before
    (no task created or changed, nothing written, nothing reported), and
    the call completes normally.  The same holds of the collection, the
    storage and the notifications when the user goes through [add] or
    [edit]. *)
Theorem blank_text_is_no_op (w : World) :
  (trim (todoInput w) = [] -> handleAddTodo w = (Normal tt, w))
  /\ (trim (editInput w) = [] -> saveEdit w = (Normal tt, w))
  /\ (forall text, trim text = [] ->
        outcome (add text) w = Normal tt
        /\ todos (exec (add text) w) = todos w
        /\ storage (exec (add text) w) = storage w
        /\ effects (exec (add text) w) = effects w)
  /\ (forall id text, trim text = [] ->
        outcome (edit id text) w = Normal tt
        /\ todos (exec (edit id text) w) = todos w
        /\ storage (exec (edit id text) w) = storage w
        /\ effects (exec (edit id text) w) = effects w).
Proof.
  split; [apply handleAddTodo_blank|]. split; [apply saveEdit_blank|]. split.
  - intros text H. unfold add, exec, outcome, bind, modify.
    rewrite handleAddTodo_blank by exact H. repeat split.
  - intros id text H. unfold edit, editTodo, exec, outcome.
    unfold_services. unfold_monad. cbv beta iota zeta.
    destruct (Array_find (has_id id) (todos w)) as [i|];
      cbv beta iota zeta.
    + destruct (showModal_redraws
                  (set_editInput
                     (dom_string
                        match nth_error (todos (set_editingIndex (Some (Z.of_nat i)) w)) i with
                        | Some o => get (str "text") o
                        | None => None
                        end) (set_editingIndex (Some (Z.of_nat i)) w)))
        as (w' & E & Hm).
      rewrite E. cbv beta iota zeta.
      rewrite saveEdit_blank by exact H.
      cbn [fst snd]. repeat split.
      * change (todos (model (set_editInput text w')) = todos w).
        change (model (set_editInput text w')) with (set_editInput text (model w')).
        rewrite Hm. reflexivity.
      * change (storage (model (set_editInput text w')) = storage w).
        change (model (set_editInput text w')) with (set_editInput text (model w')).
        rewrite Hm. reflexivity.
      * change (effects (model (set_editInput text w')) = effects w).
        change (model (set_editInput text w')) with (set_editInput text (model w')).
        rewrite Hm. reflexivity.
    + rewrite saveEdit_blank by exact H. repeat split.
Qed.

(** The no-op, at the blank text of three spaces in both inputs. *)
Lemma blank_text_is_no_op_witness :
  handleAddTodo (set_todoInput (str "   ") two_tasks)
  = (Normal tt, set_todoInput (str "   ") two_tasks)
  /\ saveEdit (set_editInput (str "   ") two_tasks)
     = (Normal tt, set_editInput (str "   ") two_tasks)
  /\ todos (exec (add (str "   ")) two_tasks) = todos two_tasks
  /\ todos (exec (edit (JStr (task_id milk)) (str "   ")) two_tasks) = todos two_tasks.
Proof.
  split; [|split; [|split]].
  - apply (proj1 (blank_text_is_no_op (set_todoInput (str "   ") two_tasks))).
    reflexivity.
  - apply (proj1 (proj2 (blank_text_is_no_op (set_editInput (str "   ") two_tasks)))).
    reflexivity.
  - apply (proj1 (proj2 (proj2 (blank_text_is_no_op two_tasks))) (str "   ")).
    reflexivity.
  - apply (proj2 (proj2 (proj2 (blank_text_is_no_op two_tasks)))
             (JStr (task_id milk)) (str "   ")).
    reflexivity.
Defined.

(** ** The filtered view *)

Lemma is_completed_task t : is_completed (task_object t) = task_completed t.
Proof. unfold is_completed, task_object. cbn. reflexivity. Qed.

Lemma filter_map_tasks (p : Task -> bool) (q : js_object -> bool) ts :
  (forall t, q (task_object t) = p t) ->
  filter q (map task_object ts) = map task_object (filter p ts).
Proof.
  intros H. induction ts as [|t ts IH]; [reflexivity|].
  cbn [map filter]. rewrite H. destruct (p t); cbn [map]; now rewrite IH.
Qed.

(** C7.  [getFilteredTodos] changes nothing in the world and returns, for the
    filter [all], the array itself; for [active], the tasks whose
    [completed] is falsy; for [completed], those whose [completed] is truthy;
    in each case in the order of the array.  A task is in the [active]
    (resp. [completed]) view exactly when it is in the array and is not
    (resp. is) completed.  On a collection of tasks as the data model has
    them, these are the tasks with [completed = false] and with
    [completed = true]. *)
Theorem filtered_view (w : World) :
  getFilteredTodos (set_currentFilter (str "all") w)
  = (Normal (todos w), set_currentFilter (str "all") w)
  /\ getFilteredTodos (set_currentFilter (str "active") w)
     = (Normal (filter (fun t => negb (is_completed t)) (todos w)),
        set_currentFilter (str "active") w)
  /\ getFilteredTodos (set_currentFilter (str "completed") w)
     = (Normal (filter is_completed (todos w)),
        set_currentFilter (str "completed") w)
  /\ (forall t, In t (filter (fun t => negb (is_completed t)) (todos w))
                <-> In t (todos w) /\ is_completed t = false)
  /\ (forall t, In t (filter is_completed (todos w))
                <-> In t (todos w) /\ is_completed t = true)
  /\ (forall ts, todos w = map task_object ts ->
        filter (fun t => negb (is_completed t)) (todos w)
        = map task_object (filter (fun t => negb (task_completed t)) ts)
        /\ filter is_completed (todos w)
           = map task_object (filter task_completed ts)).
Proof.
  split; [reflexivity|]. split; [reflexivity|]. split; [reflexivity|].
  split; [|split].
  - intros t. rewrite filter_In. destruct (is_completed t); simpl; intuition congruence.
  - intros t. rewrite filter_In. tauto.
  - intros ts Hts. rewrite Hts. split; apply filter_map_tasks; intros t;
      now rewrite is_completed_task.
Qed.

(** The three views of the session with two tasks. *)
Lemma filtered_view_witness :
  todos two_tasks = map task_object [milk; bread]
  /\ outcome getFilteredTodos (set_currentFilter (str "active") two_tasks)
     = Normal (map task_object [milk])
  /\ outcome getFilteredTodos (set_currentFilter (str "completed") two_tasks)
     = Normal (map task_object [bread]).
Proof.
  split; [reflexivity|].
  destruct (filtered_view two_tasks) as (_ & Ha & Hc & _ & _ & Ht).
  destruct (Ht [milk; bread] eq_refl) as [Ha' Hc'].
  unfold outcome. rewrite Ha, Hc. cbn [fst]. rewrite Ha', Hc'.
  split; reflexivity.
Defined.

(** ** Adding a task *)

Lemma starts_with_app p r : starts_with p (p ++ r) = true.
Proof.
  induction p as [|x p IH]; [reflexivity|].
  cbn [app starts_with]. now rewrite N.eqb_refl, IH.
Qed.

Lemma digits_from_nonempty radix fuel n acc :
  (fuel <> 0)%nat \/ acc <> [] -> digits_from radix fuel n acc <> [].
Proof.
  revert n acc. induction fuel as [|fuel IH]; intros n acc H; cbn [digits_from].
  - destruct H as [H|H]; [congruence|assumption].
  - destruct (n <? radix)%N; [discriminate|]. apply IH. right. discriminate.
Qed.

Lemma Z_to_string_nonempty radix z : Z_to_string radix z <> [].
Proof.
  assert (H : forall n, N_to_string radix n <> []).
  { intros n E. unfold N_to_string in E. apply map_eq_nil in E.
    revert E. apply digits_from_nonempty. left. discriminate. }
  destruct z; cbn [Z_to_string]; auto. discriminate.
Qed.

(** An identifier that starts with a stamp no stored identifier starts with
    is not in the store. *)
Lemma fresh_by_stamp stamp suffix (ts : list js_object) :
  (forall t s, In t ts -> get (str "id") t = Some (JStr s) ->
               starts_with stamp s = false) ->
  forall t, In t ts -> has_id (JStr (stamp ++ suffix)) t = false.
Proof.
  intros H t Ht. unfold has_id, strict_eq_opt.
  destruct (get (str "id") t) as [v|] eqn:E; [|reflexivity].
  destruct v; try reflexivity. cbn [strict_eq].
  apply string_eqb_neq. intros ->.
  specialize (H t _ Ht E). now rewrite starts_with_app in H.
Qed.

(** C1, as amended.  When the trimmed text is not empty, [handleAddTodo]
    completes normally and puts one new task at the front of the array.
    The task carries the trimmed text and [completed = false]; its
    identifier is the clock reading in base 36 followed by the random
    suffix, a non-empty string, which no stored task carries provided no
    stored identifier starts with that clock reading; its two dates come
    from the next two clock readings and are equal when these are; and the
    storage holds the serialized collection afterwards when it has room for
    it. *)
Theorem add_inserts_task (w : World) (c : N) (cs : js_string) :
  trim (todoInput w) = c :: cs ->
  let stamp := Z_to_string 36 (clock w (clock_reads w)) in
  let id := stamp ++ substr 2 (random36 w (random_calls w)) in
  let created := toISOString (clock w (S (clock_reads w))) in
  let updated := toISOString (clock w (S (S (clock_reads w)))) in
  let task :=
    {| task_id := id; task_text := c :: cs; task_completed := false;
       task_createdAt := created; task_updatedAt := updated |} in
  let w' := exec handleAddTodo w in
  outcome handleAddTodo w = Normal tt
  /\ todos w' = task_object task :: todos w
  /\ List.length (todos w') = S (List.length (todos w))
  /\ id <> []
  /\ ((forall t s, In t (todos w) -> get (str "id") t = Some (JStr s) ->
                   starts_with stamp s = false) ->
      forall t, In t (todos w) -> has_id (JStr id) t = false)
  /\ (clock w (S (clock_reads w)) = clock w (S (S (clock_reads w))) ->
      created = updated)
  /\ (write_fits (add_mutated (c :: cs) w) ->
      storage w' = Some (serialize (todos w'))).
Proof.
  intros Htext stamp id created updated task w'.
  destruct (handleAddTodo_adds w c cs Htext) as (Ho & Htodos & Hstore).
  fold w' in Htodos, Hstore.
  change (added_todo (c :: cs) w) with (task_object task) in Htodos, Hstore.
  split; [exact Ho|]. split; [exact Htodos|].
  split; [now rewrite Htodos|]. split.
  { subst id. intros H. apply app_eq_nil in H. destruct H as [H _].
    revert H. apply Z_to_string_nonempty. }
  split; [apply fresh_by_stamp|]. split.
  { subst created updated. now intros ->. }
  intros Hfit. rewrite Htodos. now apply Hstore.
Qed.

(** The first task of a fresh session. *)
Lemma add_inserts_task_witness :
  trim (str " Buy milk ") = str "Buy milk"
  /\ todos (exec handleAddTodo (set_todoInput (str " Buy milk ") fresh_browser))
     = [task_object milk]
  /\ storage (exec handleAddTodo (set_todoInput (str " Buy milk ") fresh_browser))
     = Some (serialize [task_object milk]).
Proof.
  split; [reflexivity|].
  destruct (add_inserts_task (set_todoInput (str " Buy milk ") fresh_browser)
              66%N (str "uy milk") eq_refl)
    as (_ & Htodos & _ & _ & _ & _ & Hstore).
  split.
  - rewrite Htodos. reflexivity.
  - rewrite Hstore, Htodos; [reflexivity|].
    unfold write_fits. vm_compute. discriminate.
Defined.

(** C1 as specified fails in [same_instant]: the new task gets the
    identifier of the stored one, and its two dates differ. *)
Lemma add_as_specified_counterexample :
  (exists id created updated,
     todos (exec handleAddTodo same_instant)
     = new_todo id (str "Buy eggs") created updated :: todos same_instant
     /\ Array_find (has_id (JStr id)) (todos same_instant) = Some 0%nat
     /\ created <> updated)
  /\ ~ add_as_specified same_instant.
Proof.
  split.
  - exists (str "loyw3v28abc"), (str "2023-11-14T22:13:20.000Z"),
      (str "2023-11-14T22:13:20.001Z").
    split; [vm_compute; reflexivity|]. split; [vm_compute; reflexivity|].
    vm_compute. discriminate.
  - intros H. destruct (H 66%N (str "uy eggs") eq_refl)
      as (task & Htodos & _ & _ & Hdates & _).
    vm_compute in Htodos. destruct task as [i t d ca ua].
    unfold task_object in Htodos. cbn in Htodos, Hdates.
    injection Htodos as _ _ _ Hca Hua. subst ca ua. discriminate Hdates.
Qed.

(** ** Toggling and editing *)



Lemma edit_mutated_todos newText i w :
  todos (edit_mutated newText i w)
  = update_nth i (edited (toISOString (clock w (clock_reads w))) newText) (todos w).
Proof.
  unfold edit_mutated. cbn [todos set_todos]. rewrite update_nth_compose.
  reflexivity.
Qed.

Lemma get_id_toggled now t : get (str "id") (toggled now t) = get (str "id") t.
Proof. unfold toggled. now rewrite !get_set_other by discriminate. Qed.

Lemma get_id_edited now newText t :
  get (str "id") (edited now newText t) = get (str "id") t.
Proof. unfold edited. now rewrite !get_set_other by discriminate. Qed.

Lemma ids_toggle_mutated i w :
  map (get (str "id")) (todos (toggle_mutated i w)) = map (get (str "id")) (todos w).
Proof.
  unfold toggle_mutated. cbn [todos set_todos].
  rewrite !map_update_nth_invariant; auto;
    intros x; now rewrite get_set_other by discriminate.
Qed.

Lemma ids_edit_mutated newText i w :
  map (get (str "id")) (todos (edit_mutated newText i w))
  = map (get (str "id")) (todos w).
Proof.
  rewrite edit_mutated_todos. apply map_update_nth_invariant.
  intros x. apply get_id_edited.
Qed.


(** What a toggle of the task at index [i] leaves, whether or not the
    write went through. *)
Lemma toggleTodo_found id i w :
  Array_find (has_id id) (todos w) = Some i ->
  let w' := exec (toggleTodo id) w in
  outcome (toggleTodo id) w = Normal tt
  /\ todos w' = todos (toggle_mutated i w)
  /\ clock w' = clock w
  /\ clock_reads w' = S (clock_reads w)
  /\ (write_fits (toggle_mutated i w) -> storage w' = Some (serialize (todos w'))).
Proof.
  intros H w'. destruct (toggleTodo_run id i w H) as (w1 & E & Hend).
  assert (Ew : w' = w1) by (subst w'; unfold exec; now rewrite E).
  rewrite Ew. split; [unfold outcome; now rewrite E|].
  assert (Ht : todos w1 = todos (toggle_mutated i w))
    by (apply (ends_field todos) in Hend; auto).
  split; [exact Ht|].
  split; [apply (ends_field clock) in Hend; auto|].
  split; [apply (ends_field clock_reads) in Hend; auto|].
  intros Hfit. destruct Hend as [[_ Hm]|[Hno _]]; [|contradiction].
  rewrite Ht. now rewrite (model_storage _ _ Hm).
Qed.



(** [editTodo] opens the dialog on the task it finds and touches neither
    the array, the storage nor the notifications. *)
Lemma editTodo_run id w :
  exists w', editTodo id w = (Normal tt, w')
    /\ todos w' = todos w /\ storage w' = storage w /\ effects w' = effects w
    /\ clock w' = clock w /\ clock_reads w' = clock_reads w
    /\ editingIndex w'
       = match Array_find (has_id id) (todos w) with
         | Some i => Some (Z.of_nat i)
         | None => editingIndex w
         end.
Proof.
  unfold editTodo. unfold_services. unfold_monad. cbv beta iota zeta.
  destruct (Array_find (has_id id) (todos w)) as [i|]; cbv beta iota zeta.
  - match goal with
    | |- context [showModal ?x] =>
        destruct (showModal_redraws x) as (w' & E & Hm); rewrite E
    end.
    exists w'. split; [reflexivity|].
    rewrite (model_todos _ _ Hm), (model_storage _ _ Hm), (model_effects _ _ Hm),
      (model_clock _ _ Hm), (model_clock_reads _ _ Hm), (model_editingIndex _ _ Hm).
    repeat split.
  - exists w. repeat split.
Qed.

(** The array after [saveEdit]: untouched, or changed at [editingIndex]
    only. *)
Lemma saveEdit_todos w :
  todos (exec saveEdit w) = todos w
  \/ exists c cs index,
       trim (editInput w) = c :: cs /\ editingIndex w = Some index
       /\ (0 <= index)%Z
       /\ todos (exec saveEdit w)
          = update_nth (Z.to_nat index)
              (edited (toISOString (clock w (clock_reads w))) (c :: cs)) (todos w).
Proof.
  destruct (trim (editInput w)) as [|c cs] eqn:Ht.
  { left. unfold exec. now rewrite saveEdit_blank. }
  destruct (editingIndex w) as [index|] eqn:He.
  2:{ left. unfold exec. rewrite saveEdit_no_index; [reflexivity|now rewrite He]. }
  destruct (Z.lt_ge_cases index 0) as [Hi|Hi].
  { left. unfold exec. rewrite saveEdit_no_index; [reflexivity|now rewrite He]. }
  destruct (nth_error (todos w) (Z.to_nat index)) as [t|] eqn:Hn.
  - right. exists c, cs, index. repeat split; auto.
    destruct (saveEdit_run w c cs index t Ht He Hi Hn) as (w' & E & Hend).
    unfold exec. rewrite E. cbn [snd].
    rewrite <- edit_mutated_todos. apply (ends_field todos) in Hend; auto.
  - left. unfold exec. now rewrite (saveEdit_out_of_range w c cs index Ht He Hi Hn).
Qed.

(** C10.  [toggleTodo], [saveEdit] and [edit] keep the length of the array
    and the sequence of identifiers in it, and leave every task unchanged
    except, for [toggleTodo] and [edit], the first task carrying the
    identifier and, for [saveEdit], the task at [editingIndex]. *)
Theorem toggle_and_edit_frame (w : World) (id : jsval) :
  (let w' := exec (toggleTodo id) w in
   List.length (todos w') = List.length (todos w)
   /\ map (get (str "id")) (todos w') = map (get (str "id")) (todos w)
   /\ forall j, Array_find (has_id id) (todos w) <> Some j ->
                nth_error (todos w') j = nth_error (todos w) j)
  /\ (let w' := exec saveEdit w in
      List.length (todos w') = List.length (todos w)
      /\ map (get (str "id")) (todos w') = map (get (str "id")) (todos w)
      /\ forall j, editingIndex w <> Some (Z.of_nat j) ->
                   nth_error (todos w') j = nth_error (todos w) j)
  /\ (forall newText i,
        Array_find (has_id id) (todos w) = Some i ->
        let w' := exec (edit id newText) w in
        List.length (todos w') = List.length (todos w)
        /\ map (get (str "id")) (todos w') = map (get (str "id")) (todos w)
        /\ forall j, j <> i -> nth_error (todos w') j = nth_error (todos w) j).
Proof.
  assert (Hsave : forall w0,
             List.length (todos (exec saveEdit w0)) = List.length (todos w0)
             /\ map (get (str "id")) (todos (exec saveEdit w0))
                = map (get (str "id")) (todos w0)
             /\ forall j, editingIndex w0 <> Some (Z.of_nat j) ->
                          nth_error (todos (exec saveEdit w0)) j
                          = nth_error (todos w0) j).
  { intros w0.
    destruct (saveEdit_todos w0) as [->|(c & cs & index & _ & He & Hi & ->)];
      [repeat split|].
    split; [apply length_update_nth|].
    split; [apply map_update_nth_invariant; intros x; apply get_id_edited|].
    intros j Hj. apply nth_error_update_nth_other.
    intros Heq. apply Hj. rewrite He. f_equal. lia. }
  split; [|split; [apply Hsave|]].
  - cbv zeta. destruct (Array_find (has_id id) (todos w)) as [i|] eqn:Hfind.
    + destruct (toggleTodo_found id i w Hfind) as (_ & -> & _).
      unfold toggle_mutated. cbn [todos set_todos].
      split; [now rewrite !length_update_nth|].
      split; [apply (ids_toggle_mutated i w)|].
      intros j Hj.
      rewrite !nth_error_update_nth_other; auto; intros ->; now apply Hj.
    + unfold exec. rewrite toggleTodo_absent by exact Hfind. repeat split.
  - intros newText i Hfind. cbv zeta.
    destruct (editTodo_run id w) as (w1 & E & Ht & _ & _ & _ & _ & He).
    rewrite Hfind in He.
    assert (Ew : exec (edit id newText) w = exec saveEdit (set_editInput newText w1)).
    { unfold edit, exec, bind, modify. now rewrite E. }
    rewrite Ew. destruct (Hsave (set_editInput newText w1)) as (H1 & H2 & H3).
    cbn [todos set_editInput] in H1, H2, H3. rewrite Ht in H1, H2, H3.
    split; [exact H1|]. split; [exact H2|].
    intros j Hj. apply H3. cbn [editingIndex set_editInput]. rewrite He.
    intros H. injection H as H. apply Hj. lia.
Qed.

(** Toggling or editing the first of two tasks leaves the second as it
    was. *)
Lemma toggle_and_edit_frame_witness :
  nth_error (todos (exec (toggleTodo (JStr (task_id milk))) two_tasks)) 1
  = Some (task_object bread)
  /\ nth_error (todos (exec (edit (JStr (task_id milk)) (str "Buy oat milk"))
                         two_tasks)) 1
     = Some (task_object bread).
Proof.
  destruct (toggle_and_edit_frame two_tasks (JStr (task_id milk)))
    as ((_ & _ & Htoggle) & _ & Hedit).
  split.
  - rewrite (Htoggle 1%nat); [reflexivity|]. vm_compute. discriminate.
  - destruct (Hedit (str "Buy oat milk") 0%nat eq_refl) as (_ & _ & H).
    rewrite (H 1%nat); [reflexivity|]. discriminate.
Defined.

(** ** Deleting *)

(** What a confirmed delete leaves, whether or not the write went
    through. *)
Lemma deleteTodo_confirmed id i w :
  Array_find (has_id id) (todos w) = Some i ->
  confirms w (confirm_calls w) = true ->
  let w' := exec (deleteTodo id) w in
  outcome (deleteTodo id) w = Normal tt
  /\ todos w' = filter (fun t => negb (has_id id t)) (todos w)
  /\ (write_fits (delete_mutated id w) -> storage w' = Some (serialize (todos w'))).
Proof.
  intros H Hc w'. destruct (deleteTodo_run id i w H Hc) as (w1 & E & Hend).
  assert (Ew : w' = w1) by (subst w'; unfold exec; now rewrite E).
  rewrite Ew. split; [unfold outcome; now rewrite E|].
  assert (Ht : todos w1 = todos (delete_mutated id w))
    by (apply (ends_field todos) in Hend; auto).
  split; [exact Ht|].
  intros Hfit. destruct Hend as [[_ Hm]|[Hno _]]; [|contradiction].
  rewrite Ht. now rewrite (model_storage _ _ Hm).
Qed.

(** C3, as amended.  [deleteTodo] of an identifier no task carries leaves
    the world as it was: nothing is removed, written or reported.  When a
    task carries the identifier the user is asked; if the user declines,
    the collection, the storage and the notifications stay as they were; if
    the user confirms, every task carrying the identifier is filtered out
    and the others stay in order, so that no task carries the identifier
    afterwards and the size goes down by the number of tasks that carried
    it (by one when one task did), and the storage holds the serialized
    collection afterwards when it has room for it. *)
Theorem delete_removes_on_confirmation (w : World) (id : jsval) :
  let w' := exec (deleteTodo id) w in
  (Array_find (has_id id) (todos w) = None -> deleteTodo id w = (Normal tt, w))
  /\ (forall i, Array_find (has_id id) (todos w) = Some i ->
                confirms w (confirm_calls w) = false ->
                outcome (deleteTodo id) w = Normal tt
                /\ todos w' = todos w /\ storage w' = storage w
                /\ effects w' = effects w)
  /\ (forall i, Array_find (has_id id) (todos w) = Some i ->
                confirms w (confirm_calls w) = true ->
                outcome (deleteTodo id) w = Normal tt
                /\ todos w' = filter (fun t => negb (has_id id t)) (todos w)
                /\ Array_find (has_id id) (todos w') = None
                /\ (List.length (todos w')
                    + List.length (filter (has_id id) (todos w))
                    = List.length (todos w))%nat
                /\ (List.length (filter (has_id id) (todos w)) = 1%nat ->
                    S (List.length (todos w')) = List.length (todos w))
                /\ (write_fits (delete_mutated id w) ->
                    storage w' = Some (serialize (todos w')))).
Proof.
  intros w'. split; [apply deleteTodo_absent|]. split.
  - intros i H Hc. subst w'. unfold exec, outcome.
    rewrite (deleteTodo_declined id i w H Hc). repeat split.
  - intros i H Hc.
    destruct (deleteTodo_confirmed id i w H Hc) as (Ho & Ht & Hs). fold w' in Ht, Hs.
    pose proof (filter_length_split (has_id id) (todos w)) as Hlen.
    split; [exact Ho|]. split; [exact Ht|].
    split; [rewrite Ht; apply Array_find_filter_out|].
    rewrite Ht. split; [lia|]. split; [lia|]. rewrite <- Ht. exact Hs.
Qed.

(** Deleting the first of two tasks, with a user who confirms. *)
Lemma delete_removes_on_confirmation_witness :
  Array_find (has_id (JStr (task_id milk))) (todos two_tasks) = Some 0%nat
  /\ confirms two_tasks (confirm_calls two_tasks) = true
  /\ todos (exec (deleteTodo (JStr (task_id milk))) two_tasks) = [task_object bread]
  /\ storage (exec (deleteTodo (JStr (task_id milk))) two_tasks)
     = Some (serialize [task_object bread]).
Proof.
  split; [reflexivity|]. split; [reflexivity|].
  destruct (delete_removes_on_confirmation two_tasks (JStr (task_id milk)))
    as (_ & _ & H).
  destruct (H 0%nat eq_refl eq_refl) as (_ & Ht & _ & _ & _ & Hs).
  split; [rewrite Ht; reflexivity|].
  rewrite Hs, Ht; [reflexivity|]. unfold write_fits. vm_compute. discriminate.
Defined.

(** C3 as specified fails three ways: with an absent identifier nothing
    is written to the storage; with a user who declines, the task stays;
    with two tasks under one identifier, both go. *)
Lemma delete_as_specified_counterexample :
  ~ delete_as_specified fresh_browser (JStr (str "x"))
  /\ ~ delete_as_specified declining_user (JStr (task_id milk))
  /\ ~ delete_as_specified twin_ids (JStr (task_id milk)).
Proof.
  split; [|split]; intros (Habsent & Hpresent & Hstore).
  - vm_compute in Hstore. discriminate Hstore.
  - destruct (Hpresent 0%nat eq_refl) as [Hlen _].
    vm_compute in Hlen. discriminate Hlen.
  - destruct (Hpresent 0%nat eq_refl) as [Hlen _].
    vm_compute in Hlen. discriminate Hlen.
Qed.

(** ** Clearing the completed tasks *)

Lemma clearCompleted_confirmed w :
  completed_count w <> 0%nat ->
  confirms w (confirm_calls w) = true ->
  let w' := exec clearCompleted w in
  outcome clearCompleted w = Normal tt
  /\ todos w' = filter (fun t => negb (is_completed t)) (todos w)
  /\ (write_fits (clear_mutated w) ->
      storage w' = Some (serialize (todos w'))
      /\ effects w'
         = Notification (cleared_message (completed_count w)) (str "success")
           :: effects w).
Proof.
  intros H Hc w'. destruct (clearCompleted_run w H Hc) as (w1 & E & Hend).
  assert (Ew : w' = w1) by (subst w'; unfold exec; now rewrite E).
  rewrite Ew. split; [unfold outcome; now rewrite E|].
  assert (Ht : todos w1 = todos (clear_mutated w))
    by (apply (ends_field todos) in Hend; auto).
  split; [exact Ht|].
  intros Hfit. destruct Hend as [[_ Hm]|[Hno _]]; [|contradiction].
  rewrite Ht. now rewrite (model_storage _ _ Hm), (model_effects _ _ Hm).
Qed.

(** C4, as amended.  With no completed task, [clearCompleted] only notifies
    that there is nothing to clear: nothing is asked, removed or written.
    Otherwise the user is asked; if the user declines, the collection, the
    storage and the notifications stay as they were; if the user confirms,
    the tasks whose [completed] is truthy are filtered out and the others
    stay in order, the size goes down by the number of completed tasks, an
    immediate second call finds none and only notifies so, and, when the
    storage has room, it holds the serialized collection afterwards and the
    notification carries the number of tasks removed.  The method itself
    returns nothing. *)
Theorem clear_completed_on_confirmation (w : World) :
  let w' := exec clearCompleted w in
  (completed_count w = 0%nat -> clearCompleted w = (Normal tt, nothing_to_clear w))
  /\ (completed_count w <> 0%nat ->
      confirms w (confirm_calls w) = false ->
      outcome clearCompleted w = Normal tt
      /\ todos w' = todos w /\ storage w' = storage w /\ effects w' = effects w)
  /\ (completed_count w <> 0%nat ->
      confirms w (confirm_calls w) = true ->
      outcome clearCompleted w = Normal tt
      /\ todos w' = filter (fun t => negb (is_completed t)) (todos w)
      /\ (List.length (todos w') + completed_count w = List.length (todos w))%nat
      /\ completed_count w' = 0%nat
      /\ clearCompleted w' = (Normal tt, nothing_to_clear w')
      /\ (write_fits (clear_mutated w) ->
          storage w' = Some (serialize (todos w'))
          /\ effects w'
             = Notification (cleared_message (completed_count w)) (str "success")
               :: effects w)).
Proof.
  intros w'. split; [apply clearCompleted_none|]. split.
  - intros H Hc. subst w'. unfold exec, outcome.
    rewrite (clearCompleted_declined w H Hc). repeat split.
  - intros H Hc.
    destruct (clearCompleted_confirmed w H Hc) as (Ho & Ht & Hs). fold w' in Ht, Hs.
    pose proof (filter_length_split is_completed (todos w)) as Hlen.
    assert (Hzero : completed_count w' = 0%nat).
    { unfold completed_count. rewrite Ht. now rewrite filter_filter_negb. }
    split; [exact Ho|]. split; [exact Ht|].
    split; [rewrite Ht; unfold completed_count; lia|].
    split; [exact Hzero|]. split; [now apply clearCompleted_none|exact Hs].
Qed.

(** Clearing the session with two tasks, with a user who confirms: the
    completed one goes, and one task is reported cleared. *)
Lemma clear_completed_on_confirmation_witness :
  completed_count two_tasks <> 0%nat
  /\ confirms two_tasks (confirm_calls two_tasks) = true
  /\ todos (exec clearCompleted two_tasks) = [task_object milk]
  /\ effects (exec clearCompleted two_tasks)
     = [Notification (str "1 completed task(s) cleared!") (str "success")].
Proof.
  assert (Hcount : completed_count two_tasks <> 0%nat) by (vm_compute; discriminate).
  split; [exact Hcount|]. split; [reflexivity|].
  destruct (clear_completed_on_confirmation two_tasks) as (_ & _ & H).
  destruct (H Hcount eq_refl) as (_ & Ht & _ & _ & _ & Hs).
  split; [rewrite Ht; reflexivity|].
  destruct Hs as [_ He]; [unfold write_fits; vm_compute; discriminate|].
  rewrite He. reflexivity.
Defined.

(** C4 as specified fails with a user who declines: the completed task
    stays. *)
Lemma clear_as_specified_counterexample :
  todos (exec clearCompleted declining_user) = todos declining_user
  /\ completed_count (exec clearCompleted declining_user) = 1%nat
  /\ ~ clear_as_specified declining_user.
Proof.
  split; [reflexivity|]. split; [reflexivity|].
  intros [_ H]. vm_compute in H. discriminate H.
Qed.

(** ** Loading *)

Lemma todos_load_failed w : todos (load_failed w) = [].
Proof. reflexivity. Qed.

Lemma loadTodos_unreadable w c cs :
  storage w = Some (c :: cs) -> parse (c :: cs) = None ->
  loadTodos w = (Throw load_error, load_failed w).
Proof.
  intros Hs Hp. unfold loadTodos, localStorage_getItem, localStorage_removeItem.
  unfold_services. unfold_monad. cbv beta iota zeta. rewrite Hs, Hp. reflexivity.
Qed.

Lemma loadTodos_empty_string w : storage w = Some [] -> loadTodos w = (Normal tt, w).
Proof.
  intros Hs. unfold loadTodos, localStorage_getItem. unfold_monad.
  cbv beta iota zeta. now rewrite Hs.
Qed.

(** A payload that parses to an array. *)
Lemma loadTodos_array w c cs l :
  storage w = Some (c :: cs) -> parse (c :: cs) = Some (JArr l) ->
  loadTodos w = (Normal tt, set_todos (valid_todos l) w).
Proof.
  intros Hs Hp. unfold loadTodos, localStorage_getItem. unfold_monad.
  cbv beta iota zeta. rewrite Hs, Hp. reflexivity.
Qed.

(** C5, as amended.  When the stored payload is a non-empty string that
    [JSON.parse] rejects, [loadTodos] throws
    [Error("Failed to load todos from localStorage")] to its caller, having
    removed the slot and emptied the collection; the caller,
    [initializeApp], reports it in a notification and completes normally;
    and an add on the world that [loadTodos] left puts its task in the
    collection as the only one.  When the stored payload is the empty
    string, which [JSON.parse] rejects as well, [loadTodos] treats it as no
    payload: it completes normally and leaves the world as it was. *)
Theorem load_discards_unreadable_payload (w : World) :
  (forall c cs,
     storage w = Some (c :: cs) -> parse (c :: cs) = None ->
     let w' := exec loadTodos w in
     outcome loadTodos w = Throw load_error
     /\ storage w' = None
     /\ todos w' = []
     /\ initializeApp w = (Normal tt, load_reported w)
     /\ forall text c' cs',
          trim text = c' :: cs' ->
          outcome (add text) w' = Normal tt
          /\ exists task,
               todos (exec (add text) w') = [task_object task]
               /\ task_text task = c' :: cs'
               /\ task_completed task = false)
  /\ (storage w = Some [] -> parse [] = None /\ loadTodos w = (Normal tt, w)).
Proof.
  split.
  - intros c cs Hs Hp w'.
    pose proof (loadTodos_unreadable w c cs Hs Hp) as E.
    assert (Ew : w' = load_failed w) by (apply (exec_eq _ _ _ _ E)).
    rewrite Ew. rewrite (outcome_eq _ _ _ _ E).
    split; [reflexivity|]. split; [reflexivity|]. split; [reflexivity|]. split.
    + unfold initializeApp, try_catch. unfold bind at 1. rewrite E. reflexivity.
    + intros text c' cs' Ht.
      destruct (add_adds (load_failed w) text c' cs' Ht) as [Ho Htodos].
      split; [exact Ho|].
      exists (added_task (c' :: cs') (load_failed w)).
      rewrite Htodos, added_todo_task, todos_load_failed.
      split; [reflexivity|]. split; reflexivity.
  - intros Hs. split; [reflexivity|now apply loadTodos_empty_string].
Qed.

(** A payload cut short: the slot is cleared, the error reported, and the
    next add works. *)
Lemma load_discards_unreadable_payload_witness :
  parse (str "[{") = None
  /\ outcome loadTodos (set_storage (Some (str "[{")) fresh_browser) = Throw load_error
  /\ storage (exec loadTodos (set_storage (Some (str "[{")) fresh_browser)) = None
  /\ List.length
       (todos (exec (add (str "Buy milk"))
                 (exec loadTodos (set_storage (Some (str "[{")) fresh_browser))))
     = 1%nat.
Proof.
  split; [reflexivity|].
  destruct (proj1 (load_discards_unreadable_payload
                     (set_storage (Some (str "[{")) fresh_browser))
              91%N [123%N] eq_refl eq_refl) as (Ho & Hs & _ & _ & Hadd).
  split; [exact Ho|]. split; [exact Hs|].
  destruct (Hadd (str "Buy milk") 66%N (str "uy milk") eq_refl)
    as (_ & task & Ht & _).
  rewrite Ht. reflexivity.
Defined.

(** C5 as specified fails on the empty string: it does not parse, yet
    [loadTodos] completes normally and leaves it in the slot. *)
Lemma load_as_specified_counterexample :
  parse [] = None
  /\ loadTodos (set_storage (Some []) fresh_browser)
     = (Normal tt, set_storage (Some []) fresh_browser)
  /\ ~ load_as_specified (set_storage (Some []) fresh_browser).
Proof.
  split; [reflexivity|]. split; [reflexivity|].
  intros H. destruct (H [] eq_refl eq_refl) as (Ho & _).
  vm_compute in Ho. discriminate Ho.
Qed.

(** ** Saving, then loading *)



(** ** When the write fails *)

(** If a method ended with a failed write, this is the world it left. *)
Lemma ends_failed mutated done label message w' :
  ~ write_fits mutated ->
  ends mutated done label message w' ->
  w' = reported label message (save_failed mutated).
Proof. intros Hno [[Hfit _]|[_ ->]]; [contradiction|reflexivity]. Qed.



(** ** The store stays a collection of valid tasks *)

Lemma trimStart_head s c r : trimStart s = c :: r -> is_white_space c = false.
Proof.
  induction s as [|a s IH]; simpl; [discriminate|].
  destruct (is_white_space a) eqn:E; [exact IH|].
  intros H. injection H as <- _. exact E.
Qed.

Lemma trimStart_fixed c r : is_white_space c = false -> trimStart (c :: r) = c :: r.
Proof. intros H. simpl. now rewrite H. Qed.

Lemma trimStart_suffix s : exists p, s = p ++ trimStart s.
Proof.
  induction s as [|a s [p IH]]; simpl; [now exists []|].
  destruct (is_white_space a); [|now exists []].
  exists (a :: p). simpl. now rewrite <- IH.
Qed.

(** A trimmed text that is not empty trims to itself. *)
Lemma trim_fixed s c cs : trim s = c :: cs -> trim (c :: cs) = c :: cs.
Proof.
  unfold trim, trimEnd. intros H.
  destruct (trimStart (rev (trimStart s))) as [|z zs] eqn:Ez;
    [destruct cs; discriminate H|].
  pose proof (trimStart_head _ _ _ Ez) as Hz.
  assert (Hc : is_white_space c = false).
  { destruct (trimStart_suffix (rev (trimStart s))) as [p Hp].
    rewrite Ez in Hp. apply (f_equal (@rev N)) in Hp.
    rewrite rev_involutive, rev_app_distr, H in Hp.
    destruct (trimStart s) as [|a r] eqn:Ea; [now destruct cs|].
    injection Hp as -> _. exact (trimStart_head _ _ _ Ea). }
  rewrite (trimStart_fixed c cs Hc), <- H, rev_involutive.
  rewrite (trimStart_fixed z zs Hz). reflexivity.
Qed.

Lemma update_nth_map {A B} (g : A -> B) (f : B -> B) (f' : A -> A) i l :
  (forall x, f (g x) = g (f' x)) ->
  update_nth i f (map g l) = map g (update_nth i f' l).
Proof.
  intros H. revert i. induction l as [|a l IH]; intros [|i]; simpl; auto.
  - now rewrite H.
  - now rewrite IH.
Qed.

Lemma forallb_update_nth {A} (p : A -> bool) (f : A -> A) i l :
  (forall x, p x = true -> p (f x) = true) ->
  forallb p l = true -> forallb p (update_nth i f l) = true.
Proof.
  intros H. revert i. induction l as [|a l IH]; intros [|i]; simpl; auto;
    rewrite !andb_true_iff; intros [Ha Hl]; auto.
Qed.

Lemma forallb_filter {A} (p q : A -> bool) l :
  forallb p l = true -> forallb p (filter q l) = true.
Proof.
  induction l as [|a l IH]; simpl; auto.
  rewrite andb_true_iff. intros [Ha Hl].
  destruct (q a); simpl; auto. now rewrite Ha, IH.
Qed.

Lemma task_store_filter (q : js_object -> bool) ts :
  forallb task_valid ts = true ->
  exists ts', filter q (map task_object ts) = map task_object ts'
              /\ forallb task_valid ts' = true.
Proof.
  intros Hv. exists (filter (fun t => q (task_object t)) ts). split.
  - now apply filter_map_tasks.
  - now apply forallb_filter.
Qed.

Lemma added_task_valid text c cs w :
  trim text = c :: cs -> task_valid (added_task (c :: cs) w) = true.
Proof.
  intros H. unfold task_valid, added_task. cbn [task_id task_text].
  rewrite (trim_fixed text c cs H).
  destruct (Z_to_string 36 (clock w (clock_reads w))
            ++ substr 2 (random36 w (random_calls w))) eqn:E; [|reflexivity].
  apply app_eq_nil in E. destruct E as [E _].
  now apply Z_to_string_nonempty in E.
Qed.

(** Each of the five methods takes a collection of valid tasks to a
    collection of valid tasks, whatever the storage does. *)
Lemma task_store_preserved (w : World) (id : jsval) :
  task_store w ->
  task_store (exec handleAddTodo w)
  /\ task_store (exec (toggleTodo id) w)
  /\ task_store (exec saveEdit w)
  /\ task_store (exec (deleteTodo id) w)
  /\ task_store (exec clearCompleted w).
Proof.
  intros (ts & Hts & Hv). unfold task_store.
  split; [|split; [|split; [|split]]].
  - destruct (trim (todoInput w)) as [|c cs] eqn:Ht.
    + rewrite (exec_eq _ _ _ _ (handleAddTodo_blank w Ht)). eauto.
    + destruct (handleAddTodo_adds w c cs Ht) as (_ & -> & _).
      exists (added_task (c :: cs) w :: ts). rewrite Hts. split; [reflexivity|].
      cbn [forallb]. now rewrite (added_task_valid (todoInput w) c cs w Ht), Hv.
  - destruct (Array_find (has_id id) (todos w)) as [i|] eqn:Hf.
    + destruct (toggleTodo_found id i w Hf) as (_ & -> & _).
      unfold toggle_mutated. cbn [todos set_todos].
      rewrite update_nth_compose, Hts.
      set (v := negb (flag_at i (str "completed") w)).
      set (now := toISOString (clock w (clock_reads w))).
      exists (update_nth i
                (fun t => mkTask (task_id t) (task_text t) v (task_createdAt t) now)
                ts).
      split; [apply update_nth_map; reflexivity|].
      apply forallb_update_nth; [|exact Hv]. intros x Hx. exact Hx.
    + rewrite (exec_eq _ _ _ _ (toggleTodo_absent id w Hf)). eauto.
  - destruct (saveEdit_todos w) as [->|(c & cs & index & Ht & _ & _ & ->)];
      [eauto|].
    set (now := toISOString (clock w (clock_reads w))).
    exists (update_nth (Z.to_nat index)
              (fun t => mkTask (task_id t) (c :: cs) (task_completed t)
                               (task_createdAt t) now)
              ts).
    rewrite Hts. split; [apply update_nth_map; reflexivity|].
    apply forallb_update_nth; [|exact Hv]. intros x. unfold task_valid.
    cbn [task_id task_text]. rewrite (trim_fixed _ c cs Ht).
    rewrite !andb_true_iff. intros [Hx _]. now split.
  - destruct (Array_find (has_id id) (todos w)) as [i|] eqn:Hf.
    + destruct (confirms w (confirm_calls w)) eqn:Hc.
      * destruct (deleteTodo_confirmed id i w Hf Hc) as (_ & -> & _).
        rewrite Hts. now apply task_store_filter.
      * rewrite (exec_eq _ _ _ _ (deleteTodo_declined id i w Hf Hc)). eauto.
    + rewrite (exec_eq _ _ _ _ (deleteTodo_absent id w Hf)). eauto.
  - destruct (Nat.eq_dec (completed_count w) 0) as [Hz|Hz].
    + rewrite (exec_eq _ _ _ _ (clearCompleted_none w Hz)). eauto.
    + destruct (confirms w (confirm_calls w)) eqn:Hc.
      * destruct (clearCompleted_confirmed w Hz Hc) as (_ & -> & _).
        rewrite Hts. now apply task_store_filter.
      * rewrite (exec_eq _ _ _ _ (clearCompleted_declined w Hz Hc)). eauto.
Qed.

(** * Beyond the store *)

(** ** What is on screen *)

Lemma getFilteredTodos_exact w : getFilteredTodos w = (Normal (filtered w), w).
Proof.
  unfold getFilteredTodos, filtered. unfold_monad.
  destruct (Str.eqb (currentFilter w) (str "active")); [reflexivity|].
  destruct (Str.eqb (currentFilter w) (str "completed")); reflexivity.
Qed.

Lemma showEmptyState_exact w : showEmptyState w = (Normal tt, empty_state_world w).
Proof.
  unfold showEmptyState. unfold bind at 1. unfold gets at 1. unfold bind at 1.
  rewrite getFilteredTodos_exact. unfold empty_state_world, empty_state, modify.
  destruct (0 <? List.length (todos w))%nat; cbn [negb orb]; [|reflexivity].
  destruct (0 <? List.length (filtered w))%nat; reflexivity.
Qed.

Lemma filtered_set_rendered r w : filtered (set_rendered r w) = filtered w.
Proof. reflexivity. Qed.

Lemma renderTodos_exact w : renderTodos w = (Normal tt, rendered_world w).
Proof.
  unfold renderTodos. unfold bind at 1. unfold modify at 1. unfold bind at 1.
  rewrite getFilteredTodos_exact, filtered_set_rendered. unfold rendered_world.
  destruct (List.length (filtered w) =? 0)%nat.
  - rewrite showEmptyState_exact. reflexivity.
  - reflexivity.
Qed.

Lemma updateStats_exact w : updateStats w = (Normal tt, counted_world w).
Proof. reflexivity. Qed.

Lemma model_rendered_world w : model (rendered_world w) = model w.
Proof. unfold rendered_world. destruct (_ =? _)%nat; reflexivity. Qed.

Lemma model_counted_world w : model (counted_world w) = model w.
Proof. reflexivity. Qed.

Lemma model_empty_state_world w : model (empty_state_world w) = model w.
Proof. reflexivity. Qed.

Lemma model_shown w : model (shown w) = model w.
Proof.
  unfold shown.
  now rewrite model_empty_state_world, model_counted_world, model_rendered_world.
Qed.

Section ModelDeterminesScreen.
Variables w1 w2 : World.
Hypothesis same : model w1 = model w2.

Lemma model_filtered : filtered w1 = filtered w2.
Proof.
  unfold filtered.
  now rewrite (model_todos _ _ same), (model_currentFilter _ _ same).
Qed.

Lemma model_completed_count : completed_count w1 = completed_count w2.
Proof. unfold completed_count. now rewrite (model_todos _ _ same). Qed.

Lemma model_empty_state : empty_state w1 = empty_state w2.
Proof.
  unfold empty_state. now rewrite (model_todos _ _ same), model_filtered.
Qed.
End ModelDeterminesScreen.

Lemma rendered_rendered_world w : rendered (rendered_world w) = filtered w.
Proof.
  unfold rendered_world. destruct (List.length (filtered w) =? 0)%nat eqn:E;
    [|reflexivity].
  apply Nat.eqb_eq in E. now destruct (filtered w).
Qed.

Lemma counters_rendered_world w :
  totalTasks (rendered_world w) = totalTasks w
  /\ completedTasks (rendered_world w) = completedTasks w.
Proof. unfold rendered_world. destruct (_ =? _)%nat; split; reflexivity. Qed.

(** [renderTodos] refreshes the empty-state block when the list is empty
    and leaves it alone otherwise. *)
Lemma emptyStateShown_rendered_world w :
  emptyStateShown (rendered_world w)
  = match filtered w with [] => empty_state w | _ :: _ => emptyStateShown w end.
Proof. unfold rendered_world. now destruct (filtered w). Qed.

(** Sufficient for an up-to-date screen: the screen shows what another world
    with the same model would list and count. *)
Lemma up_to_date_from w w0 :
  model w = model w0 ->
  rendered w = filtered w0 ->
  totalTasks w = List.length (todos w0) ->
  completedTasks w = completed_count w0 ->
  emptyStateShown w = empty_state w0 ->
  up_to_date w.
Proof.
  intros Hm Hr Ht Hc He. unfold up_to_date.
  now rewrite (model_filtered _ _ Hm), (model_todos _ _ Hm),
    (model_completed_count _ _ Hm), (model_empty_state _ _ Hm).
Qed.

Lemma up_to_date_shown w : up_to_date (shown w).
Proof.
  apply (up_to_date_from _ w); [apply model_shown| | | |].
  - apply rendered_rendered_world.
  - change (List.length (todos (rendered_world w)) = List.length (todos w)).
    now rewrite (model_todos _ _ (model_rendered_world w)).
  - change (completed_count (rendered_world w) = completed_count w).
    now rewrite (model_completed_count _ _ (model_rendered_world w)).
  - change (empty_state (counted_world (rendered_world w)) = empty_state w).
    apply model_empty_state.
    now rewrite model_counted_world, model_rendered_world.
Qed.

(** Changes to the model that the screen does not depend on. *)
Lemma up_to_date_congr (f : World -> World) w :
  (forall w, model (f w) = f (model w)) ->
  (forall w, todos (f w) = todos w) ->
  (forall w, currentFilter (f w) = currentFilter w) ->
  (forall w, rendered (f w) = rendered w) ->
  (forall w, totalTasks (f w) = totalTasks w) ->
  (forall w, completedTasks (f w) = completedTasks w) ->
  (forall w, emptyStateShown (f w) = emptyStateShown w) ->
  up_to_date w -> up_to_date (f w).
Proof.
  intros _ Ht Hf Hr Htt Hc He (F1 & F2 & F3 & F4).
  unfold up_to_date, empty_state, completed_count, filtered.
  rewrite Ht, Hf, Hr, Htt, Hc, He. repeat split; assumption.
Qed.

(** *** The methods when the write goes through *)

Lemma handleAddTodo_try_exact text w :
  write_fits (add_mutated text w) ->
  handleAddTodo_try text w = (Normal tt, add_shown text w).
Proof.
  intros Hfit. unfold handleAddTodo_try. unfold_services. unfold_monad.
  cbv beta iota zeta.
  save_fits Hfit.
  repeat match goal with
         | |- context [renderTodos ?x] => rewrite (renderTodos_exact x)
         | |- context [updateStats ?x] => rewrite (updateStats_exact x)
         | |- context [showEmptyState ?x] => rewrite (showEmptyState_exact x)
         end.
  reflexivity.
Qed.

Ltac exact_redraws :=
  repeat match goal with
         | |- context [renderTodos ?x] => rewrite (renderTodos_exact x)
         | |- context [updateStats ?x] => rewrite (updateStats_exact x)
         | |- context [showEmptyState ?x] => rewrite (showEmptyState_exact x)
         end.

Lemma handleAddTodo_exact w c cs :
  trim (todoInput w) = c :: cs ->
  write_fits (add_mutated (c :: cs) w) ->
  handleAddTodo w = (Normal tt, add_shown (c :: cs) w).
Proof.
  intros Ht Hfit. unfold handleAddTodo. unfold bind at 1. unfold gets at 1.
  rewrite Ht. unfold try_catch. now rewrite (handleAddTodo_try_exact _ _ Hfit).
Qed.

Lemma toggleTodo_exact id i w :
  Array_find (has_id id) (todos w) = Some i ->
  write_fits (toggle_mutated i w) ->
  toggleTodo id w = (Normal tt, toggle_shown i w).
Proof.
  intros Hfind Hfit. unfold toggleTodo, try_catch, toggleTodo_try.
  unfold_services. unfold_monad. cbv beta iota zeta. rewrite Hfind.
  cbv beta iota zeta. save_fits Hfit. exact_redraws. reflexivity.
Qed.

Lemma saveEdit_exact w c cs index t :
  trim (editInput w) = c :: cs ->
  editingIndex w = Some index -> (0 <= index)%Z ->
  nth_error (todos w) (Z.to_nat index) = Some t ->
  write_fits (edit_mutated (c :: cs) (Z.to_nat index) w) ->
  saveEdit w = (Normal tt, edit_shown (c :: cs) (Z.to_nat index) w).
Proof.
  intros Ht He Hi Hn Hfit. unfold saveEdit, try_catch, saveEdit_try.
  unfold_services. unfold_monad. cbv beta iota zeta.
  apply Z.leb_le in Hi. rewrite Ht, He, Hi, Hn. cbv beta iota zeta.
  save_fits Hfit. exact_redraws. reflexivity.
Qed.

Lemma deleteTodo_exact id i w :
  Array_find (has_id id) (todos w) = Some i ->
  confirms w (confirm_calls w) = true ->
  write_fits (delete_mutated id w) ->
  deleteTodo id w = (Normal tt, delete_shown id w).
Proof.
  intros Hfind Hc Hfit. unfold deleteTodo, try_catch, deleteTodo_try.
  unfold_services. unfold_monad. cbv beta iota zeta. rewrite Hfind, Hc.
  cbv beta iota zeta. save_fits Hfit. exact_redraws. reflexivity.
Qed.

Lemma clearCompleted_exact w :
  completed_count w <> 0%nat ->
  confirms w (confirm_calls w) = true ->
  write_fits (clear_mutated w) ->
  clearCompleted w = (Normal tt, clear_shown w).
Proof.
  intros Hn Hc Hfit. unfold clearCompleted, try_catch, clearCompleted_try.
  unfold_services. unfold_monad. cbv beta iota zeta.
  apply Nat.eqb_neq in Hn. unfold completed_count in Hn. rewrite Hn, Hc.
  cbv beta iota zeta. save_fits Hfit. exact_redraws. reflexivity.
Qed.

(** ** The screen after a method *)

Lemma up_to_date_notified m t w : up_to_date w -> up_to_date (notified m t w).
Proof. intros H. apply (up_to_date_congr (notified m t)); auto. Qed.

Lemma up_to_date_set_todoInput x w : up_to_date w -> up_to_date (set_todoInput x w).
Proof. intros H. apply (up_to_date_congr (set_todoInput x)); auto. Qed.

(** X1.  After an add, a confirmed delete or a confirmed clear whose write
    went through, the screen shows the store: the list holds the tasks of
    the current filter, the counters hold the number of tasks and of
    completed tasks, and the empty-state block is displayed exactly when
    there is nothing to list. *)
Theorem screen_up_to_date_after_add_delete_clear (w : World) (id : jsval) :
  (forall c cs,
     trim (todoInput w) = c :: cs ->
     write_fits (add_mutated (c :: cs) w) ->
     up_to_date (exec handleAddTodo w))
  /\ (forall i,
        Array_find (has_id id) (todos w) = Some i ->
        confirms w (confirm_calls w) = true ->
        write_fits (delete_mutated id w) ->
        up_to_date (exec (deleteTodo id) w))
  /\ (completed_count w <> 0%nat ->
      confirms w (confirm_calls w) = true ->
      write_fits (clear_mutated w) ->
      up_to_date (exec clearCompleted w)).
Proof.
  split; [|split].
  - intros c cs Ht Hfit.
    rewrite (exec_eq _ _ _ _ (handleAddTodo_exact w c cs Ht Hfit)).
    apply up_to_date_notified, up_to_date_set_todoInput, up_to_date_shown.
  - intros i Hf Hc Hfit.
    rewrite (exec_eq _ _ _ _ (deleteTodo_exact id i w Hf Hc Hfit)).
    apply up_to_date_notified, up_to_date_shown.
  - intros Hn Hc Hfit.
    rewrite (exec_eq _ _ _ _ (clearCompleted_exact w Hn Hc Hfit)).
    apply up_to_date_notified, up_to_date_shown.
Qed.

(** The screen after adding to, deleting from and clearing the session with
    two tasks. *)
Lemma screen_up_to_date_after_add_delete_clear_witness :
  up_to_date (exec handleAddTodo (set_todoInput (str "Buy eggs") two_tasks))
  /\ up_to_date (exec (deleteTodo (JStr (task_id milk))) two_tasks)
  /\ up_to_date (exec clearCompleted two_tasks).
Proof.
  destruct (screen_up_to_date_after_add_delete_clear
              (set_todoInput (str "Buy eggs") two_tasks) (JStr (task_id milk)))
    as (Hadd & _ & _).
  destruct (screen_up_to_date_after_add_delete_clear two_tasks (JStr (task_id milk)))
    as (_ & Hdel & Hclear).
  split; [|split].
  - apply (Hadd 66%N (str "uy eggs") eq_refl).
    unfold write_fits. vm_compute. discriminate.
  - apply (Hdel 0%nat eq_refl eq_refl). unfold write_fits. vm_compute. discriminate.
  - apply Hclear; [vm_compute; discriminate|reflexivity|].
    unfold write_fits. vm_compute. discriminate.
Defined.

Lemma filter_length_update_nth {A} (p : A -> bool) (f : A -> A) i l :
  (forall x, p (f x) = p x) ->
  List.length (filter p (update_nth i f l)) = List.length (filter p l).
Proof.
  intros H. revert i. induction l as [|a l IH]; intros [|i]; simpl; auto.
  - rewrite H. destruct (p a); reflexivity.
  - destruct (p a); simpl; now rewrite IH.
Qed.

Lemma is_completed_edited now newText t :
  is_completed (edited now newText t) = is_completed t.
Proof.
  unfold is_completed, edited. now rewrite !get_set_other by discriminate.
Qed.

Lemma completed_count_edit_mutated newText i w :
  completed_count (edit_mutated newText i w) = completed_count w.
Proof.
  unfold completed_count. rewrite edit_mutated_todos.
  apply filter_length_update_nth. intros x. apply is_completed_edited.
Qed.

Lemma length_todos_edit_mutated newText i w :
  List.length (todos (edit_mutated newText i w)) = List.length (todos w).
Proof. rewrite edit_mutated_todos. apply length_update_nth. Qed.

(** X2.  After a toggle whose write went through, the list holds the tasks
    of the current filter and the counters hold the number of tasks and of
    completed tasks; the empty-state block is refreshed when the list has
    become empty and is otherwise left as it was.  After a [saveEdit] whose
    write went through, the list holds the tasks of the current filter, the
    dialog is closed with its index and input reset, and the counters are
    left as they were, as are the two sizes they count. *)
Theorem screen_after_toggle_and_edit (w : World) (id : jsval) :
  (forall i,
     Array_find (has_id id) (todos w) = Some i ->
     write_fits (toggle_mutated i w) ->
     let w' := exec (toggleTodo id) w in
     rendered w' = filtered w'
     /\ totalTasks w' = List.length (todos w')
     /\ completedTasks w' = completed_count w'
     /\ emptyStateShown w'
        = match filtered w' with
          | [] => empty_state w'
          | _ :: _ => emptyStateShown w
          end)
  /\ (forall c cs index t,
        trim (editInput w) = c :: cs ->
        editingIndex w = Some index -> (0 <= index)%Z ->
        nth_error (todos w) (Z.to_nat index) = Some t ->
        write_fits (edit_mutated (c :: cs) (Z.to_nat index) w) ->
        let w' := exec saveEdit w in
        rendered w' = filtered w'
        /\ modalShown w' = false /\ editingIndex w' = None /\ editInput w' = []
        /\ totalTasks w' = totalTasks w
        /\ completedTasks w' = completedTasks w
        /\ List.length (todos w') = List.length (todos w)
        /\ completed_count w' = completed_count w).
Proof.
  split.
  - intros i Hf Hfit w'. subst w'.
    rewrite (exec_eq _ _ _ _ (toggleTodo_exact id i w Hf Hfit)).
    set (x := saved (toggle_mutated i w)).
    assert (Hm : model (toggle_shown i w) = model (toggle_notify i x)).
    { unfold toggle_shown. fold x.
      apply (model_congr _ _ (eq_trans (model_counted_world (rendered_world x))
                                       (model_rendered_world x))
               (toggle_notify i)).
      reflexivity. }
    assert (Hx : model (toggle_notify i x) = model (toggle_notify i x)) by reflexivity.
    rewrite (model_filtered _ _ Hm), (model_todos _ _ Hm),
      (model_completed_count _ _ Hm), (model_empty_state _ _ Hm).
    change (rendered (toggle_shown i w)) with (rendered (rendered_world x)).
    change (totalTasks (toggle_shown i w)) with (List.length (todos (rendered_world x))).
    change (completedTasks (toggle_shown i w)) with (completed_count (rendered_world x)).
    change (emptyStateShown (toggle_shown i w)) with (emptyStateShown (rendered_world x)).
    change (filtered (toggle_notify i x)) with (filtered x).
    change (todos (toggle_notify i x)) with (todos x).
    change (completed_count (toggle_notify i x)) with (completed_count x).
    change (empty_state (toggle_notify i x)) with (empty_state x).
    rewrite rendered_rendered_world, emptyStateShown_rendered_world.
    rewrite (model_todos _ _ (model_rendered_world x)),
      (model_completed_count _ _ (model_rendered_world x)).
    repeat split.
  - intros c cs index t Ht He Hi Hn Hfit w'. subst w'.
    rewrite (exec_eq _ _ _ _ (saveEdit_exact w c cs index t Ht He Hi Hn Hfit)).
    set (x := saved (edit_mutated (c :: cs) (Z.to_nat index) w)).
    set (fin := fun w => notified (str "Task updated successfully!") (str "success")
                          (set_editInput [] (set_editingIndex None
                             (set_modalShown false w)))).
    assert (Hm : model (edit_shown (c :: cs) (Z.to_nat index) w) = model (fin x)).
    { unfold edit_shown. fold x.
      apply (model_congr _ _ (model_rendered_world x) fin). reflexivity. }
    rewrite (model_filtered _ _ Hm), (model_todos _ _ Hm),
      (model_completed_count _ _ Hm).
    change (rendered (edit_shown (c :: cs) (Z.to_nat index) w))
      with (rendered (rendered_world x)).
    change (totalTasks (edit_shown (c :: cs) (Z.to_nat index) w))
      with (totalTasks (rendered_world x)).
    change (completedTasks (edit_shown (c :: cs) (Z.to_nat index) w))
      with (completedTasks (rendered_world x)).
    change (filtered (fin x)) with (filtered x).
    change (todos (fin x)) with (todos (edit_mutated (c :: cs) (Z.to_nat index) w)).
    change (completed_count (fin x))
      with (completed_count (edit_mutated (c :: cs) (Z.to_nat index) w)).
    rewrite rendered_rendered_world.
    destruct (counters_rendered_world x) as [-> ->].
    rewrite length_todos_edit_mutated, completed_count_edit_mutated.
    repeat split.
Qed.

(** Completing the first of two tasks, and saving an edit of it. *)
Lemma screen_after_toggle_and_edit_witness :
  rendered (exec (toggleTodo (JStr (task_id milk))) two_tasks)
  = todos (exec (toggleTodo (JStr (task_id milk))) two_tasks)
  /\ completedTasks (exec (toggleTodo (JStr (task_id milk))) two_tasks) = 2%nat
  /\ rendered (exec saveEdit editing_first) = todos (exec saveEdit editing_first)
  /\ modalShown (exec saveEdit editing_first) = false.
Proof.
  destruct (screen_after_toggle_and_edit two_tasks (JStr (task_id milk)))
    as [Htoggle _].
  destruct (screen_after_toggle_and_edit editing_first JNull) as [_ Hedit].
  assert (F1 : write_fits (toggle_mutated 0 two_tasks))
    by (unfold write_fits; vm_compute; discriminate).
  assert (F2 : write_fits (edit_mutated (str "Buy oat milk") (Z.to_nat 0) editing_first))
    by (unfold write_fits; vm_compute; discriminate).
  destruct (Htoggle 0%nat eq_refl F1) as (H1 & _ & H2 & _).
  assert (Hi : (0 <= 0)%Z) by lia.
  destruct (Hedit 66%N (str "uy oat milk") 0%Z (task_object milk)
              eq_refl eq_refl Hi eq_refl F2) as (H3 & H4 & _).
  split; [rewrite H1; vm_compute; reflexivity|].
  split; [rewrite H2; vm_compute; reflexivity|].
  split; [rewrite H3; vm_compute; reflexivity|exact H4].
Defined.

(** ** Changing the filter *)

Lemma handleFilterChange_same f w :
  f = currentFilter w -> handleFilterChange f w = (Normal tt, w).
Proof.
  intros ->. unfold handleFilterChange. unfold_monad.
  now rewrite string_eqb_refl.
Qed.

Lemma handleFilterChange_exact f w :
  f <> currentFilter w ->
  handleFilterChange f w = (Normal tt, rendered_world (set_currentFilter f w)).
Proof.
  intros H. apply string_eqb_neq in H. unfold handleFilterChange.
  unfold bind at 1. unfold gets at 1. rewrite H. unfold bind, modify.
  apply renderTodos_exact.
Qed.

(** X3.  [handleFilterChange] with the current filter changes nothing.
    With another filter it sets the filter and redraws the list, which then
    holds the tasks of the new filter; the collection, the storage, the
    notifications and the counters are as before; the empty-state block is
    refreshed when the new list is empty and is otherwise left as it was,
    displayed or not.  A filter that is neither [active] nor [completed]
    lists the whole collection. *)
Theorem filter_change_redraws_list (w : World) (f : js_string) :
  (f = currentFilter w -> handleFilterChange f w = (Normal tt, w))
  /\ (f <> currentFilter w ->
      let w' := exec (handleFilterChange f) w in
      outcome (handleFilterChange f) w = Normal tt
      /\ currentFilter w' = f
      /\ todos w' = todos w /\ storage w' = storage w /\ effects w' = effects w
      /\ totalTasks w' = totalTasks w /\ completedTasks w' = completedTasks w
      /\ rendered w' = filtered w'
      /\ emptyStateShown w'
         = match filtered w' with
           | [] => empty_state w'
           | _ :: _ => emptyStateShown w
           end)
  /\ (f <> str "active" -> f <> str "completed" ->
      filtered (set_currentFilter f w) = todos w).
Proof.
  split; [apply handleFilterChange_same|]. split.
  - intros Hne w'. subst w'.
    rewrite (exec_eq _ _ _ _ (handleFilterChange_exact f w Hne)),
      (outcome_eq _ _ _ _ (handleFilterChange_exact f w Hne)).
    set (x := set_currentFilter f w).
    pose proof (model_rendered_world x) as Hm.
    rewrite (model_currentFilter _ _ Hm), (model_todos _ _ Hm),
      (model_storage _ _ Hm), (model_effects _ _ Hm),
      (model_filtered _ _ Hm), (model_empty_state _ _ Hm).
    rewrite rendered_rendered_world, emptyStateShown_rendered_world.
    destruct (counters_rendered_world x) as [-> ->].
    repeat split.
  - intros Ha Hc. unfold filtered. cbn [currentFilter set_currentFilter todos].
    apply string_eqb_neq in Ha, Hc. now rewrite Ha, Hc.
Qed.

(** From the empty view of [nothing_completed] to the filter [all]: the
    task is listed, and the empty-state block is still displayed. *)
Lemma filter_change_redraws_list_witness :
  str "all" <> currentFilter nothing_completed
  /\ rendered (exec (handleFilterChange (str "all")) nothing_completed)
     = [task_object milk]
  /\ emptyStateShown (exec (handleFilterChange (str "all")) nothing_completed) = true
  /\ empty_state (exec (handleFilterChange (str "all")) nothing_completed) = false.
Proof.
  assert (Hne : str "all" <> currentFilter nothing_completed) by discriminate.
  split; [exact Hne|].
  destruct (proj1 (proj2 (filter_change_redraws_list nothing_completed (str "all")))
              Hne) as (_ & _ & _ & _ & _ & _ & _ & Hr & He).
  split; [rewrite Hr; vm_compute; reflexivity|].
  split; [rewrite He; vm_compute; reflexivity|vm_compute; reflexivity].
Defined.

(** ** A write that fails *)

Lemma length_join_cons sep (p : js_string) ps :
  (List.length (join sep ps) <= List.length (join sep (p :: ps)))%nat.
Proof.
  destruct ps as [|q ps]; [simpl; lia|].
  change (join sep (p :: q :: ps)) with (p ++ sep ++ join sep (q :: ps)).
  rewrite !length_app. lia.
Qed.

(** A longer collection has a serialization at least as long. *)
Lemma length_serialize_cons t ts :
  (List.length (serialize ts) <= List.length (serialize (t :: ts)))%nat.
Proof.
  unfold serialize.
  change (stringify (JArr (map JObj (t :: ts))))
    with (91%N :: join [44%N] (stringify (JObj t) :: map stringify (map JObj ts))
                  ++ [93%N]).
  change (stringify (JArr (map JObj ts)))
    with (91%N :: join [44%N] (map stringify (map JObj ts)) ++ [93%N]).
  cbn [List.length]. rewrite !length_app.
  pose proof (length_join_cons [44%N] (stringify (JObj t))
                (map stringify (map JObj ts))).
  lia.
Qed.

Lemma handleAddTodo_fails w c cs :
  trim (todoInput w) = c :: cs ->
  ~ write_fits (add_mutated (c :: cs) w) ->
  handleAddTodo w = (Normal tt, add_failed (c :: cs) w).
Proof.
  intros Ht Hno. destruct (handleAddTodo_run w c cs Ht) as (w' & E & Hend).
  apply (ends_failed _ _ _ _ _ Hno) in Hend. now subst w'.
Qed.

(** X4.  When the write of an add fails, the method complains and stops:
    the new task is in the collection, but the input keeps its text and the
    list, the counters and the empty-state block stay as they were.
    Submitting again, as the notification asks, fails again, because the
    collection has only grown, and leaves a second task with the same
    text. *)
Theorem failed_add_is_not_shown_and_fails_again (w : World) (c : N) (cs : js_string) :
  trim (todoInput w) = c :: cs ->
  ~ write_fits (add_mutated (c :: cs) w) ->
  let w' := exec handleAddTodo w in
  todos w' = added_todo (c :: cs) w :: todos w
  /\ todoInput w' = todoInput w
  /\ rendered w' = rendered w
  /\ totalTasks w' = totalTasks w /\ completedTasks w' = completedTasks w
  /\ emptyStateShown w' = emptyStateShown w
  /\ ~ write_fits (add_mutated (c :: cs) w')
  /\ todos (exec handleAddTodo w')
     = added_todo (c :: cs) w' :: added_todo (c :: cs) w :: todos w
  /\ get (str "text") (added_todo (c :: cs) w')
     = get (str "text") (added_todo (c :: cs) w).
Proof.
  intros Ht Hno w'. subst w'.
  rewrite (exec_eq _ _ _ _ (handleAddTodo_fails w c cs Ht Hno)).
  set (x := add_failed (c :: cs) w).
  assert (Htx : trim (todoInput x) = c :: cs) by exact Ht.
  assert (Hnox : ~ write_fits (add_mutated (c :: cs) x)).
  { unfold write_fits in *. intros H. apply Hno.
    change (quota (add_mutated (c :: cs) x)) with (quota (add_mutated (c :: cs) w)) in H.
    change (todos (add_mutated (c :: cs) x))
      with (added_todo (c :: cs) x :: todos (add_mutated (c :: cs) w)) in H.
    pose proof (length_serialize_cons (added_todo (c :: cs) x)
                  (todos (add_mutated (c :: cs) w))).
    lia. }
  split; [reflexivity|]. split; [reflexivity|]. split; [reflexivity|].
  split; [reflexivity|]. split; [reflexivity|]. split; [reflexivity|].
  split; [exact Hnox|]. split; [|reflexivity].
  destruct (handleAddTodo_adds x c cs Htx) as (_ & -> & _). reflexivity.
Qed.

(** Two submissions of the same text into the storage that accepts
    nothing. *)
Lemma failed_add_is_not_shown_and_fails_again_witness :
  trim (todoInput full_storage) = str "Buy eggs"
  /\ List.length (todos (exec handleAddTodo (exec handleAddTodo full_storage))) = 4%nat
  /\ rendered (exec handleAddTodo full_storage) = rendered full_storage.
Proof.
  split; [reflexivity|].
  assert (Hno : ~ write_fits (add_mutated (str "Buy eggs") full_storage)).
  { unfold write_fits, serialize.
    change (quota (add_mutated (str "Buy eggs") full_storage)) with 0%N.
    cbn [stringify List.length]. lia. }
  destruct (failed_add_is_not_shown_and_fails_again full_storage 66%N (str "uy eggs")
              eq_refl Hno) as (_ & _ & Hr & _ & _ & _ & _ & H2 & _).
  split; [rewrite H2; reflexivity|exact Hr].
Defined.

(** ** Loading, entry by entry *)

Lemma is_valid_todo_object o :
  is_valid_todo (JObj o) = true
  <-> truthy_opt (get (str "id") o) = true
      /\ exists text, get (str "text") o = Some (JStr text) /\ trim text <> [].
Proof.
  unfold is_valid_todo, prop, typeof. cbn [truthy]. rewrite string_eqb_refl.
  cbn [andb]. rewrite !andb_true_iff. split.
  - intros [[Hid _] Htext].
    destruct (get (str "text") o) as [[| | |text| |]|]; try discriminate.
    split; [exact Hid|]. exists text. split; [reflexivity|].
    intros E. now rewrite E in Htext.
  - intros [Hid (text & -> & Ht)]. repeat split; auto.
    + cbn. destruct text; [now destruct Ht|reflexivity].
    + destruct (trim text); [now destruct Ht|reflexivity].
Qed.

Lemma In_valid_todos o l :
  In o (valid_todos l) <-> In (JObj o) l /\ is_valid_todo (JObj o) = true.
Proof.
  unfold valid_todos. rewrite in_flat_map. split.
  - intros (v & Hv & Ho). apply filter_In in Hv. destruct Hv as [Hin Hvalid].
    destruct v; try contradiction. destruct Ho as [<-|[]]. now split.
  - intros [Hin Hvalid]. exists (JObj o). split; [|now left].
    apply filter_In. now split.
Qed.

Lemma valid_todos_app l1 l2 :
  valid_todos (l1 ++ l2) = valid_todos l1 ++ valid_todos l2.
Proof. unfold valid_todos. now rewrite filter_app, flat_map_app. Qed.

Lemma valid_todos_objects os :
  (forall o, In o os -> is_valid_todo (JObj o) = true) ->
  valid_todos (map JObj os) = os.
Proof.
  unfold valid_todos. induction os as [|o os IH]; intros H; [reflexivity|].
  cbn [map filter]. rewrite (H o (or_introl eq_refl)). cbn [flat_map app].
  rewrite IH; [reflexivity|]. intros o' Ho'. apply H. now right.
Qed.

(** X5.  When the stored payload parses to an array, [loadTodos] completes
    normally, leaves the storage as it is, and sets the collection to the
    entries that are objects with a truthy [id] and a [text] that is a
    string and not blank, in the order of the payload; every other entry is
    dropped without an error.  Loading what was kept once more would keep
    all of it. *)
Theorem load_keeps_exactly_the_valid_entries (w : World) (c : N) (cs : js_string)
    (l : list jsval) :
  storage w = Some (c :: cs) ->
  parse (c :: cs) = Some (JArr l) ->
  loadTodos w = (Normal tt, set_todos (valid_todos l) w)
  /\ (forall o, In o (valid_todos l)
                <-> In (JObj o) l
                    /\ truthy_opt (get (str "id") o) = true
                    /\ exists text, get (str "text") o = Some (JStr text)
                                    /\ trim text <> [])
  /\ (forall l1 l2, l = l1 ++ l2 -> valid_todos l = valid_todos l1 ++ valid_todos l2)
  /\ valid_todos (map JObj (valid_todos l)) = valid_todos l.
Proof.
  intros Hs Hp. split; [now apply (loadTodos_array w c cs)|]. split; [|split].
  - intros o. rewrite In_valid_todos, is_valid_todo_object. reflexivity.
  - intros l1 l2 ->. apply valid_todos_app.
  - apply valid_todos_objects. intros o Ho. now apply In_valid_todos in Ho.
Qed.

Lemma load_keeps_exactly_the_valid_entries_witness :
  exists l,
    parse (requote mixed_payload) = Some (JArr l)
    /\ todos (exec loadTodos (set_storage (Some (requote mixed_payload)) fresh_browser))
       = [ [(str "id", JNum 7 0); (str "text", JStr (str "x")); (str "n", JNum 1 0)];
           [(str "id", JStr (str "c")); (str "text", JStr (str "y"))] ].
Proof.
  destruct (parse (requote mixed_payload)) as [[| | | |l|]|] eqn:E;
    try (vm_compute in E; discriminate E).
  exists l. split; [reflexivity|].
  destruct (load_keeps_exactly_the_valid_entries
              (set_storage (Some (requote mixed_payload)) fresh_browser)
              91%N (tl (requote mixed_payload)) l eq_refl E) as (Hload & _).
  rewrite (exec_eq _ _ _ _ Hload). cbn [todos set_todos].
  vm_compute in E. injection E as <-. vm_compute. reflexivity.
Defined.

Lemma loadTodos_absent w : storage w = None -> loadTodos w = (Normal tt, w).
Proof.
  intros Hs. unfold loadTodos, localStorage_getItem. unfold_monad.
  cbv beta iota zeta. now rewrite Hs.
Qed.

Lemma loadTodos_not_array w c cs v :
  storage w = Some (c :: cs) -> parse (c :: cs) = Some v ->
  (forall l, v <> JArr l) ->
  loadTodos w = (Throw load_error, load_failed w).
Proof.
  intros Hs Hp Hv. unfold loadTodos, localStorage_getItem, localStorage_removeItem.
  unfold_services. unfold_monad. cbv beta iota zeta. rewrite Hs, Hp.
  destruct v; try reflexivity. now destruct (Hv elems).
Qed.

(** X6.  When the stored payload parses to anything but an array (an
    object, a string, a number, a boolean or null), [loadTodos] treats it
    like a payload that does not parse: it removes the slot, empties the
    collection and throws, and [initializeApp] reports the error and
    completes normally. *)
Theorem load_discards_what_is_not_an_array (w : World) (c : N) (cs : js_string)
    (v : jsval) :
  storage w = Some (c :: cs) ->
  parse (c :: cs) = Some v ->
  (forall l, v <> JArr l) ->
  loadTodos w = (Throw load_error, load_failed w)
  /\ storage (exec loadTodos w) = None
  /\ todos (exec loadTodos w) = []
  /\ initializeApp w = (Normal tt, load_reported w).
Proof.
  intros Hs Hp Hv. pose proof (loadTodos_not_array w c cs v Hs Hp Hv) as E.
  rewrite (exec_eq _ _ _ _ E). split; [exact E|].
  split; [reflexivity|]. split; [reflexivity|].
  unfold initializeApp, try_catch. unfold bind at 1. rewrite E. reflexivity.
Qed.

(** A single task object stored where an array is expected. *)
Lemma load_discards_what_is_not_an_array_witness :
  parse (stringify (JObj (task_object milk))) = Some (JObj (task_object milk))
  /\ storage (exec loadTodos
                (set_storage (Some (stringify (JObj (task_object milk)))) two_tasks))
     = None
  /\ todos (exec loadTodos
              (set_storage (Some (stringify (JObj (task_object milk)))) two_tasks))
     = [].
Proof.
  assert (E : parse (stringify (JObj (task_object milk)))
              = Some (JObj (task_object milk))) by (vm_compute; reflexivity).
  split; [exact E|].
  assert (Hv : forall l, JObj (task_object milk) <> JArr l) by discriminate.
  destruct (load_discards_what_is_not_an_array
              (set_storage (Some (stringify (JObj (task_object milk)))) two_tasks)
              123%N (tl (stringify (JObj (task_object milk))))
              (JObj (task_object milk)) eq_refl E Hv) as (_ & H1 & H2 & _).
  split; [exact H1|exact H2].
Defined.

(** ** Starting up *)

Lemma constructor_initializeApp w : constructor w = initializeApp (initial_fields w).
Proof. reflexivity. Qed.

Lemma initializeApp_loaded w w' :
  loadTodos w = (Normal tt, w') -> initializeApp w = (Normal tt, shown w').
Proof.
  intros E. unfold initializeApp, try_catch. unfold bind at 1. rewrite E.
  unfold bind. exact_redraws. reflexivity.
Qed.

Lemma initializeApp_failed w w' e :
  loadTodos w = (Throw e, w') ->
  initializeApp w
  = (Normal tt, reported (str "Error initializing app:")
                  (str "Error loading todos. Please refresh the page.") w').
Proof.
  intros E. unfold initializeApp, try_catch. unfold bind at 1. rewrite E.
  reflexivity.
Qed.

(** [loadTodos] either completes normally or throws its own error. *)
Lemma loadTodos_cases w :
  (exists w', loadTodos w = (Normal tt, w'))
  \/ loadTodos w = (Throw load_error, load_failed w).
Proof.
  destruct (storage w) as [[|c cs]|] eqn:Hs.
  - left. eexists. now apply loadTodos_empty_string.
  - destruct (parse (c :: cs)) as [v|] eqn:Hp.
    + destruct v;
        try (right; apply (loadTodos_not_array w c cs _ Hs Hp); discriminate).
      left. eexists. exact (loadTodos_array w c cs elems Hs Hp).
    + right. now apply (loadTodos_unreadable w c cs).
  - left. eexists. now apply loadTodos_absent.
Qed.

(** X7.  No method lets an exception out: in every world, with any
    argument, the constructor, [initializeApp], the form and button
    handlers and the keyboard handler complete normally. *)
Theorem methods_never_throw (w : World) (id : jsval) (f key : js_string)
    (ctrlKey metaKey : bool) :
  outcome constructor w = Normal tt
  /\ outcome initializeApp w = Normal tt
  /\ outcome handleAddTodo w = Normal tt
  /\ outcome (handleFilterChange f) w = Normal tt
  /\ outcome (toggleTodo id) w = Normal tt
  /\ outcome (editTodo id) w = Normal tt
  /\ outcome saveEdit w = Normal tt
  /\ outcome (deleteTodo id) w = Normal tt
  /\ outcome clearCompleted w = Normal tt
  /\ outcome closeModal w = Normal tt
  /\ outcome (handleKeyboardShortcuts ctrlKey metaKey key) w = Normal tt.
Proof.
  assert (Hinit : forall w0, outcome initializeApp w0 = Normal tt).
  { intros w0. destruct (loadTodos_cases w0) as [[w' E]|E].
    - now rewrite (outcome_eq _ _ _ _ (initializeApp_loaded w0 w' E)).
    - now rewrite (outcome_eq _ _ _ _ (initializeApp_failed w0 _ _ E)). }
  assert (Hadd : forall w0, outcome handleAddTodo w0 = Normal tt).
  { intros w0. destruct (trim (todoInput w0)) as [|c cs] eqn:Ht.
    - now rewrite (outcome_eq _ _ _ _ (handleAddTodo_blank w0 Ht)).
    - now destruct (handleAddTodo_adds w0 c cs Ht). }
  split; [change (outcome initializeApp (initial_fields w) = Normal tt); apply Hinit|].
  split; [apply Hinit|]. split; [apply Hadd|]. split.
  { destruct (list_eq_dec N.eq_dec f (currentFilter w)) as [E|E].
    - now rewrite (outcome_eq _ _ _ _ (handleFilterChange_same f w E)).
    - now rewrite (outcome_eq _ _ _ _ (handleFilterChange_exact f w E)). }
  split.
  { destruct (Array_find (has_id id) (todos w)) as [i|] eqn:Hf.
    - now destruct (toggleTodo_found id i w Hf).
    - now rewrite (outcome_eq _ _ _ _ (toggleTodo_absent id w Hf)). }
  split.
  { destruct (editTodo_run id w) as (w' & E & _).
    now rewrite (outcome_eq _ _ _ _ E). }
  split.
  { destruct (trim (editInput w)) as [|c cs] eqn:Ht.
    { now rewrite (outcome_eq _ _ _ _ (saveEdit_blank w Ht)). }
    destruct (editingIndex w) as [index|] eqn:He.
    2:{ rewrite (outcome_eq _ _ _ _ (saveEdit_no_index w ltac:(now rewrite He))).
        reflexivity. }
    destruct (Z.lt_ge_cases index 0) as [Hi|Hi].
    { rewrite (outcome_eq _ _ _ _ (saveEdit_no_index w ltac:(now rewrite He))).
      reflexivity. }
    destruct (nth_error (todos w) (Z.to_nat index)) as [t|] eqn:Hn.
    - destruct (saveEdit_run w c cs index t Ht He Hi Hn) as (w' & E & _).
      now rewrite (outcome_eq _ _ _ _ E).
    - now rewrite (outcome_eq _ _ _ _ (saveEdit_out_of_range w c cs index Ht He Hi Hn)). }
  split.
  { destruct (Array_find (has_id id) (todos w)) as [i|] eqn:Hf.
    - destruct (confirms w (confirm_calls w)) eqn:Hc.
      + now destruct (deleteTodo_confirmed id i w Hf Hc).
      + now rewrite (outcome_eq _ _ _ _ (deleteTodo_declined id i w Hf Hc)).
    - now rewrite (outcome_eq _ _ _ _ (deleteTodo_absent id w Hf)). }
  split.
  { destruct (Nat.eq_dec (completed_count w) 0) as [Hz|Hz].
    - now rewrite (outcome_eq _ _ _ _ (clearCompleted_none w Hz)).
    - destruct (confirms w (confirm_calls w)) eqn:Hc.
      + now destruct (clearCompleted_confirmed w Hz Hc).
      + now rewrite (outcome_eq _ _ _ _ (clearCompleted_declined w Hz Hc)). }
  split; [reflexivity|].
  unfold handleKeyboardShortcuts.
  destruct (ctrlKey || metaKey); [|reflexivity].
  destruct (Str.eqb key (str "Enter")); [apply Hadd|].
  destruct (Str.eqb key (str "Escape")); reflexivity.
Qed.

Lemma constructor_loaded w w' :
  loadTodos (initial_fields w) = (Normal tt, w') ->
  constructor w = (Normal tt, shown w').
Proof. intros E. rewrite constructor_initializeApp. now apply initializeApp_loaded. Qed.

(** The fields of the model after the three redraws. *)
Lemma shown_fields w :
  todos (shown w) = todos w /\ currentFilter (shown w) = currentFilter w
  /\ editingIndex (shown w) = editingIndex w /\ storage (shown w) = storage w
  /\ effects (shown w) = effects w /\ rendered (shown w) = filtered w.
Proof.
  pose proof (model_shown w) as Hm.
  rewrite (model_todos _ _ Hm), (model_currentFilter _ _ Hm),
    (model_editingIndex _ _ Hm), (model_storage _ _ Hm), (model_effects _ _ Hm).
  repeat split. destruct (up_to_date_shown w) as (Hr & _).
  rewrite Hr. apply model_filtered, model_shown.
Qed.

Lemma array_or_not (r : option jsval) :
  (exists l, r = Some (JArr l)) \/ (forall l, r <> Some (JArr l)).
Proof.
  destruct r as [[| | | |l|]|]; try (right; discriminate). left. now exists l.
Qed.

Lemma loadTodos_rejected w c cs :
  storage w = Some (c :: cs) ->
  (forall l, parse (c :: cs) <> Some (JArr l)) ->
  loadTodos w = (Throw load_error, load_failed w).
Proof.
  intros Hs Hna. destruct (parse (c :: cs)) as [v|] eqn:Hp.
  - apply (loadTodos_not_array w c cs v Hs Hp). intros l ->. now destruct (Hna l).
  - now apply (loadTodos_unreadable w c cs).
Qed.

(** X8.  The constructor sets the filter to [all] and closes any edit.
    With no stored payload, or an empty one, it starts with an empty
    collection; with a payload that parses to an array, with the valid
    entries of the array; in both cases it leaves the storage and the
    notifications alone and draws the screen afresh, the list holding the
    whole collection.  With any other payload it starts with an empty
    collection and an emptied slot, reports the error, and does not redraw
    the list. *)
Theorem startup_loads_and_draws (w : World) :
  let w' := exec constructor w in
  currentFilter w' = str "all" /\ editingIndex w' = None
  /\ (storage w = None \/ storage w = Some [] ->
      todos w' = [] /\ rendered w' = [] /\ storage w' = storage w
      /\ effects w' = effects w /\ up_to_date w')
  /\ (forall c cs l,
        storage w = Some (c :: cs) -> parse (c :: cs) = Some (JArr l) ->
        todos w' = valid_todos l /\ rendered w' = valid_todos l
        /\ storage w' = storage w /\ effects w' = effects w /\ up_to_date w')
  /\ (forall c cs,
        storage w = Some (c :: cs) ->
        (forall l, parse (c :: cs) <> Some (JArr l)) ->
        todos w' = [] /\ storage w' = None /\ rendered w' = rendered w
        /\ effects w'
           = Notification (str "Error loading todos. Please refresh the page.")
               (str "error")
             :: ConsoleError (str "Error initializing app:")
             :: ConsoleError (str "Error loading from localStorage:")
             :: effects w).
Proof.
  intros w'. subst w'.
  assert (Hok : forall x,
             loadTodos (initial_fields w) = (Normal tt, x) ->
             currentFilter x = str "all" -> editingIndex x = None ->
             currentFilter (exec constructor w) = str "all"
             /\ editingIndex (exec constructor w) = None
             /\ todos (exec constructor w) = todos x
             /\ rendered (exec constructor w) = todos x
             /\ storage (exec constructor w) = storage x
             /\ effects (exec constructor w) = effects x
             /\ up_to_date (exec constructor w)).
  { intros x E Hf He. rewrite (exec_eq _ _ _ _ (constructor_loaded w x E)).
    destruct (shown_fields x) as (-> & -> & -> & -> & -> & ->).
    repeat split; auto; [|apply up_to_date_shown].
    unfold filtered. now rewrite Hf. }
  assert (Hbad : loadTodos (initial_fields w)
                 = (Throw load_error, load_failed (initial_fields w)) ->
                 currentFilter (exec constructor w) = str "all"
                 /\ editingIndex (exec constructor w) = None
                 /\ exec constructor w = load_reported (initial_fields w)).
  { intros E. pose proof (initializeApp_failed _ _ _ E) as E'.
    change (initializeApp (initial_fields w)) with (constructor w) in E'.
    rewrite (exec_eq _ _ _ _ E'). repeat split. }
  destruct (storage w) as [[|c cs]|] eqn:Hs.
  - destruct (Hok _ (loadTodos_empty_string (initial_fields w) Hs) eq_refl eq_refl)
      as (H1 & H2 & H3 & H4 & H5 & H6 & H7).
    split; [exact H1|]. split; [exact H2|]. split; [|split]; try discriminate.
    intros _. rewrite H3, H4, H5, H6.
    split; [reflexivity|]. split; [reflexivity|]. split; [exact Hs|].
    split; [reflexivity|exact H7].
  - destruct (array_or_not (parse (c :: cs))) as [[l Hp]|Hna].
    + destruct (Hok _ (loadTodos_array (initial_fields w) c cs l Hs Hp)
                  eq_refl eq_refl) as (H1 & H2 & H3 & H4 & H5 & H6 & H7).
      split; [exact H1|]. split; [exact H2|].
      split; [intros [H|H]; discriminate H|]. split.
      * intros c' cs' l' Hc Hl. injection Hc as <- <-. rewrite Hp in Hl.
        injection Hl as <-. rewrite H3, H4, H5, H6.
        split; [reflexivity|]. split; [reflexivity|]. split; [exact Hs|].
        split; [reflexivity|exact H7].
      * intros c' cs' Hc Hl. injection Hc as <- <-. now destruct (Hl l).
    + destruct (Hbad (loadTodos_rejected (initial_fields w) c cs Hs Hna))
        as (H1 & H2 & H3).
      split; [exact H1|]. split; [exact H2|].
      split; [intros [H|H]; discriminate H|]. split.
      * intros c' cs' l' Hc Hl. injection Hc as <- <-. now destruct (Hna l').
      * intros c' cs' _ _. rewrite H3. repeat split.
  - destruct (Hok _ (loadTodos_absent (initial_fields w) Hs) eq_refl eq_refl)
      as (H1 & H2 & H3 & H4 & H5 & H6 & H7).
    split; [exact H1|]. split; [exact H2|]. split; [|split]; try discriminate.
    intros _. rewrite H3, H4, H5, H6.
    split; [reflexivity|]. split; [reflexivity|]. split; [exact Hs|].
    split; [reflexivity|exact H7].
Qed.

(** Starting on the storage that the session with two tasks left, and on
    an empty storage with another filter selected. *)
Lemma startup_loads_and_draws_witness :
  todos (exec constructor declining_user) = todos two_tasks
  /\ rendered (exec constructor declining_user) = todos two_tasks
  /\ up_to_date (exec constructor (set_currentFilter (str "completed") fresh_browser)).
Proof.
  destruct (startup_loads_and_draws declining_user) as (_ & _ & _ & H & _).
  assert (E : parse (91%N :: tl (serialize (todos two_tasks)))
              = Some (JArr (map JObj (todos two_tasks)))) by (vm_compute; reflexivity).
  destruct (H 91%N (tl (serialize (todos two_tasks))) (map JObj (todos two_tasks))
              eq_refl E) as (H1 & H2 & _).
  split; [rewrite H1; vm_compute; reflexivity|].
  split; [rewrite H2; vm_compute; reflexivity|].
  destruct (startup_loads_and_draws (set_currentFilter (str "completed") fresh_browser))
    as (_ & _ & H0 & _).
  now destruct (H0 (or_introl eq_refl)) as (_ & _ & _ & _ & Hf).
Defined.

(** ** Reloading the page *)

(** The fields of the world the constructor leaves when [loadTodos]
    completes normally. *)
Lemma constructor_loaded_fields w x :
  loadTodos (initial_fields w) = (Normal tt, x) ->
  currentFilter x = str "all" ->
  let w' := exec constructor w in
  currentFilter w' = str "all" /\ editingIndex w' = editingIndex x
  /\ todos w' = todos x /\ rendered w' = todos x
  /\ storage w' = storage x /\ effects w' = effects x /\ up_to_date w'.
Proof.
  intros E Hf w'. subst w'. rewrite (exec_eq _ _ _ _ (constructor_loaded w x E)).
  destruct (shown_fields x) as (-> & -> & -> & -> & -> & ->).
  repeat split; auto; [|apply up_to_date_shown].
  unfold filtered. now rewrite Hf.
Qed.

Lemma serialize_bracket ts : serialize ts = 91%N :: tl (serialize ts).
Proof. reflexivity. Qed.

(** X9.  A page that starts on the storage a session of valid tasks wrote
    gets that session back: the collection is the one written, in order, all
    of it is listed whatever filter the session ended with, the counters
    hold its sizes, no edit is open, and nothing is written or notified. *)
Theorem reload_restores_saved_session (w w0 : World) :
  task_store w ->
  storage w0 = Some (serialize (todos w)) ->
  let w' := exec constructor w0 in
  todos w' = todos w /\ rendered w' = todos w
  /\ totalTasks w' = List.length (todos w)
  /\ completedTasks w' = completed_count w
  /\ emptyStateShown w' = negb (0 <? List.length (todos w))%nat
  /\ currentFilter w' = str "all" /\ editingIndex w' = None
  /\ storage w' = storage w0 /\ effects w' = effects w0.
Proof.
  intros (ts & Hts & Hv) Hs w'. subst w'.
  rewrite serialize_bracket in Hs.
  assert (Hp : parse (91%N :: tl (serialize (todos w)))
               = Some (JArr (map JObj (todos w)))).
  { rewrite <- serialize_bracket, Hts. apply parse_serialize_tasks. }
  pose proof (loadTodos_array (initial_fields w0) _ _ _ Hs Hp) as E.
  destruct (constructor_loaded_fields w0 _ E eq_refl)
    as (H1 & H2 & H3 & H4 & H5 & H6 & (_ & F2 & F3 & F4)).
  cbn [todos set_todos] in H3, H4.
  assert (Hvt : valid_todos (map JObj (todos w)) = todos w).
  { rewrite Hts. now apply valid_todos_tasks. }
  rewrite Hvt in H3, H4.
  assert (Hc : completed_count (exec constructor w0) = completed_count w).
  { unfold completed_count. now rewrite H3. }
  assert (He : empty_state (exec constructor w0)
               = negb (0 <? List.length (todos w))%nat).
  { unfold empty_state, filtered. rewrite H1, H3. cbn [Str.eqb].
    now rewrite orb_diag. }
  rewrite F2, F3, F4, H3, Hc, He.
  split; [reflexivity|]. split; [exact H4|]. split; [reflexivity|].
  split; [reflexivity|]. split; [reflexivity|]. split; [exact H1|].
  split; [exact H2|]. split; [exact H5|exact H6].
Qed.

(** The session with two tasks, saved with the filter [completed]
    selected, and reloaded. *)
Lemma reload_restores_saved_session_witness :
  todos (exec constructor
           (exec saveTodos (set_currentFilter (str "completed") two_tasks)))
  = todos two_tasks
  /\ rendered (exec constructor
                 (exec saveTodos (set_currentFilter (str "completed") two_tasks)))
     = todos two_tasks.
Proof.
  assert (Hst : task_store two_tasks).
  { exists [milk; bread]. split; reflexivity. }
  assert (Hs : storage (exec saveTodos (set_currentFilter (str "completed") two_tasks))
               = Some (serialize (todos two_tasks))) by (vm_compute; reflexivity).
  destruct (reload_restores_saved_session two_tasks _ Hst Hs) as (H1 & H2 & _).
  split; [exact H1|exact H2].
Defined.

(** ** The edit dialog *)

Lemma editTodo_exact id i w :
  Array_find (has_id id) (todos w) = Some i ->
  editTodo id w = (Normal tt, edit_opened i w).
Proof.
  intros H. unfold editTodo. unfold_services. unfold_monad. cbv beta iota zeta.
  rewrite H. reflexivity.
Qed.

Lemma editTodo_absent id w :
  Array_find (has_id id) (todos w) = None -> editTodo id w = (Normal tt, w).
Proof.
  intros H. unfold editTodo. unfold_services. unfold_monad. cbv beta iota zeta.
  rewrite H. reflexivity.
Qed.

Lemma saveEdit_fails w c cs index t :
  trim (editInput w) = c :: cs ->
  editingIndex w = Some index -> (0 <= index)%Z ->
  nth_error (todos w) (Z.to_nat index) = Some t ->
  ~ write_fits (edit_mutated (c :: cs) (Z.to_nat index) w) ->
  saveEdit w = (Normal tt, edit_failed (c :: cs) (Z.to_nat index) w).
Proof.
  intros Ht He Hi Hn Hno.
  destruct (saveEdit_run w c cs index t Ht He Hi Hn) as (w' & E & Hend).
  apply (ends_failed _ _ _ _ _ Hno) in Hend. now subst w'.
Qed.

Lemma nth_error_edit_mutated newText i w t :
  nth_error (todos w) i = Some t ->
  nth_error (todos (edit_mutated newText i w)) i
  = Some (edited (toISOString (clock w (clock_reads w))) newText t).
Proof.
  intros Hn. rewrite edit_mutated_todos, nth_error_update_nth_same. now rewrite Hn.
Qed.

(** The array after a [saveEdit] that reached the write. *)
Lemma saveEdit_reached w c cs index t :
  trim (editInput w) = c :: cs ->
  editingIndex w = Some index -> (0 <= index)%Z ->
  nth_error (todos w) (Z.to_nat index) = Some t ->
  outcome saveEdit w = Normal tt
  /\ todos (exec saveEdit w) = todos (edit_mutated (c :: cs) (Z.to_nat index) w).
Proof.
  intros Ht He Hi Hn.
  destruct (saveEdit_run w c cs index t Ht He Hi Hn) as (w' & E & Hend).
  rewrite (exec_eq _ _ _ _ E), (outcome_eq _ _ _ _ E). split; [reflexivity|].
  exact (ends_todos (edit_mutated (c :: cs) (Z.to_nat index) w)
           (edit_done (c :: cs) (Z.to_nat index) w) _ _ w' eq_refl Hend).
Qed.

(** X10.  After [closeModal], and after Escape with Ctrl or Meta held,
    saving does nothing whatever is typed into the dialog, because no index
    is left.  A [saveEdit] whose write went through closes the dialog the
    same way, so that saving again does nothing.  A [saveEdit] whose write
    failed leaves the dialog open on the same index with the text typed, and
    the list on screen as it was, although the task in the collection
    carries the new text. *)
Theorem dialog_closes_on_cancel_and_on_saved_edit (w : World) :
  (forall text,
     saveEdit (set_editInput text (exec closeModal w))
     = (Normal tt, set_editInput text (exec closeModal w)))
  /\ (forall ctrlKey metaKey,
        ctrlKey || metaKey = true ->
        handleKeyboardShortcuts ctrlKey metaKey (str "Escape") w = closeModal w)
  /\ (forall c cs index t,
        trim (editInput w) = c :: cs ->
        editingIndex w = Some index -> (0 <= index)%Z ->
        nth_error (todos w) (Z.to_nat index) = Some t ->
        let w' := exec saveEdit w in
        (write_fits (edit_mutated (c :: cs) (Z.to_nat index) w) ->
         saveEdit w' = (Normal tt, w'))
        /\ (~ write_fits (edit_mutated (c :: cs) (Z.to_nat index) w) ->
            modalShown w' = modalShown w /\ editingIndex w' = Some index
            /\ editInput w' = editInput w /\ rendered w' = rendered w
            /\ nth_error (todos w') (Z.to_nat index)
               = Some (edited (toISOString (clock w (clock_reads w))) (c :: cs) t))).
Proof.
  split; [|split].
  - intros text. now apply saveEdit_no_index.
  - intros ctrlKey metaKey H. unfold handleKeyboardShortcuts. now rewrite H.
  - intros c cs index t Ht He Hi Hn w'. subst w'. split.
    + intros Hfit.
      rewrite (exec_eq _ _ _ _ (saveEdit_exact w c cs index t Ht He Hi Hn Hfit)).
      now apply saveEdit_blank.
    + intros Hno.
      rewrite (exec_eq _ _ _ _ (saveEdit_fails w c cs index t Ht He Hi Hn Hno)).
      split; [reflexivity|]. split; [exact He|]. split; [reflexivity|].
      split; [reflexivity|].
      change (todos (edit_failed (c :: cs) (Z.to_nat index) w))
        with (todos (edit_mutated (c :: cs) (Z.to_nat index) w)).
      now apply nth_error_edit_mutated.
Qed.

(** Cancelling the dialog of [editing_first] and saving, and saving into
    the storage that accepts nothing. *)
Lemma dialog_closes_on_cancel_and_on_saved_edit_witness :
  todos (exec saveEdit (set_editInput (str "Buy oat milk") (exec closeModal editing_first)))
  = todos two_tasks
  /\ saveEdit (exec saveEdit editing_first) = (Normal tt, exec saveEdit editing_first)
  /\ editingIndex (exec saveEdit full_storage) = Some 0%Z.
Proof.
  destruct (dialog_closes_on_cancel_and_on_saved_edit editing_first) as (H1 & _ & H3).
  destruct (dialog_closes_on_cancel_and_on_saved_edit full_storage) as (_ & _ & H4).
  assert (Hi : (0 <= 0)%Z) by lia.
  split; [rewrite (exec_eq _ _ _ _ (H1 (str "Buy oat milk"))); reflexivity|].
  split.
  - apply (H3 66%N (str "uy oat milk") 0%Z (task_object milk) eq_refl eq_refl Hi eq_refl).
    unfold write_fits. vm_compute. discriminate.
  - apply (H4 66%N (str "uy oat milk") 0%Z (task_object milk) eq_refl eq_refl Hi eq_refl).
    unfold write_fits. vm_compute. intros H. now apply H.
Defined.

Lemma handleAddTodo_keeps_index w : editingIndex (exec handleAddTodo w) = editingIndex w.
Proof.
  destruct (trim (todoInput w)) as [|c cs] eqn:Ht.
  - now rewrite (exec_eq _ _ _ _ (handleAddTodo_blank w Ht)).
  - destruct (handleAddTodo_run w c cs Ht) as (w' & E & Hend).
    rewrite (exec_eq _ _ _ _ E).
    exact (ends_field editingIndex (add_mutated (c :: cs) w) (add_done (c :: cs) w) _ _ w'
             (fun _ => eq_refl) (fun _ _ _ => eq_refl) eq_refl Hend).
Qed.

Lemma handleAddTodo_keeps_clock w : clock (exec handleAddTodo w) = clock w.
Proof.
  destruct (trim (todoInput w)) as [|c cs] eqn:Ht.
  - now rewrite (exec_eq _ _ _ _ (handleAddTodo_blank w Ht)).
  - destruct (handleAddTodo_run w c cs Ht) as (w' & E & Hend).
    rewrite (exec_eq _ _ _ _ E).
    exact (ends_field clock (add_mutated (c :: cs) w) (add_done (c :: cs) w) _ _ w'
             (fun _ => eq_refl) (fun _ _ _ => eq_refl) eq_refl Hend).
Qed.

(** X11.  The dialog remembers the position of the task it was opened on,
    not the task.  When a task is added while the dialog is open (Enter
    with Ctrl held submits the form), the new task takes the front, every
    other task moves one position down, and the position stays: saving
    then changes the task that now sits at the remembered position, the new
    task or the one that preceded the task being edited, and leaves the
    task the dialog was opened on as it was. *)
Theorem add_while_editing_moves_the_edit (w : World) (id : jsval) (i : nat)
    (t : js_object) (c d : N) (cs ds newText : js_string) :
  Array_find (has_id id) (todos w) = Some i ->
  nth_error (todos w) i = Some t ->
  trim (todoInput w) = c :: cs ->
  trim newText = d :: ds ->
  let w1 := exec (editTodo id) w in
  let w2 := exec (handleKeyboardShortcuts true false (str "Enter")) w1 in
  let w3 := exec saveEdit (set_editInput newText w2) in
  editingIndex w2 = Some (Z.of_nat i)
  /\ todos w2 = added_todo (c :: cs) w1 :: todos w
  /\ nth_error (todos w3) (S i) = Some t
  /\ exists u,
       nth_error (added_todo (c :: cs) w1 :: todos w) i = Some u
       /\ nth_error (todos w3) i
          = Some (edited (toISOString (clock w2 (clock_reads w2))) (d :: ds) u).
Proof.
  intros Hf Hn Ht Hd w1 w2 w3.
  assert (E1 : w1 = edit_opened i w)
    by (subst w1; now rewrite (exec_eq _ _ _ _ (editTodo_exact id i w Hf))).
  assert (Ht1 : trim (todoInput w1) = c :: cs) by (rewrite E1; exact Ht).
  assert (T1 : todos w1 = todos w) by (rewrite E1; reflexivity).
  assert (I1 : editingIndex w1 = Some (Z.of_nat i)) by (rewrite E1; reflexivity).
  assert (E2 : w2 = exec handleAddTodo w1) by reflexivity.
  assert (T2 : todos w2 = added_todo (c :: cs) w1 :: todos w).
  { rewrite E2, <- T1. now destruct (handleAddTodo_adds w1 c cs Ht1) as (_ & -> & _). }
  assert (I2 : editingIndex w2 = Some (Z.of_nat i))
    by (rewrite E2, handleAddTodo_keeps_index; exact I1).
  assert (Hlt : (i < List.length (added_todo (c :: cs) w1 :: todos w))%nat).
  { cbn [List.length]. apply Nat.lt_lt_succ_r. apply nth_error_Some. now rewrite Hn. }
  destruct (nth_error (added_todo (c :: cs) w1 :: todos w) i) as [u|] eqn:Hu;
    [|apply nth_error_Some in Hlt; now destruct Hlt].
  set (x := set_editInput newText w2).
  assert (Hux : nth_error (todos x) (Z.to_nat (Z.of_nat i)) = Some u).
  { rewrite Nat2Z.id. change (todos x) with (todos w2). now rewrite T2. }
  destruct (saveEdit_reached x d ds (Z.of_nat i) u Hd I2 (Nat2Z.is_nonneg i) Hux)
    as (_ & T3).
  change (exec saveEdit x) with w3 in T3. rewrite Nat2Z.id in T3, Hux. rewrite edit_mutated_todos in T3.
  change (todos x) with (todos w2) in T3, Hux.
  change (clock x (clock_reads x)) with (clock w2 (clock_reads w2)) in T3.
  split; [exact I2|]. split; [exact T2|]. split.
  - rewrite T3, nth_error_update_nth_other by lia. rewrite T2. exact Hn.
  - exists u. split; [reflexivity|].
    rewrite T3, nth_error_update_nth_same. now rewrite Hux.
Qed.

(** The new task carries the text of the edit and [milk] is as it was. *)
Lemma add_while_editing_moves_the_edit_witness :
  nth_error (todos added_during_edit) 1 = Some (task_object milk)
  /\ option_map (get (str "text")) (nth_error (todos added_during_edit) 0)
     = Some (Some (JStr (str "Buy oat milk"))).
Proof.
  destruct (add_while_editing_moves_the_edit
              (set_todoInput (str "Buy eggs") two_tasks) (JStr (task_id milk)) 0%nat
              (task_object milk) 66%N 66%N (str "uy eggs") (str "uy oat milk")
              (str "Buy oat milk") eq_refl eq_refl eq_refl eq_refl)
    as (_ & _ & H1 & u & Hu & H2).
  split; [exact H1|].
  unfold added_during_edit. rewrite H2. now injection Hu as <-.
Defined.

(** Whether the write fits depends on the array, the clock and the quota
    only. *)
Lemma write_fits_edit_mutated newText i w w0 :
  todos w0 = todos w -> quota w0 = quota w ->
  clock w0 = clock w -> clock_reads w0 = clock_reads w ->
  write_fits (edit_mutated newText i w) -> write_fits (edit_mutated newText i w0).
Proof.
  unfold write_fits. rewrite !edit_mutated_todos. intros -> Hq -> ->.
  change (quota (edit_mutated newText i w)) with (quota w).
  change (quota (edit_mutated newText i w0)) with (quota w0).
  now rewrite Hq.
Qed.

(** X12.  [edit] of a task that is there, with a text that is not blank:
    the dialog opens with the task's text in its input; saving gives the
    task the trimmed text and the date of the clock reading taken as
    [updatedAt], and leaves its other properties, [id], [completed] and
    [createdAt] among them, as they were.  When the write goes through, the
    storage holds the collection, and the dialog is closed. *)
Theorem edit_sets_trimmed_text (w : World) (id : jsval) (i : nat) (t : js_object)
    (newText : js_string) (c : N) (cs : js_string) :
  Array_find (has_id id) (todos w) = Some i ->
  nth_error (todos w) i = Some t ->
  trim newText = c :: cs ->
  let w' := exec (edit id newText) w in
  let t' := edited (toISOString (clock w (clock_reads w))) (c :: cs) t in
  outcome (edit id newText) w = Normal tt
  /\ editInput (exec (editTodo id) w) = dom_string (get (str "text") t)
  /\ nth_error (todos w') i = Some t'
  /\ get (str "text") t' = Some (JStr (c :: cs))
  /\ get (str "updatedAt") t' = Some (JStr (toISOString (clock w (clock_reads w))))
  /\ (forall k, k <> str "text" -> k <> str "updatedAt" -> get k t' = get k t)
  /\ (write_fits (edit_mutated (c :: cs) i w) ->
      storage w' = Some (serialize (todos w'))
      /\ editingIndex w' = None /\ modalShown w' = false).
Proof.
  intros Hf Hn Ht w' t'.
  pose proof (editTodo_exact id i w Hf) as E1.
  set (x := set_editInput newText (edit_opened i w)).
  assert (Ew : edit id newText w = saveEdit x).
  { unfold edit. unfold bind at 1. rewrite E1. reflexivity. }
  assert (Hnx : nth_error (todos x) (Z.to_nat (Z.of_nat i)) = Some t)
    by (rewrite Nat2Z.id; exact Hn).
  assert (Htx : trim (editInput x) = c :: cs) by exact Ht.
  assert (Hix : editingIndex x = Some (Z.of_nat i)) by reflexivity.
  destruct (saveEdit_reached x c cs (Z.of_nat i) t Htx Hix (Nat2Z.is_nonneg i) Hnx)
    as (Ho & T).
  assert (Hw' : w' = exec saveEdit x) by (subst w'; unfold exec; now rewrite Ew).
  split; [unfold outcome; rewrite Ew; exact Ho|].
  split.
  { rewrite (exec_eq _ _ _ _ E1). cbn [editInput edit_opened set_modalShown set_editInput].
    unfold text_at. now rewrite Hn. }
  split.
  { rewrite Hw', T, Nat2Z.id. rewrite (nth_error_edit_mutated (c :: cs) i x t Hn).
    reflexivity. }
  split; [subst t'; unfold edited; rewrite get_set_other by discriminate;
          apply get_set_same|].
  split; [subst t'; unfold edited; apply get_set_same|].
  split.
  { intros k Hk1 Hk2. subst t'. unfold edited.
    rewrite !get_set_other; auto. }
  intros Hfit.
  assert (Hfx : write_fits (edit_mutated (c :: cs) (Z.to_nat (Z.of_nat i)) x)).
  { rewrite Nat2Z.id. apply (write_fits_edit_mutated _ _ w x); auto. }
  rewrite Hw'.
  rewrite (exec_eq _ _ _ _
             (saveEdit_exact x c cs (Z.of_nat i) t Htx Hix (Nat2Z.is_nonneg i) Hnx Hfx)).
  pose proof (model_rendered_world
                (saved (edit_mutated (c :: cs) (Z.to_nat (Z.of_nat i)) x))) as Hm.
  split; [|split; reflexivity].
  change (storage (edit_shown (c :: cs) (Z.to_nat (Z.of_nat i)) x))
    with (storage (rendered_world
                     (saved (edit_mutated (c :: cs) (Z.to_nat (Z.of_nat i)) x)))).
  change (todos (edit_shown (c :: cs) (Z.to_nat (Z.of_nat i)) x))
    with (todos (rendered_world
                   (saved (edit_mutated (c :: cs) (Z.to_nat (Z.of_nat i)) x)))).
  rewrite (model_storage _ _ Hm), (model_todos _ _ Hm). reflexivity.
Qed.

(** Editing the first of two tasks with a text padded with blanks. *)
Lemma edit_sets_trimmed_text_witness :
  option_map (get (str "text"))
    (nth_error (todos (exec (edit (JStr (task_id milk)) (str "  Buy oat milk ")) two_tasks)) 0)
  = Some (Some (JStr (str "Buy oat milk")))
  /\ editInput (exec (editTodo (JStr (task_id milk))) two_tasks) = str "Buy milk".
Proof.
  destruct (edit_sets_trimmed_text two_tasks (JStr (task_id milk)) 0%nat
              (task_object milk) (str "  Buy oat milk ") 66%N (str "uy oat milk")
              eq_refl eq_refl eq_refl) as (_ & H1 & H2 & H3 & _).
  split; [rewrite H2; cbn [option_map]; now rewrite H3|exact H1].
Defined.

(** ** Sessions *)

Lemma handleAddTodo_step w :
  outcome handleAddTodo w = Normal tt /\ step_todos w (todos (exec handleAddTodo w)).
Proof.
  destruct (trim (todoInput w)) as [|c cs] eqn:Ht.
  - rewrite (exec_eq _ _ _ _ (handleAddTodo_blank w Ht)),
      (outcome_eq _ _ _ _ (handleAddTodo_blank w Ht)).
    split; [reflexivity|constructor].
  - destruct (handleAddTodo_adds w c cs Ht) as (Ho & -> & _).
    split; [exact Ho|now constructor].
Qed.

Lemma closeModal_step w :
  outcome closeModal w = Normal tt /\ step_todos w (todos (exec closeModal w)).
Proof. split; [reflexivity|exact (step_same w)]. Qed.

Lemma listener_step e w :
  outcome (listener e) w = Normal tt /\ step_todos w (todos (exec (listener e) w)).
Proof.
  destruct e as [text| |f|id|id|text| | |id| |ctrlKey metaKey key]; cbn [listener].
  - split; [reflexivity|exact (step_same w)].
  - apply handleAddTodo_step.
  - destruct (list_eq_dec N.eq_dec f (currentFilter w)) as [E|E].
    + rewrite (exec_eq _ _ _ _ (handleFilterChange_same f w E)),
        (outcome_eq _ _ _ _ (handleFilterChange_same f w E)).
      split; [reflexivity|exact (step_same w)].
    + rewrite (exec_eq _ _ _ _ (handleFilterChange_exact f w E)),
        (outcome_eq _ _ _ _ (handleFilterChange_exact f w E)).
      split; [reflexivity|].
      rewrite (model_todos _ _ (model_rendered_world (set_currentFilter f w))).
      exact (step_same w).
  - destruct (Array_find (has_id id) (todos w)) as [i|] eqn:Hf.
    + destruct (toggleTodo_found id i w Hf) as (Ho & -> & _).
      split; [exact Ho|]. unfold toggle_mutated. cbn [todos set_todos].
      apply step_toggled.
    + rewrite (exec_eq _ _ _ _ (toggleTodo_absent id w Hf)),
        (outcome_eq _ _ _ _ (toggleTodo_absent id w Hf)).
      split; [reflexivity|exact (step_same w)].
  - destruct (editTodo_run id w) as (w' & E & Ht & _).
    rewrite (exec_eq _ _ _ _ E), (outcome_eq _ _ _ _ E), Ht.
    split; [reflexivity|exact (step_same w)].
  - split; [reflexivity|exact (step_same w)].
  - split.
    + destruct (trim (editInput w)) as [|c cs] eqn:Ht.
      { now rewrite (outcome_eq _ _ _ _ (saveEdit_blank w Ht)). }
      destruct (editingIndex w) as [index|] eqn:He.
      2:{ rewrite (outcome_eq _ _ _ _ (saveEdit_no_index w ltac:(now rewrite He))).
          reflexivity. }
      destruct (Z.lt_ge_cases index 0) as [Hi|Hi].
      { rewrite (outcome_eq _ _ _ _ (saveEdit_no_index w ltac:(now rewrite He))).
        reflexivity. }
      destruct (nth_error (todos w) (Z.to_nat index)) as [t|] eqn:Hn.
      * now destruct (saveEdit_reached w c cs index t Ht He Hi Hn).
      * now rewrite (outcome_eq _ _ _ _ (saveEdit_out_of_range w c cs index Ht He Hi Hn)).
    + destruct (saveEdit_todos w) as [->|(c & cs & index & Ht & _ & _ & ->)];
        [apply step_same|].
      apply step_edited. exact (trim_fixed _ c cs Ht).
  - apply closeModal_step.
  - destruct (Array_find (has_id id) (todos w)) as [i|] eqn:Hf.
    + destruct (confirms w (confirm_calls w)) eqn:Hc.
      * destruct (deleteTodo_confirmed id i w Hf Hc) as (Ho & -> & _).
        split; [exact Ho|apply step_filtered].
      * rewrite (exec_eq _ _ _ _ (deleteTodo_declined id i w Hf Hc)),
          (outcome_eq _ _ _ _ (deleteTodo_declined id i w Hf Hc)).
        split; [reflexivity|exact (step_same w)].
    + rewrite (exec_eq _ _ _ _ (deleteTodo_absent id w Hf)),
        (outcome_eq _ _ _ _ (deleteTodo_absent id w Hf)).
      split; [reflexivity|exact (step_same w)].
  - destruct (Nat.eq_dec (completed_count w) 0) as [Hz|Hz].
    + rewrite (exec_eq _ _ _ _ (clearCompleted_none w Hz)),
        (outcome_eq _ _ _ _ (clearCompleted_none w Hz)).
      split; [reflexivity|exact (step_same w)].
    + destruct (confirms w (confirm_calls w)) eqn:Hc.
      * destruct (clearCompleted_confirmed w Hz Hc) as (Ho & -> & _).
        split; [exact Ho|apply step_filtered].
      * rewrite (exec_eq _ _ _ _ (clearCompleted_declined w Hz Hc)),
          (outcome_eq _ _ _ _ (clearCompleted_declined w Hz Hc)).
        split; [reflexivity|exact (step_same w)].
  - unfold handleKeyboardShortcuts.
    destruct (ctrlKey || metaKey); [|split; [reflexivity|exact (step_same w)]].
    destruct (Str.eqb key (str "Enter")); [apply handleAddTodo_step|].
    destruct (Str.eqb key (str "Escape")); [apply closeModal_step|].
    split; [reflexivity|exact (step_same w)].
Qed.

Lemma session_cons e es w :
  session (e :: es) w = session es (exec (listener e) w).
Proof.
  destruct (listener_step e w) as [Ho _]. cbn [session]. unfold bind.
  unfold outcome, exec in *. destruct (listener e w) as [[[]|err] w']; cbn in *;
    [reflexivity|discriminate].
Qed.

(** A property of the collection that every step keeps holds after every
    session. *)
Lemma session_invariant (P : list js_object -> Prop) :
  (forall w l, P (todos w) -> step_todos w l -> P l) ->
  forall es w, P (todos w) ->
    outcome (session es) w = Normal tt /\ P (todos (exec (session es) w)).
Proof.
  intros Hstep es. induction es as [|e es IH]; intros w HP.
  - split; [reflexivity|exact HP].
  - unfold outcome, exec. rewrite session_cons. apply IH.
    apply (Hstep w); [exact HP|]. apply listener_step.
Qed.

Lemma is_valid_todo_set k v o :
  k <> str "id" -> k <> str "text" ->
  is_valid_todo (JObj (JSON.set k v o)) = is_valid_todo (JObj o).
Proof.
  intros H1 H2. unfold is_valid_todo, prop. now rewrite !get_set_other.
Qed.

Lemma is_valid_todo_edited now c cs o :
  trim (c :: cs) = c :: cs ->
  is_valid_todo (JObj o) = true ->
  is_valid_todo (JObj (edited now (c :: cs) o)) = true.
Proof.
  intros Ht Hv. apply is_valid_todo_object in Hv. destruct Hv as [Hid _].
  apply is_valid_todo_object. unfold edited. split.
  - now rewrite !get_set_other by discriminate.
  - exists (c :: cs). rewrite get_set_other by discriminate. rewrite get_set_same.
    split; [reflexivity|]. now rewrite Ht.
Qed.

Lemma valid_step w l :
  forallb (fun o => is_valid_todo (JObj o)) (todos w) = true ->
  step_todos w l ->
  forallb (fun o => is_valid_todo (JObj o)) l = true.
Proof.
  intros Hv [|c cs Ht|i now b|i now c cs Ht|q].
  - exact Hv.
  - cbn [forallb]. rewrite Hv, added_todo_task, is_valid_todo_task.
    now rewrite (added_task_valid (todoInput w) c cs w Ht).
  - apply forallb_update_nth;
      [intros x; rewrite is_valid_todo_set by discriminate; auto|].
    apply forallb_update_nth; [|exact Hv].
    intros x. rewrite is_valid_todo_set by discriminate. auto.
  - apply forallb_update_nth; [|exact Hv]. intros x. now apply is_valid_todo_edited.
  - now apply forallb_filter.
Qed.

Lemma task_step w l :
  (exists ts, todos w = map task_object ts /\ forallb task_valid ts = true) ->
  step_todos w l ->
  exists ts, l = map task_object ts /\ forallb task_valid ts = true.
Proof.
  intros (ts & Hts & Hv) [|c cs Ht|i now b|i now c cs Ht|q].
  - now exists ts.
  - exists (added_task (c :: cs) w :: ts). rewrite Hts, added_todo_task.
    split; [reflexivity|]. cbn [forallb].
    now rewrite (added_task_valid (todoInput w) c cs w Ht), Hv.
  - rewrite update_nth_compose, Hts.
    exists (update_nth i
              (fun t => mkTask (task_id t) (task_text t) b (task_createdAt t) now)
              ts).
    split; [apply update_nth_map; reflexivity|].
    apply forallb_update_nth; [|exact Hv]. intros x Hx. exact Hx.
  - exists (update_nth i
              (fun t => mkTask (task_id t) (c :: cs) (task_completed t)
                               (task_createdAt t) now)
              ts).
    rewrite Hts. split; [apply update_nth_map; reflexivity|].
    apply forallb_update_nth; [|exact Hv]. intros x. unfold task_valid.
    cbn [task_id task_text]. rewrite Ht.
    rewrite !andb_true_iff. intros [Hx _]. now split.
  - rewrite Hts. now apply task_store_filter.
Qed.

(** The collection the constructor leaves. *)
Lemma constructor_todos w :
  outcome constructor w = Normal tt
  /\ (todos (exec constructor w) = []
      \/ exists l, todos (exec constructor w) = valid_todos l).
Proof.
  change (outcome constructor w) with (outcome initializeApp (initial_fields w)).
  destruct (storage w) as [[|c cs]|] eqn:Hs.
  - pose proof (loadTodos_empty_string (initial_fields w) Hs) as E.
    rewrite (outcome_eq _ _ _ _ (initializeApp_loaded _ _ E)). split; [reflexivity|].
    left. now destruct (constructor_loaded_fields w _ E eq_refl) as (_ & _ & -> & _).
  - destruct (array_or_not (parse (c :: cs))) as [[l Hp]|Hna].
    + pose proof (loadTodos_array (initial_fields w) c cs l Hs Hp) as E.
      rewrite (outcome_eq _ _ _ _ (initializeApp_loaded _ _ E)). split; [reflexivity|].
      right. exists l.
      now destruct (constructor_loaded_fields w _ E eq_refl) as (_ & _ & -> & _).
    + pose proof (loadTodos_rejected (initial_fields w) c cs Hs Hna) as E.
      pose proof (initializeApp_failed _ _ _ E) as E'.
      rewrite (outcome_eq _ _ _ _ E'). split; [reflexivity|]. left.
      change (initializeApp (initial_fields w)) with (constructor w) in E'.
      now rewrite (exec_eq _ _ _ _ E').
  - pose proof (loadTodos_absent (initial_fields w) Hs) as E.
    rewrite (outcome_eq _ _ _ _ (initializeApp_loaded _ _ E)). split; [reflexivity|].
    left. now destruct (constructor_loaded_fields w _ E eq_refl) as (_ & _ & -> & _).
Qed.

(** X13.  From any storage, the constructor and every sequence of events
    after it complete normally, and leave a collection in which every task
    has a truthy [id] and a [text] that is a string and not blank. *)
Theorem every_session_keeps_tasks_valid (w : World) (es : list event) :
  let w' := exec (session es) (exec constructor w) in
  outcome constructor w = Normal tt
  /\ outcome (session es) (exec constructor w) = Normal tt
  /\ forall o, In o (todos w') ->
       truthy_opt (get (str "id") o) = true
       /\ exists text, get (str "text") o = Some (JStr text) /\ trim text <> [].
Proof.
  intros w'. subst w'. destruct (constructor_todos w) as [Ho Ht].
  split; [exact Ho|].
  assert (Hv : forallb (fun o => is_valid_todo (JObj o)) (todos (exec constructor w))
               = true).
  { destruct Ht as [->|[l ->]]; [reflexivity|].
    apply forallb_forall. intros o Hin. now apply In_valid_todos in Hin. }
  destruct (session_invariant
              (fun l => forallb (fun o => is_valid_todo (JObj o)) l = true)
              valid_step es _ Hv) as [Hs Hf].
  split; [exact Hs|]. intros o Hin. apply is_valid_todo_object.
  cbv beta in Hf. rewrite forallb_forall in Hf. now apply Hf.
Qed.

(** A task that the session with two tasks left in the storage, after a
    reload and a change of filter. *)
Lemma every_session_keeps_tasks_valid_witness :
  In (task_object milk)
     (todos (exec (session [FilterClick (str "active")]) (exec constructor declining_user)))
  /\ exists text,
       get (str "text") (task_object milk) = Some (JStr text) /\ trim text <> [].
Proof.
  assert (Hin : In (task_object milk)
                   (todos (exec (session [FilterClick (str "active")])
                             (exec constructor declining_user))))
    by (vm_compute; left; reflexivity).
  split; [exact Hin|].
  exact (proj2 (proj2 (proj2 (every_session_keeps_tasks_valid declining_user
                                [FilterClick (str "active")]))
                  (task_object milk) Hin)).
Defined.

(** X14.  A collection of tasks as [handleAddTodo] builds them, objects
    with a string [id], a [text] that is not blank, a boolean [completed]
    and the two dates, and nothing else, is still one after every sequence
    of events, and so is the collection of a page that starts on the storage
    it was written to. *)
Theorem every_session_keeps_task_shape (w w0 : World) (es : list event) :
  task_store w ->
  task_store (exec (session es) w)
  /\ (storage w0 = Some (serialize (todos w)) ->
      task_store (exec (session es) (exec constructor w0))).
Proof.
  intros Hst. split.
  - now destruct (session_invariant _ task_step es w Hst).
  - intros Hs.
    assert (Ht : todos (exec constructor w0) = todos w).
    { destruct Hst as (ts & Hts & Hv). rewrite serialize_bracket in Hs.
      assert (Hp : parse (91%N :: tl (serialize (todos w)))
                   = Some (JArr (map JObj (todos w)))).
      { rewrite <- serialize_bracket, Hts. apply parse_serialize_tasks. }
      pose proof (loadTodos_array (initial_fields w0) _ _ _ Hs Hp) as E.
      destruct (constructor_loaded_fields w0 _ E eq_refl) as (_ & _ & -> & _).
      cbn [todos set_todos]. rewrite Hts. now apply valid_todos_tasks. }
    assert (Hst0 : task_store (exec constructor w0)).
    { unfold task_store. now rewrite Ht. }
    now destruct (session_invariant _ task_step es _ Hst0).
Qed.

Lemma every_session_keeps_task_shape_witness :
  task_store (exec (session busy_session) later)
  /\ map (get (str "text")) (todos (exec (session busy_session) later))
     = [Some (JStr (str "Buy eggs"))].
Proof.
  assert (Hst : task_store later).
  { exists [milk; bread]. split; reflexivity. }
  split; [|vm_compute; reflexivity].
  exact (proj1 (every_session_keeps_task_shape later later busy_session Hst)).
Defined.

(** ** Identifiers *)

Lemma digits_from_app radix fuel n acc :
  digits_from radix fuel n acc = digits_from radix fuel n [] ++ acc.
Proof.
  revert n acc. induction fuel as [|fuel IH]; intros n acc; [reflexivity|].
  cbn [digits_from]. destruct (n <? radix)%N; [reflexivity|].
  rewrite (IH _ (_ :: acc)), (IH _ [_]), <- app_assoc. reflexivity.
Qed.

Lemma radix_value_snoc radix ds d :
  radix_value radix (ds ++ [d]) = (radix_value radix ds * radix + d)%N.
Proof. unfold radix_value. now rewrite fold_left_app. Qed.

Lemma digits_from_value radix fuel n :
  (1 < radix)%N -> (n < radix ^ N.of_nat fuel)%N ->
  radix_value radix (digits_from radix fuel n []) = n.
Proof.
  intros Hr. revert n. induction fuel as [|fuel IH]; intros n Hn.
  - cbn in Hn. cbn. lia.
  - cbn [digits_from]. destruct (n <? radix)%N eqn:E; [cbn; lia|].
    rewrite digits_from_app, radix_value_snoc, IH.
    + rewrite N.mul_comm. symmetry. apply N.div_mod. lia.
    + apply N.Div0.div_lt_upper_bound.
      now rewrite Nat2N.inj_succ, N.pow_succ_r' in Hn.
Qed.

Lemma size_nat_gt n : (n < 2 ^ N.of_nat (N.size_nat n))%N.
Proof.
  destruct n as [|p]; [cbn; lia|]. cbn [N.size_nat].
  induction p as [p IH|p IH|]; cbn [Pos.size_nat];
    rewrite ?Nat2N.inj_succ, ?N.pow_succ_r'; lia.
Qed.

Lemma radix_pow_size radix n :
  (1 < radix)%N -> (n < radix ^ N.of_nat (S (N.size_nat n)))%N.
Proof.
  intros Hr. pose proof (size_nat_gt n) as H.
  assert (2 ^ N.of_nat (N.size_nat n) <= radix ^ N.of_nat (N.size_nat n))%N
    by (apply N.pow_le_mono_l; lia).
  assert (radix ^ N.of_nat (N.size_nat n) <= radix ^ N.of_nat (S (N.size_nat n)))%N
    by (apply N.pow_le_mono_r; lia).
  lia.
Qed.

Lemma radix_value_digits radix n :
  (1 < radix)%N -> radix_value radix (digits radix n) = n.
Proof. intros Hr. apply digits_from_value; [exact Hr|now apply radix_pow_size]. Qed.

Lemma digit_char_inj a b : digit_char a = digit_char b -> a = b.
Proof.
  unfold digit_char. destruct (a <? 10)%N eqn:Ea, (b <? 10)%N eqn:Eb;
    rewrite ?N.ltb_lt, ?N.ltb_ge in *; lia.
Qed.

Lemma map_digit_char_inj a b : map digit_char a = map digit_char b -> a = b.
Proof.
  revert b. induction a as [|x a IH]; intros [|y b] H; try discriminate;
    [reflexivity|].
  injection H as Hx Ha. apply digit_char_inj in Hx. apply IH in Ha. congruence.
Qed.

(** [toString(radix)] is one to one on the natural numbers. *)
Lemma N_to_string_inj radix a b :
  (1 < radix)%N -> N_to_string radix a = N_to_string radix b -> a = b.
Proof.
  intros Hr H. apply map_digit_char_inj in H.
  rewrite <- (radix_value_digits radix a Hr), <- (radix_value_digits radix b Hr).
  now rewrite H.
Qed.

Lemma length_digits_from radix k : forall fuel n acc,
  (1 < radix)%N ->
  (radix ^ N.of_nat k <= n < radix ^ N.of_nat (S k))%N -> (k < fuel)%nat ->
  List.length (digits_from radix fuel n acc) = (S k + List.length acc)%nat.
Proof.
  induction k as [|k IH]; intros [|fuel] n acc Hr Hn Hk; try lia.
  - cbn [digits_from]. change (N.of_nat 1) with 1%N in Hn. rewrite N.pow_1_r in Hn.
    destruct (N.ltb_spec n radix); [reflexivity|lia].
  - cbn [digits_from]. rewrite !Nat2N.inj_succ, !N.pow_succ_r' in Hn.
    assert (radix ^ N.of_nat k <> 0)%N by (apply N.pow_nonzero; lia).
    destruct (N.ltb_spec n radix) as [Hlt|Hge]; [nia|].
    rewrite (IH fuel (n / radix)%N); [cbn [List.length]; lia|exact Hr| |lia].
    rewrite Nat2N.inj_succ, N.pow_succ_r'. split.
    + apply N.div_le_lower_bound; lia.
    + apply N.Div0.div_lt_upper_bound. lia.
Qed.

Lemma length_N_to_string radix k n :
  (1 < radix)%N ->
  (radix ^ N.of_nat k <= n < radix ^ N.of_nat (S k))%N ->
  List.length (N_to_string radix n) = S k.
Proof.
  intros Hr Hn. unfold N_to_string, digits. rewrite length_map.
  rewrite (length_digits_from radix k); [cbn [List.length]; lia|exact Hr|exact Hn|].
  pose proof (size_nat_gt n) as H.
  assert (2 ^ N.of_nat k <= radix ^ N.of_nat k)%N by (apply N.pow_le_mono_l; lia).
  assert (Hlt : (2 ^ N.of_nat k < 2 ^ N.of_nat (N.size_nat n))%N) by lia.
  apply N.pow_lt_mono_r_iff in Hlt; lia.
Qed.

Lemma length_eight_digits t :
  eight_digits t -> List.length (Z_to_string 36 t) = 8%nat.
Proof.
  intros [H1 H2]. unfold Z_to_string.
  destruct t as [|p|p]; try (cbn in H1; lia).
  apply (length_N_to_string 36 7); [lia|].
  change (Z.to_N (Z.pos p)) with (N.pos p).
  change (36 ^ N.of_nat 7)%N with (Z.to_N (36 ^ 7)).
  change (36 ^ N.of_nat 8)%N with (Z.to_N (36 ^ 8)). lia.
Qed.

Lemma Z_to_string_inj a b :
  (0 <= a)%Z -> (0 <= b)%Z -> Z_to_string 36 a = Z_to_string 36 b -> a = b.
Proof.
  intros Ha Hb H. unfold Z_to_string in H.
  destruct a as [|p|p], b as [|q|q]; try lia;
    apply N_to_string_inj in H; try lia; cbn in H; congruence.
Qed.

Lemma app_inv_length {A} (a b x y : list A) :
  List.length a = List.length b -> a ++ x = b ++ y -> a = b.
Proof.
  revert b. induction a as [|c a IH]; intros [|d b] Hl H; try discriminate;
    [reflexivity|].
  injection Hl as Hl. injection H as -> H. f_equal. now apply IH.
Qed.

Lemma handleAddTodo_clock_reads w c cs :
  trim (todoInput w) = c :: cs ->
  clock_reads (exec handleAddTodo w) = S (S (S (clock_reads w))).
Proof.
  intros Ht. destruct (handleAddTodo_run w c cs Ht) as (w' & E & Hend).
  rewrite (exec_eq _ _ _ _ E).
  exact (ends_field clock_reads (add_mutated (c :: cs) w) (add_done (c :: cs) w) _ _ w'
           (fun _ => eq_refl) (fun _ _ _ => eq_refl) eq_refl Hend).
Qed.

Lemma generateId_exact w :
  generateId w
  = (Normal (Z_to_string 36 (clock w (clock_reads w))
             ++ substr 2 (random36 w (random_calls w))),
     set_random_calls (S (random_calls w)) (set_clock_reads (S (clock_reads w)) w)).
Proof. reflexivity. Qed.

Lemma ids_differ t1 t2 (r1 r2 : js_string) :
  eight_digits t1 -> eight_digits t2 -> t1 <> t2 ->
  Z_to_string 36 t1 ++ r1 <> Z_to_string 36 t2 ++ r2.
Proof.
  intros H1 H2 Hne E. apply Hne.
  apply app_inv_length in E;
    [|now rewrite (length_eight_digits t1 H1), (length_eight_digits t2 H2)].
  apply Z_to_string_inj in E; [exact E| |]; unfold eight_digits in *; lia.
Qed.

Lemma get_id_added_todo text w :
  get (str "id") (added_todo text w)
  = Some (JStr (Z_to_string 36 (clock w (clock_reads w))
                ++ substr 2 (random36 w (random_calls w)))).
Proof. reflexivity. Qed.

(** X15.  The identifier [generateId] returns begins with the clock
    reading in base 36, and that form determines the reading.  For readings
    of eight digits, the instants from 1972 to 2059, two calls at different
    milliseconds therefore return different identifiers, whatever the random
    parts; and two tasks added one after the other carry different
    identifiers when the clock has moved between the two calls. *)
Theorem ids_differ_across_milliseconds (w : World) (c d : N) (cs ds text : js_string) :
  (forall a b, (0 <= a)%Z -> (0 <= b)%Z ->
     Z_to_string 36 a = Z_to_string 36 b -> a = b)
  /\ (forall wa wb,
        eight_digits (clock wa (clock_reads wa)) ->
        eight_digits (clock wb (clock_reads wb)) ->
        clock wa (clock_reads wa) <> clock wb (clock_reads wb) ->
        outcome generateId wa <> outcome generateId wb)
  /\ (trim (todoInput w) = c :: cs -> trim text = d :: ds ->
      eight_digits (clock w (clock_reads w)) ->
      eight_digits (clock w (3 + clock_reads w)) ->
      clock w (clock_reads w) <> clock w (3 + clock_reads w) ->
      exists first second,
        todos (exec handleAddTodo (set_todoInput text (exec handleAddTodo w)))
        = second :: first :: todos w
        /\ get (str "id") first <> get (str "id") second).
Proof.
  split; [apply Z_to_string_inj|]. split.
  - intros wa wb Ha Hb Hne. rewrite (outcome_eq _ _ _ _ (generateId_exact wa)),
      (outcome_eq _ _ _ _ (generateId_exact wb)).
    intros E. injection E as E. revert E. now apply ids_differ.
  - intros Ht Hd H1 H2 Hne.
    set (w1 := exec handleAddTodo w). set (x := set_todoInput text w1).
    assert (Hx : trim (todoInput x) = d :: ds) by exact Hd.
    exists (added_todo (c :: cs) w), (added_todo (d :: ds) x).
    destruct (handleAddTodo_adds x d ds Hx) as (_ & T2 & _).
    destruct (handleAddTodo_adds w c cs Ht) as (_ & T1 & _).
    rewrite T2. change (todos x) with (todos (exec handleAddTodo w)). rewrite T1.
    split; [reflexivity|].
    rewrite !get_id_added_todo.
    change (clock x (clock_reads x)) with (clock w1 (clock_reads w1)).
    unfold w1. rewrite handleAddTodo_keeps_clock, (handleAddTodo_clock_reads w c cs Ht).
    intros E. injection E as E. revert E. now apply ids_differ.
Qed.

(** Two tasks added to the empty collection of [fresh_browser], whose
    clock advances by a millisecond at each reading. *)
Lemma ids_differ_across_milliseconds_witness :
  exists first second,
    todos (exec handleAddTodo
             (set_todoInput (str "Buy bread")
                (exec handleAddTodo (set_todoInput (str "Buy milk") fresh_browser))))
    = [second; first]
    /\ get (str "id") first <> get (str "id") second.
Proof.
  destruct (ids_differ_across_milliseconds
              (set_todoInput (str "Buy milk") fresh_browser)
              66%N 66%N (str "uy milk") (str "uy bread") (str "Buy bread"))
    as (_ & _ & H).
  apply H; try reflexivity; unfold eight_digits; cbn; lia.
Defined.

(** ** What a reload brings back *)

Lemma reload_todos w w0 :
  task_store w -> storage w0 = Some (serialize (todos w)) ->
  todos (exec constructor w0) = todos w.
Proof.
  intros (ts & Hts & Hv) Hs. rewrite serialize_bracket in Hs.
  assert (Hp : parse (91%N :: tl (serialize (todos w)))
               = Some (JArr (map JObj (todos w)))).
  { rewrite <- serialize_bracket, Hts. apply parse_serialize_tasks. }
  pose proof (loadTodos_array (initial_fields w0) _ _ _ Hs Hp) as E.
  destruct (constructor_loaded_fields w0 _ E eq_refl) as (_ & _ & -> & _).
  cbn [todos set_todos]. rewrite Hts. now apply valid_todos_tasks.
Qed.

(** A method that reached the write leaves the storage as it was or
    holding the collection. *)
Lemma ends_storage mutated done label message w' w :
  ends mutated done label message w' ->
  storage done = Some (serialize (todos mutated)) ->
  todos done = todos mutated ->
  storage mutated = storage w ->
  storage w' = storage w \/ storage w' = Some (serialize (todos w')).
Proof.
  intros [[_ Hm]|[_ ->]] Hs Ht Hw.
  - right. now rewrite (model_storage _ _ Hm), (model_todos _ _ Hm), Hs, Ht.
  - left. exact Hw.
Qed.

Lemma handleAddTodo_storage w :
  storage (exec handleAddTodo w) = storage w
  \/ storage (exec handleAddTodo w) = Some (serialize (todos (exec handleAddTodo w))).
Proof.
  destruct (trim (todoInput w)) as [|c cs] eqn:Ht.
  - left. now rewrite (exec_eq _ _ _ _ (handleAddTodo_blank w Ht)).
  - destruct (handleAddTodo_run w c cs Ht) as (w' & E & Hend).
    rewrite (exec_eq _ _ _ _ E).
    exact (ends_storage _ _ _ _ w' w Hend eq_refl eq_refl eq_refl).
Qed.

Lemma listener_storage e w :
  storage (exec (listener e) w) = storage w
  \/ storage (exec (listener e) w) = Some (serialize (todos (exec (listener e) w))).
Proof.
  destruct e as [text| |f|id|id|text| | |id| |ctrlKey metaKey key]; cbn [listener].
  - now left.
  - apply handleAddTodo_storage.
  - left. destruct (list_eq_dec N.eq_dec f (currentFilter w)) as [E|E].
    + now rewrite (exec_eq _ _ _ _ (handleFilterChange_same f w E)).
    + rewrite (exec_eq _ _ _ _ (handleFilterChange_exact f w E)).
      now rewrite (model_storage _ _ (model_rendered_world (set_currentFilter f w))).
  - destruct (Array_find (has_id id) (todos w)) as [i|] eqn:Hf.
    + destruct (toggleTodo_run id i w Hf) as (w' & E & Hend).
      rewrite (exec_eq _ _ _ _ E).
      exact (ends_storage _ _ _ _ w' w Hend eq_refl eq_refl eq_refl).
    + left. now rewrite (exec_eq _ _ _ _ (toggleTodo_absent id w Hf)).
  - left. destruct (editTodo_run id w) as (w' & E & _ & Hs & _).
    now rewrite (exec_eq _ _ _ _ E).
  - now left.
  - destruct (trim (editInput w)) as [|c cs] eqn:Ht.
    { left. now rewrite (exec_eq _ _ _ _ (saveEdit_blank w Ht)). }
    destruct (editingIndex w) as [index|] eqn:He.
    2:{ left. rewrite (exec_eq _ _ _ _ (saveEdit_no_index w ltac:(now rewrite He))).
        reflexivity. }
    destruct (Z.lt_ge_cases index 0) as [Hi|Hi].
    { left. rewrite (exec_eq _ _ _ _ (saveEdit_no_index w ltac:(now rewrite He))).
      reflexivity. }
    destruct (nth_error (todos w) (Z.to_nat index)) as [t|] eqn:Hn.
    + destruct (saveEdit_run w c cs index t Ht He Hi Hn) as (w' & E & Hend).
      rewrite (exec_eq _ _ _ _ E).
      exact (ends_storage _ _ _ _ w' w Hend eq_refl eq_refl eq_refl).
    + left.
      now rewrite (exec_eq _ _ _ _ (saveEdit_out_of_range w c cs index Ht He Hi Hn)).
  - now left.
  - destruct (Array_find (has_id id) (todos w)) as [i|] eqn:Hf.
    + destruct (confirms w (confirm_calls w)) eqn:Hc.
      * destruct (deleteTodo_run id i w Hf Hc) as (w' & E & Hend).
        rewrite (exec_eq _ _ _ _ E).
        exact (ends_storage _ _ _ _ w' w Hend eq_refl eq_refl eq_refl).
      * left. now rewrite (exec_eq _ _ _ _ (deleteTodo_declined id i w Hf Hc)).
    + left. now rewrite (exec_eq _ _ _ _ (deleteTodo_absent id w Hf)).
  - destruct (Nat.eq_dec (completed_count w) 0) as [Hz|Hz].
    + left. now rewrite (exec_eq _ _ _ _ (clearCompleted_none w Hz)).
    + destruct (confirms w (confirm_calls w)) eqn:Hc.
      * destruct (clearCompleted_run w Hz Hc) as (w' & E & Hend).
        rewrite (exec_eq _ _ _ _ E).
        exact (ends_storage _ _ _ _ w' w Hend eq_refl eq_refl eq_refl).
      * left. now rewrite (exec_eq _ _ _ _ (clearCompleted_declined w Hz Hc)).
  - unfold handleKeyboardShortcuts.
    destruct (ctrlKey || metaKey); [|now left].
    destruct (Str.eqb key (str "Enter")); [apply handleAddTodo_storage|].
    destruct (Str.eqb key (str "Escape")); now left.
Qed.

Lemma exec_session_cons e es w :
  exec (session (e :: es)) w = exec (session es) (exec (listener e) w).
Proof. unfold exec at 1 2. now rewrite session_cons. Qed.

(** The storage after a session is the one it started with, or holds the
    collection as it was after one of the events, and has not changed
    since. *)
Lemma session_storage es : forall w,
  exists k, (k <= List.length es)%nat
    /\ (forall j, (k <= j <= List.length es)%nat ->
          storage (exec (session (firstn j es)) w) = storage (exec (session es) w))
    /\ (k = 0%nat
        \/ storage (exec (session es) w)
           = Some (serialize (todos (exec (session (firstn k es)) w)))).
Proof.
  induction es as [|e es IH]; intros w.
  - exists 0%nat. split; [lia|]. split; [|now left].
    intros j Hj. now destruct j.
  - destruct (IH (exec (listener e) w)) as (k & Hk & Hs & Hc).
    rewrite exec_session_cons.
    assert (Hlater : forall j, (1 <= j <= List.length (e :: es))%nat ->
              (k <= j - 1)%nat ->
              storage (exec (session (firstn j (e :: es))) w)
              = storage (exec (session es) (exec (listener e) w))).
    { intros [|j] Hj Hkj; [lia|]. cbn [firstn]. rewrite exec_session_cons.
      apply Hs. cbn [List.length] in Hj. lia. }
    destruct Hc as [->|Hc].
    + destruct (listener_storage e w) as [H|H].
      * exists 0%nat. split; [lia|]. split; [|now left].
        intros [|j] Hj; [|apply Hlater; lia].
        cbn [firstn]. change (exec (session []) w) with w.
        rewrite <- H. apply (Hs 0%nat). lia.
      * exists 1%nat. cbn [List.length]. split; [lia|].
        split; [intros j Hj; apply Hlater; cbn [List.length]; lia|].
        right. cbn [firstn]. rewrite exec_session_cons.
        change (exec (session []) ?x) with x.
        rewrite <- H. symmetry. apply (Hs 0%nat). lia.
    + exists (S k). cbn [List.length]. split; [lia|].
      split; [intros j Hj; apply Hlater; cbn [List.length]; lia|].
      right. cbn [firstn]. now rewrite exec_session_cons.
Qed.

(** X16.  There are no partial writes: when a session starts from a
    collection of tasks that is in the storage, the storage holds at its
    end the collection as it was at the start or after one of the events,
    and has not changed since; a page that starts on what the session left
    gets that collection. *)
Theorem reload_returns_a_state_of_the_session (w : World) (es : list event) :
  task_store w ->
  storage w = Some (serialize (todos w)) ->
  exists k,
    (k <= List.length es)%nat
    /\ storage (exec (session es) w)
       = Some (serialize (todos (exec (session (firstn k es)) w)))
    /\ (forall j, (k <= j <= List.length es)%nat ->
          storage (exec (session (firstn j es)) w) = storage (exec (session es) w))
    /\ todos (exec constructor (exec (session es) w))
       = todos (exec (session (firstn k es)) w).
Proof.
  intros Hst Hsync. destruct (session_storage es w) as (k & Hk & Hs & Hc).
  exists k. split; [exact Hk|].
  assert (Hstored : storage (exec (session es) w)
                    = Some (serialize (todos (exec (session (firstn k es)) w)))).
  { destruct Hc as [->|Hc]; [|exact Hc].
    rewrite <- (Hs 0%nat) by lia. cbn [firstn].
    change (exec (session []) w) with w. exact Hsync. }
  split; [exact Hstored|]. split; [exact Hs|].
  apply reload_todos; [|exact Hstored].
  now destruct (session_invariant _ task_step (firstn k es) w Hst).
Qed.

(** A toggle, which fits, and an add, which does not. *)
Lemma reload_returns_a_state_of_the_session_witness :
  exists k,
    (k <= 3)%nat
    /\ storage (exec (session [CheckboxChange (JStr (task_id bread));
                               TypeTask (str "Buy eggs"); Submit]) tight_storage)
       = Some (serialize
                 (todos (exec (session (firstn k [CheckboxChange (JStr (task_id bread));
                                                  TypeTask (str "Buy eggs"); Submit]))
                           tight_storage)))
    /\ (forall j, (k <= j <= 3)%nat ->
          storage (exec (session (firstn j [CheckboxChange (JStr (task_id bread));
                                            TypeTask (str "Buy eggs"); Submit]))
                     tight_storage)
          = storage (exec (session [CheckboxChange (JStr (task_id bread));
                                    TypeTask (str "Buy eggs"); Submit]) tight_storage))
    /\ todos (exec constructor
                (exec (session [CheckboxChange (JStr (task_id bread));
                                TypeTask (str "Buy eggs"); Submit]) tight_storage))
       = todos (exec (session (firstn k [CheckboxChange (JStr (task_id bread));
                                         TypeTask (str "Buy eggs"); Submit]))
                  tight_storage).
Proof.
  assert (Hst : task_store tight_storage).
  { exists [milk; bread]. split; reflexivity. }
  exact (reload_returns_a_state_of_the_session tight_storage
           [CheckboxChange (JStr (task_id bread)); TypeTask (str "Buy eggs"); Submit]
           Hst eq_refl).
Defined.

(** ** Notifications *)

Lemma adds_nothing w w' : effects w' = effects w -> adds_effects 1 w w'.
Proof. intros H. exists []. split; [exact H|]. split; [cbn; lia|reflexivity]. Qed.

Lemma ends_effects mutated done label message w' w m :
  ends mutated done label message w' ->
  effects done = Notification m (str "success") :: effects w ->
  effects mutated = effects w ->
  adds_effects 1 w w'.
Proof.
  intros [[_ Hm]|[_ ->]] Hd Hw.
  - exists [Notification m (str "success")]. rewrite (model_effects _ _ Hm), Hd.
    split; [reflexivity|]. split; [cbn; lia|reflexivity].
  - exists [Notification message (str "error"); ConsoleError label;
            ConsoleError (str "Error saving to localStorage:")].
    split; [|split; [cbn; lia|reflexivity]].
    change (effects (reported label message (save_failed mutated)))
      with (Notification message (str "error") :: ConsoleError label
            :: ConsoleError (str "Error saving to localStorage:") :: effects mutated).
    now rewrite Hw.
Qed.

Lemma handleAddTodo_effects w : adds_effects 1 w (exec handleAddTodo w).
Proof.
  destruct (trim (todoInput w)) as [|c cs] eqn:Ht.
  - apply adds_nothing. now rewrite (exec_eq _ _ _ _ (handleAddTodo_blank w Ht)).
  - destruct (handleAddTodo_run w c cs Ht) as (w' & E & Hend).
    rewrite (exec_eq _ _ _ _ E).
    exact (ends_effects _ _ _ _ w' w _ Hend eq_refl eq_refl).
Qed.

Lemma listener_effects e w : adds_effects 1 w (exec (listener e) w).
Proof.
  destruct e as [text| |f|id|id|text| | |id| |ctrlKey metaKey key]; cbn [listener].
  - now apply adds_nothing.
  - apply handleAddTodo_effects.
  - apply adds_nothing. destruct (list_eq_dec N.eq_dec f (currentFilter w)) as [E|E].
    + now rewrite (exec_eq _ _ _ _ (handleFilterChange_same f w E)).
    + rewrite (exec_eq _ _ _ _ (handleFilterChange_exact f w E)).
      now rewrite (model_effects _ _ (model_rendered_world (set_currentFilter f w))).
  - destruct (Array_find (has_id id) (todos w)) as [i|] eqn:Hf.
    + destruct (toggleTodo_run id i w Hf) as (w' & E & Hend).
      rewrite (exec_eq _ _ _ _ E).
      exact (ends_effects _ _ _ _ w' w _ Hend eq_refl eq_refl).
    + apply adds_nothing. now rewrite (exec_eq _ _ _ _ (toggleTodo_absent id w Hf)).
  - apply adds_nothing. destruct (editTodo_run id w) as (w' & E & _ & _ & He & _).
    now rewrite (exec_eq _ _ _ _ E).
  - now apply adds_nothing.
  - destruct (trim (editInput w)) as [|c cs] eqn:Ht.
    { apply adds_nothing. now rewrite (exec_eq _ _ _ _ (saveEdit_blank w Ht)). }
    destruct (editingIndex w) as [index|] eqn:He.
    2:{ apply adds_nothing.
        rewrite (exec_eq _ _ _ _ (saveEdit_no_index w ltac:(now rewrite He))).
        reflexivity. }
    destruct (Z.lt_ge_cases index 0) as [Hi|Hi].
    { apply adds_nothing.
      rewrite (exec_eq _ _ _ _ (saveEdit_no_index w ltac:(now rewrite He))).
      reflexivity. }
    destruct (nth_error (todos w) (Z.to_nat index)) as [t|] eqn:Hn.
    + destruct (saveEdit_run w c cs index t Ht He Hi Hn) as (w' & E & Hend).
      rewrite (exec_eq _ _ _ _ E).
      exact (ends_effects _ _ _ _ w' w _ Hend eq_refl eq_refl).
    + rewrite (exec_eq _ _ _ _ (saveEdit_out_of_range w c cs index Ht He Hi Hn)).
      exists [Notification (str "Error updating task. Please try again.") (str "error");
              ConsoleError (str "Error saving edit:")].
      split; [reflexivity|]. split; [cbn; lia|reflexivity].
  - now apply adds_nothing.
  - destruct (Array_find (has_id id) (todos w)) as [i|] eqn:Hf.
    + destruct (confirms w (confirm_calls w)) eqn:Hc.
      * destruct (deleteTodo_run id i w Hf Hc) as (w' & E & Hend).
        rewrite (exec_eq _ _ _ _ E).
        exact (ends_effects _ _ _ _ w' w _ Hend eq_refl eq_refl).
      * apply adds_nothing.
        now rewrite (exec_eq _ _ _ _ (deleteTodo_declined id i w Hf Hc)).
    + apply adds_nothing. now rewrite (exec_eq _ _ _ _ (deleteTodo_absent id w Hf)).
  - destruct (Nat.eq_dec (completed_count w) 0) as [Hz|Hz].
    + rewrite (exec_eq _ _ _ _ (clearCompleted_none w Hz)).
      exists [Notification (str "No completed tasks to clear.") (str "info")].
      split; [reflexivity|]. split; [cbn; lia|reflexivity].
    + destruct (confirms w (confirm_calls w)) eqn:Hc.
      * destruct (clearCompleted_run w Hz Hc) as (w' & E & Hend).
        rewrite (exec_eq _ _ _ _ E).
        exact (ends_effects _ _ _ _ w' w _ Hend eq_refl eq_refl).
      * apply adds_nothing.
        now rewrite (exec_eq _ _ _ _ (clearCompleted_declined w Hz Hc)).
  - unfold handleKeyboardShortcuts.
    destruct (ctrlKey || metaKey); [|now apply adds_nothing].
    destruct (Str.eqb key (str "Enter")); [apply handleAddTodo_effects|].
    destruct (Str.eqb key (str "Escape")); now apply adds_nothing.
Qed.

Lemma notification_types_app a b :
  notification_types (a ++ b) = notification_types a ++ notification_types b.
Proof. apply flat_map_app. Qed.

Lemma adds_effects_trans n1 n2 w1 w2 w3 :
  adds_effects n1 w1 w2 -> adds_effects n2 w2 w3 -> adds_effects (n1 + n2) w1 w3.
Proof.
  intros (a & Ha & La & Fa) (b & Hb & Lb & Fb). exists (b ++ a).
  split; [now rewrite Hb, Ha, app_assoc|]. unfold notifies.
  rewrite notification_types_app, length_app, forallb_app, Fa, Fb.
  split; [lia|reflexivity].
Qed.

Lemma session_effects es : forall w,
  adds_effects (List.length es) w (exec (session es) w).
Proof.
  induction es as [|e es IH]; intros w.
  - exists []. split; [reflexivity|]. split; [cbn; lia|reflexivity].
  - rewrite exec_session_cons. cbn [List.length].
    exact (adds_effects_trans 1 _ _ _ _ (listener_effects e w) (IH _)).
Qed.

Lemma constructor_effects w : adds_effects 1 w (exec constructor w).
Proof.
  destruct (storage w) as [[|c cs]|] eqn:Hs.
  - pose proof (loadTodos_empty_string (initial_fields w) Hs) as E.
    apply adds_nothing.
    now destruct (constructor_loaded_fields w _ E eq_refl) as (_ & _ & _ & _ & _ & -> & _).
  - destruct (array_or_not (parse (c :: cs))) as [[l Hp]|Hna].
    + pose proof (loadTodos_array (initial_fields w) c cs l Hs Hp) as E.
      apply adds_nothing.
      now destruct (constructor_loaded_fields w _ E eq_refl)
        as (_ & _ & _ & _ & _ & -> & _).
    + pose proof (loadTodos_rejected (initial_fields w) c cs Hs Hna) as E.
      pose proof (initializeApp_failed _ _ _ E) as E'.
      change (initializeApp (initial_fields w)) with (constructor w) in E'.
      rewrite (exec_eq _ _ _ _ E').
      exists [Notification (str "Error loading todos. Please refresh the page.")
                (str "error");
              ConsoleError (str "Error initializing app:");
              ConsoleError (str "Error loading from localStorage:")].
      split; [reflexivity|]. split; [cbn; lia|reflexivity].
  - pose proof (loadTodos_absent (initial_fields w) Hs) as E.
    apply adds_nothing.
    now destruct (constructor_loaded_fields w _ E eq_refl) as (_ & _ & _ & _ & _ & -> & _).
Qed.

(** X17.  The constructor and each event show at most one notification:
    after the constructor and a session of [n] events, the effects are
    those before with at most [n + 1] notifications added.  Every
    notification shown has the type [success], [error] or [info], so that
    [getNotificationIcon] and [getNotificationColor] never return the icon
    and the colour of a warning. *)
Theorem at_most_one_notification_per_event (w : World) (es : list event) :
  exists new,
    effects (exec (session es) (exec constructor w)) = new ++ effects w
    /\ (List.length (notification_types new) <= S (List.length es))%nat
    /\ (forall message type,
          In (Notification message type) new ->
          (type = str "success" \/ type = str "error" \/ type = str "info")
          /\ getNotificationIcon type <> str "exclamation-triangle"
          /\ getNotificationColor type <> str "#ffc107").
Proof.
  destruct (adds_effects_trans 1 _ _ _ _ (constructor_effects w)
              (session_effects es (exec constructor w))) as (new & E & L & F).
  exists new. split; [exact E|]. split; [exact L|].
  intros message type Hin. rewrite forallb_forall in F.
  assert (Ht : In type (notification_types new)).
  { unfold notification_types. apply in_flat_map.
    exists (Notification message type). split; [exact Hin|now left]. }
  apply F in Ht. unfold used_type in Ht. rewrite !orb_true_iff in Ht.
  destruct Ht as [[H|H]|H]; apply string_eqb_eq in H; subst type;
    (split; [auto|split; discriminate]).
Qed.
